(** * piliang.py: batch search, staging and merge of video segments

    A shallow embedding of [src/piliang.py] (MaterialSearch).  The file
    system is a finite map from path strings to nodes, the program's
    functions are written in a state-and-exception monad over a [world]
    made of the file system, the log and the trace of external processes.
    What the script imports or calls and does not define (the retrieval
    engine, the encoder and the probe, the order of a directory listing)
    is gathered in a record of collaborators that every function takes. *)

From Stdlib Require Import Floats.PrimFloat Ascii.
From stdpp Require Import gmap strings list fin_maps pretty sorting.

Open Scope string_scope.
Open Scope list_scope.

(** Decimal literals such as [0.3] denote the nearest binary64 number, as
    they do in Python. *)
Set Warnings "-inexact-float".

(** ** Python string primitives *)

Module PyStr.

(** [s.startswith(pre)] *)
Fixpoint startswith (s pre : string) {struct pre} : bool :=
  match pre, s with
  | "", _ => true
  | String a pre', String b s' => bool_decide (a = b) && startswith s' pre'
  | String _ _, "" => false
  end.

(** [s.endswith(suf)] *)
Fixpoint endswith (s suf : string) : bool :=
  bool_decide (s = suf) ||
  match s with
  | "" => false
  | String _ s' => endswith s' suf
  end.

(** [s.replace(a, b)] for one-character [a] and [b] *)
Fixpoint replace (a b : ascii) (s : string) : string :=
  match s with
  | "" => ""
  | String c s' => String (if bool_decide (c = a) then b else c) (replace a b s')
  end.

(** [sep.join(parts)] *)
Fixpoint join (sep : string) (parts : list string) : string :=
  match parts with
  | [] => ""
  | [p] => p
  | p :: ps => p +:+ sep +:+ join sep ps
  end.

(** [''.join(parts)] *)
Definition concat (parts : list string) : string := foldr String.app "" parts.

(** [str(n)] for a natural number *)
Definition str (n : nat) : string := pretty n.

(** [enumerate(l, start)] *)
Definition enumerate {A} (start : nat) (l : list A) : list (nat * A) :=
  zip (seq start (length l)) l.

(** [l[:n]] for a Python integer [n]: a negative bound counts from the end. *)
Definition slice_to {A} (l : list A) (n : Z) : list A :=
  if decide (0 ≤ n)%Z then take (Z.to_nat n) l
  else take (length l - Z.to_nat (- n)) l.

End PyStr.

(** ** [os.path] on POSIX path strings *)

Module Path.

Definition sep : ascii := "/"%char.

Fixpoint has_sep (s : string) : bool :=
  match s with
  | "" => false
  | String c s' => bool_decide (c = sep) || has_sep s'
  end.

(** [(p[:i], p[i:])] for [i = p.rfind('/') + 1] *)
Fixpoint split_last_sep (p : string) : string * string :=
  match p with
  | "" => ("", "")
  | String c p' =>
      match split_last_sep p' with
      | ("", _) => if bool_decide (c = sep) then (String c "", p') else ("", p)
      | (h, t) => (String c h, t)
      end
  end.

Definition basename (p : string) : string := (split_last_sep p).2.

(** [head.rstrip('/')] *)
Fixpoint rstrip_sep (s : string) : string :=
  match s with
  | "" => ""
  | String c s' =>
      match rstrip_sep s' with
      | "" => if bool_decide (c = sep) then "" else String c ""
      | r => String c r
      end
  end.

(** [os.path.dirname]: the head is stripped of trailing separators unless it
    consists of separators only. *)
Definition dirname (p : string) : string :=
  let head := (split_last_sep p).1 in
  if bool_decide (rstrip_sep head = "") then head else rstrip_sep head.

(** [(p[:i], p[i:])] for [i = p.rfind('.')], when there is a dot *)
Fixpoint split_last_dot (s : string) : option (string * string) :=
  match s with
  | "" => None
  | String c s' =>
      match split_last_dot s' with
      | Some (r, e) => Some (String c r, e)
      | None => if bool_decide (c = "."%char) then Some ("", s) else None
      end
  end.

Fixpoint all_dots (s : string) : bool :=
  match s with
  | "" => true
  | String c s' => bool_decide (c = "."%char) && all_dots s'
  end.

(** [os.path.splitext]: the extension starts at the last dot of the last
    component, leading dots of that component do not count. *)
Definition splitext (p : string) : string * string :=
  let '(head, tail) := split_last_sep p in
  match split_last_dot tail with
  | Some (r, e) => if all_dots r then (p, "") else (head +:+ r, e)
  | None => (p, "")
  end.

(** [os.path.join(a, b)] *)
Definition join (a b : string) : string :=
  if PyStr.startswith b "/" then b
  else if bool_decide (a = "") || PyStr.endswith a "/" then a +:+ b
  else a +:+ "/" +:+ b.

(** The prefix that [join a] puts in front of a relative name. *)
Definition dirprefix (a : string) : string :=
  if bool_decide (a = "") || PyStr.endswith a "/" then a else a +:+ "/".

(** [strip_prefix pre s = Some t] when [s = pre ++ t]. *)
Fixpoint strip_prefix (pre s : string) {struct pre} : option string :=
  match pre, s with
  | "", _ => Some s
  | String a pre', String b s' =>
      if bool_decide (a = b) then strip_prefix pre' s' else None
  | String _ _, "" => None
  end.

(** A name of one component: what a directory listing returns. *)
Definition simple_name (n : string) : bool :=
  negb (bool_decide (n = "")) && negb (has_sep n).

End Path.

(** ** The file system *)

Inductive node : Type :=
  | File (content : string)
  | Dir.

Inductive exn : Type :=
  | FileNotFoundError
  | FileExistsError
  | IsADirectoryError
  | NotADirectoryError
  | SameFileError
  | PermissionError
  | UnicodeDecodeError
  | ValueError
  | CalledProcessError (stderr : string).

Inductive outcome (A : Type) : Type :=
  | Ret (a : A)
  | Raise (e : exn).
Arguments Ret {A} a.
Arguments Raise {A} e.

Module FS.

(** [os.path.exists], [os.path.isfile], [os.path.isdir] *)
Definition exists_ (st : gmap string node) (p : string) : bool :=
  match st !! p with Some _ => true | None => false end.
Definition isfile (st : gmap string node) (p : string) : bool :=
  match st !! p with Some (File _) => true | _ => false end.
Definition isdir (st : gmap string node) (p : string) : bool :=
  match st !! p with Some Dir => true | _ => false end.

(** A file can be created at [p] when the directory part of [p] is a
    directory; an empty directory part is the working directory. *)
Definition parent_ok (st : gmap string node) (p : string) : bool :=
  bool_decide (Path.dirname p = "") || isdir st (Path.dirname p).

(** The names directly inside directory [d], in the order of the map. *)
Definition child_name (d k : string) : option string :=
  match Path.strip_prefix (Path.dirprefix d) k with
  | Some n => if Path.simple_name n then Some n else None
  | None => None
  end.
Definition children (st : gmap string node) (d : string) : list string :=
  omap (child_name d) (map_to_list st).*1.

(** [open(p, 'w')] followed by a write of [c] *)
Definition write_file (st : gmap string node) (p c : string)
  : outcome (gmap string node) :=
  if isdir st p then Raise IsADirectoryError
  else if parent_ok st p then Ret (<[p := File c]> st)
  else Raise FileNotFoundError.

(** [open(p, 'r')] followed by a read of the bytes *)
Definition read_file (st : gmap string node) (p : string) : outcome string :=
  match st !! p with
  | Some (File c) => Ret c
  | Some Dir => Raise IsADirectoryError
  | None => Raise FileNotFoundError
  end.

(** [os.remove]; [allowed] tells the paths the operating system lets the
    process unlink, the others raise [PermissionError]. *)
Definition remove (allowed : string → bool) (st : gmap string node)
    (p : string) : outcome (gmap string node) :=
  match st !! p with
  | Some (File _) =>
      if allowed p then Ret (delete p st) else Raise PermissionError
  | Some Dir => Raise IsADirectoryError
  | None => Raise FileNotFoundError
  end.

(** [p] is [d] or lies below [d]. *)
Definition under (d p : string) : bool :=
  bool_decide (p = d) || PyStr.startswith p (Path.dirprefix d).

(** [shutil.rmtree]: the tree goes as a whole; an entry of it that may
    not be unlinked makes the call raise. *)
Definition rmtree (allowed : string → bool) (st : gmap string node)
    (d : string) : outcome (gmap string node) :=
  match st !! d with
  | Some Dir =>
      if forallb (λ k, negb (under d k) || allowed k) (map_to_list st).*1
      then Ret (filter (λ kv, under d kv.1 = false) st)
      else Raise PermissionError
  | Some (File _) => Raise NotADirectoryError
  | None => Raise FileNotFoundError
  end.

(** The proper ancestors of [p]: the prefixes of [p] that end before a
    separator. *)
Fixpoint ancestors_from (acc p : string) : list string :=
  match p with
  | "" => []
  | String c p' =>
      (if bool_decide (c = Path.sep) && negb (bool_decide (acc = ""))
       then [acc] else [])
      ++ ancestors_from (acc +:+ String c "") p'
  end.
Definition ancestors (p : string) : list string := ancestors_from "" p.

(** [os.makedirs(p, exist_ok=True)] *)
Definition makedirs (st : gmap string node) (p : string)
  : outcome (gmap string node) :=
  if isdir st p then Ret st
  else if isfile st p then Raise FileExistsError
  else if existsb (isfile st) (ancestors p) then Raise NotADirectoryError
  else Ret (foldr (λ d m, <[d := Dir]> m) st (p :: ancestors p)).

(** [shutil.copy2(src, dst)]: a directory as destination receives the file
    under the source's base name; copying a file onto itself is refused. *)
Definition copy2 (st : gmap string node) (src dst : string)
  : outcome (gmap string node) :=
  match st !! src with
  | None => Raise FileNotFoundError
  | Some Dir => Raise IsADirectoryError
  | Some (File c) =>
      let dst' := if isdir st dst then Path.join dst (Path.basename src)
                  else dst in
      if bool_decide (src = dst') then Raise SameFileError
      else if isdir st dst' then Raise IsADirectoryError
      else if parent_ok st dst' then Ret (<[dst' := File c]> st)
      else Raise FileNotFoundError
  end.

(** [os.path.getsize]: bytes of a file; a directory reports its block. *)
Definition getsize (st : gmap string node) (p : string) : outcome nat :=
  match st !! p with
  | Some (File c) => Ret (String.length c)
  | Some Dir => Ret 4096
  | None => Raise FileNotFoundError
  end.

End FS.

(** ** The world and the monad of the script *)

Inductive level : Type := INFO | WARNING | ERROR.

(** One constructor per [logging] call of the script, carrying the values
    the message is formatted from. *)
Inductive msg : Type :=
  | AudioCopied (destination : string)
  | AudioNotFound (base_name : string)
  | SrtCopied (destination : string)
  | SrtNotFound (base_name : string)
  | MergeInputsMissing (folder_path : string)
  | RunningFfmpeg (cmd : list string)
  | FfmpegOutput (stdout : string)
  | MergeSucceeded (output_file : string)
  | VideoDeleted (video : string)
  | VideoDeleteFailed (video : string) (e : exn)
  | MergeOutputMissing (output_file : string)
  | FfmpegFailed (e : exn)
  | FfmpegStderr (stderr : string)
  | Searching (i : nat) (term : string)
  | MetadataSaved (j : nat) (metadata_path : string)
  | VideoCopied (destination_path : string)
  | VideoMissing (source_path : string)
  | MetadataDeleted (metadata_path : string)
  | NoVideoFor (term : string)
  | TempFolderDeleted (temp_metadata_folder : string)
  | MergedVideo (merged_video : string)
  | MergeFailedKept
  | ProcessingSingle (input_path : string)
  | ProcessingFile (file_path : string)
  | InvalidInput (input_path : string).

Record world : Type := World {
  files : gmap string node;
  logs : list (level * msg);
  procs : list (list string)
}.

Definition set_files (st : gmap string node) (w : world) : world :=
  World st (logs w) (procs w).
Definition add_log (r : level * msg) (w : world) : world :=
  World (files w) (logs w ++ [r]) (procs w).
Definition add_proc (cmd : list string) (w : world) : world :=
  World (files w) (logs w) (procs w ++ [cmd]).

Definition M (A : Type) : Type := world → outcome A * world.

Definition ret {A} (a : A) : M A := λ w, (Ret a, w).
Definition raise {A} (e : exn) : M A := λ w, (Raise e, w).
Definition bind {A B} (m : M A) (k : A → M B) : M B :=
  λ w, match m w with
       | (Ret a, w') => k a w'
       | (Raise e, w') => (Raise e, w')
       end.

Declare Scope py_scope.
Delimit Scope py_scope with py.
Notation "x <- c1 ;; c2" := (bind c1 (λ x, c2))
  (at level 100, c1 at next level, right associativity) : py_scope.
Notation "c1 ;; c2" := (bind c1 (λ _, c2))
  (at level 100, right associativity) : py_scope.
Open Scope py_scope.

(** [try: body except E as e: handler e], for the exceptions [catches]
    selects. *)
Definition try_except {A} (body : M A) (catches : exn → bool)
    (handler : exn → M A) : M A :=
  λ w, match body w with
       | (Raise e, w') => if catches e then handler e w' else (Raise e, w')
       | r => r
       end.

(** [for x in l: body x], with the loop's local state threaded through *)
Fixpoint for_each {A S} (l : list A) (body : S → A → M S) (s : S) : M S :=
  match l with
  | [] => ret s
  | x :: l' => s' <- body s x ;; for_each l' body s'
  end.

Definition logging (lv : level) (m : msg) : M unit :=
  λ w, (Ret tt, add_log (lv, m) w).

(** Lifting of the file-system operations. *)
Definition fs_update (f : gmap string node → outcome (gmap string node))
  : M unit :=
  λ w, match f (files w) with
       | Ret st => (Ret tt, set_files st w)
       | Raise e => (Raise e, w)
       end.
Definition fs_query {A} (f : gmap string node → outcome A) : M A :=
  λ w, (f (files w), w).
Definition fs_test (f : gmap string node → bool) : M bool :=
  λ w, (Ret (f (files w)), w).

(** ** The collaborators of the script *)

(** One entry of the ranked list [search_video_by_text] returns. *)
Record candidate : Type := Candidate {
  path : string;
  start_time : string;
  end_time : string;
  score : float
}.

(** The dictionary [metadata] of [process_single_file]. *)
Record metadata_t : Type := Metadata {
  md_search_term : string;
  md_video_path : string;
  md_start_time : string;
  md_end_time : string;
  md_score : float
}.

(** What [subprocess.run] observes of a child process. *)
Inductive proc_result : Type :=
  | Exited (success : bool) (stdout stderr : string)
  | NotStarted.

(** Everything the script imports or calls and does not define: the
    retrieval engine and its thresholds ([search], [config]), the order in
    which [os.listdir] enumerates a directory, text decoding and JSON
    encoding, the two external programs, the conversions between
    floating-point numbers and text, and the paths the operating system
    lets the process unlink. *)
Record collaborators : Type := Collaborators {
  listing : gmap string node → string → list string;
  search_video_by_text : string → string → float → float → list candidate;
  POSITIVE_THRESHOLD : float;
  NEGATIVE_THRESHOLD : float;
  json_dump : metadata_t → string;
  decode_utf8 : string → option string;
  splitlines : string → list string;
  ffprobe : list string → gmap string node → proc_result;
  ffmpeg : list string → gmap string node → proc_result * gmap string node;
  float_of_str : string → option float;
  str_of_float : float → string;
  removable : string → bool
}.

Section Script.

Variable E : collaborators.

(** [os.listdir] *)
Definition listdir (d : string) : M (list string) :=
  λ w, match files w !! d with
       | Some Dir => (Ret (listing E (files w) d), w)
       | Some (File _) => (Raise NotADirectoryError, w)
       | None => (Raise FileNotFoundError, w)
       end.

(** [open(p, 'r', encoding='utf-8').read()] *)
Definition read_text (p : string) : M string :=
  bytes <- fs_query (λ st, FS.read_file st p) ;;
  match decode_utf8 E bytes with
  | Some text => ret text
  | None => raise UnicodeDecodeError
  end.

(** [subprocess.run(cmd, stdout=PIPE, stderr=PIPE, text=True).stdout] for
    the probe, which reads the file system and leaves it as it is. *)
Definition run_ffprobe (cmd : list string) : M string :=
  λ w, match ffprobe E cmd (files w) with
       | Exited _ out _ => (Ret out, add_proc cmd w)
       | NotStarted => (Raise FileNotFoundError, w)
       end.

(** [subprocess.run(cmd, check=True, capture_output=True, ...).stdout] for
    the encoder: a non-zero exit status raises [CalledProcessError]. *)
Definition run_ffmpeg (cmd : list string) : M string :=
  λ w, match ffmpeg E cmd (files w) with
       | (Exited true out _, st) => (Ret out, add_proc cmd (set_files st w))
       | (Exited false _ err, st) =>
           (Raise (CalledProcessError err), add_proc cmd (set_files st w))
       | (NotStarted, _) => (Raise FileNotFoundError, w)
       end.

(** ** [copy_audio_and_srt_files] (lines 32-54) *)

(** The [for ext in ...: ... break / else: ...] loop over the extensions. *)
Fixpoint copy_audio (input_dir base_name output_folder : string)
    (exts : list string) : M unit :=
  match exts with
  | [] => logging WARNING (AudioNotFound base_name)
  | ext :: exts' =>
      let audio_file := Path.join input_dir (base_name +:+ ext) in
      found <- fs_test (λ st, FS.exists_ st audio_file) ;;
      if found then
        let destination :=
          Path.join output_folder (Path.basename audio_file) in
        fs_update (λ st, FS.copy2 st audio_file destination) ;;
        logging INFO (AudioCopied destination)
      else copy_audio input_dir base_name output_folder exts'
  end.

Definition audio_exts : list string := [".mp3"; ".MP3"; ".wav"; ".WAV"].

Definition copy_audio_and_srt_files (input_file output_folder : string)
  : M unit :=
  let base_name := (Path.splitext (Path.basename input_file)).1 in
  let input_dir := Path.dirname input_file in
  copy_audio input_dir base_name output_folder audio_exts ;;
  let srt_file := Path.join input_dir (base_name +:+ ".srt") in
  found <- fs_test (λ st, FS.exists_ st srt_file) ;;
  if found then
    let destination := Path.join output_folder (Path.basename srt_file) in
    fs_update (λ st, FS.copy2 st srt_file destination) ;;
    logging INFO (SrtCopied destination)
  else logging WARNING (SrtNotFound base_name).

(** ** [merge_videos_with_srt] (lines 60-129) *)

(** One iteration of the scan of lines 66-72 over the listing. *)
Definition scan_step (folder_path : string)
    (acc : option string * list string * option string) (file : string)
  : option string * list string * option string :=
  let '(srt_file, videos, audio_file) := acc in
  if PyStr.endswith file ".srt" then
    (Some (Path.join folder_path file), videos, audio_file)
  else if PyStr.endswith file ".mp4" then
    (srt_file, videos ++ [Path.join folder_path file], audio_file)
  else if PyStr.endswith file ".mp3" || PyStr.endswith file ".wav" then
    (srt_file, videos, Some (Path.join folder_path file))
  else acc.

Definition scan_folder (folder_path : string) (names : list string)
  : option string * list string * option string :=
  fold_left (scan_step folder_path) names (None, [], None).

(** The entries of [filter_complex] (lines 85-96). *)
Definition setpts_filter (i : nat) : string :=
  "[" +:+ PyStr.str i +:+ ":v]setpts=PTS-STARTPTS[v" +:+ PyStr.str i +:+ "]".
Definition video_label (i : nat) : string := "[v" +:+ PyStr.str i +:+ "]".
Definition concat_video_filter (n : nat) : string :=
  PyStr.concat (video_label <$> seq 0 n)
  +:+ "concat=n=" +:+ PyStr.str n +:+ ":v=1:a=0[outv]".
Definition concat_audio_filter (n : nat) : string :=
  "[outv][" +:+ PyStr.str n +:+ ":a]concat=n=1:v=1:a=1[outv][outa]".

Definition filter_complex (videos : list string) : list string :=
  (setpts_filter <$> seq 0 (length videos))
  ++ [concat_video_filter (length videos)]
  ++ [concat_audio_filter (length videos)].

Definition pad : float := 0.3%float.

Definition ffprobe_command (audio_file : string) : list string :=
  ["ffprobe"; "-v"; "error"; "-show_entries"; "format=duration"; "-of";
   "default=noprint_wrappers=1:nokey=1"; audio_file].

Definition ffmpeg_command (videos : list string) (audio_file : string)
    (total_duration : float) (output_file : string) : list string :=
  ["ffmpeg"; "-y"]
  ++ flat_map (λ video, ["-i"; video]) videos
  ++ ["-i"; audio_file]
  ++ ["-filter_complex"; PyStr.join ";" (filter_complex videos)]
  ++ ["-map"; "[outv]"; "-map"; "[outa]"]
  ++ ["-t"; str_of_float E total_duration]
  ++ [output_file].

Definition output_path (folder_path : string) : string :=
  Path.join folder_path (Path.basename folder_path +:+ "_merged.mp4").

(** Lines 116-121: every listed segment is removed, a failing removal is
    logged and the loop goes on. *)
Definition delete_videos (videos : list string) : M unit :=
  for_each videos
    (λ _ video,
       try_except
         (fs_update (λ st, FS.remove (removable E) st video) ;;
          logging INFO (VideoDeleted video))
         (λ _, true)
         (λ e, logging ERROR (VideoDeleteFailed video e)))
    tt.

Definition is_called_process_error (e : exn) : bool :=
  match e with CalledProcessError _ => true | _ => false end.

(** Lines 110-129: the encoder run, the check of the output and the
    clean-up. *)
Definition encode_and_clean (cmd videos : list string) (output_file : string)
  : M (option string) :=
  try_except
    (stdout <- run_ffmpeg cmd ;;
     logging INFO (FfmpegOutput stdout) ;;
     present <- fs_test (λ st, FS.exists_ st output_file) ;;
     good <- (if present then
                size <- fs_query (λ st, FS.getsize st output_file) ;;
                ret (bool_decide (0 < size))
              else ret false) ;;
     if good then
       logging INFO (MergeSucceeded output_file) ;;
       delete_videos videos ;;
       ret (Some output_file)
     else
       logging ERROR (MergeOutputMissing output_file) ;;
       ret None)
    is_called_process_error
    (λ e, logging ERROR (FfmpegFailed e) ;;
          logging ERROR
            (FfmpegStderr match e with CalledProcessError s => s | _ => "" end) ;;
          ret None).

Definition merge_videos_with_srt (folder_path : string) : M (option string) :=
  names <- listdir folder_path ;;
  match scan_folder folder_path names with
  | (Some srt_file, (_ :: _) as videos, Some audio_file) =>
      srt_content <- read_text srt_file ;;
      let output_file := output_path folder_path in
      stdout <- run_ffprobe (ffprobe_command audio_file) ;;
      match float_of_str E stdout with
      | None => raise ValueError
      | Some audio_duration =>
          let total_duration := (audio_duration + pad)%float in
          let cmd :=
            ffmpeg_command videos audio_file total_duration output_file in
          logging INFO (RunningFfmpeg cmd) ;;
          encode_and_clean cmd videos output_file
      end
  | _ =>
      logging ERROR (MergeInputsMissing folder_path) ;;
      ret None
  end.

(** ** [process_single_file] (lines 131-195) *)

Definition metadata_filename (i j : nat) (term : string) : string :=
  PyStr.str i +:+ "_" +:+ PyStr.str j +:+ "_"
  +:+ PyStr.replace " " "_" term +:+ "_metadata.json".

Definition video_filename (i : nat) (term : string) : string :=
  PyStr.str i +:+ "_" +:+ PyStr.replace " " "_" term +:+ ".mp4".

(** Lines 149-177: the body of the loop over the selected candidates of
    term number [i]; the loop state is [copied_videos]. *)
Definition stage_candidate (temp_metadata_folder video_output_folder : string)
    (i : nat) (term : string) (copied_videos : list string)
    (jr : nat * candidate) : M (list string) :=
  let '(j, result) := jr in
  let metadata :=
    Metadata term (path result) (start_time result) (end_time result)
             (score result) in
  let metadata_path :=
    Path.join temp_metadata_folder (metadata_filename i j term) in
  fs_update (λ st, FS.write_file st metadata_path (json_dump E metadata)) ;;
  logging INFO (MetadataSaved j metadata_path) ;;
  let source_path := md_video_path metadata in
  found <- fs_test (λ st, FS.exists_ st source_path) ;;
  copied_videos' <-
    (if found then
       let destination_path :=
         Path.join video_output_folder (video_filename i term) in
       fs_update (λ st, FS.copy2 st source_path destination_path) ;;
       logging INFO (VideoCopied destination_path) ;;
       ret (copied_videos ++ [destination_path])
     else
       logging ERROR (VideoMissing source_path) ;;
       ret copied_videos) ;;
  fs_update (λ st, FS.remove (removable E) st metadata_path) ;;
  logging INFO (MetadataDeleted metadata_path) ;;
  ret copied_videos'.

(** Lines 143-179: the body of the loop over the search terms. *)
Definition process_term (temp_metadata_folder video_output_folder : string)
    (top_n : Z) (copied_videos : list string) (it : nat * string)
  : M (list string) :=
  let '(i, term) := it in
  logging INFO (Searching i term) ;;
  let results :=
    search_video_by_text E term "" (POSITIVE_THRESHOLD E)
                         (NEGATIVE_THRESHOLD E) in
  match results with
  | _ :: _ =>
      for_each (PyStr.enumerate 1 (PyStr.slice_to results top_n))
        (stage_candidate temp_metadata_folder video_output_folder i term)
        copied_videos
  | [] =>
      logging WARNING (NoVideoFor term) ;;
      ret copied_videos
  end.

(** Lines 142-179: the loop over the numbered search terms, from an empty
    [copied_videos]. *)
Definition stage_terms (temp_metadata_folder video_output_folder : string)
    (top_n : Z) (search_terms : list string) : M (list string) :=
  for_each (PyStr.enumerate 1 search_terms)
    (process_term temp_metadata_folder video_output_folder top_n) [].

(** Lines 132-186: selection and staging, up to the removal of the
    metadata folder. *)
Definition select_and_stage (input_file output_folder : string) (top_n : Z)
  : M (list string) :=
  let base_name := (Path.splitext (Path.basename input_file)).1 in
  let temp_metadata_folder := Path.join output_folder (base_name +:+ "_temp") in
  let video_output_folder := Path.join output_folder base_name in
  fs_update (λ st, FS.makedirs st temp_metadata_folder) ;;
  fs_update (λ st, FS.makedirs st video_output_folder) ;;
  text <- read_text input_file ;;
  let search_terms := splitlines E text in
  copied_videos <-
    stage_terms temp_metadata_folder video_output_folder top_n search_terms ;;
  copy_audio_and_srt_files input_file video_output_folder ;;
  fs_update (λ st, FS.rmtree (removable E) st temp_metadata_folder) ;;
  logging INFO (TempFolderDeleted temp_metadata_folder) ;;
  ret copied_videos.

Definition process_single_file (input_file output_folder : string) (top_n : Z)
  : M (list string) :=
  let base_name := (Path.splitext (Path.basename input_file)).1 in
  let video_output_folder := Path.join output_folder base_name in
  copied_videos <- select_and_stage input_file output_folder top_n ;;
  merged_video <- merge_videos_with_srt video_output_folder ;;
  match merged_video with
  | Some merged => logging INFO (MergedVideo merged)
  | None => logging ERROR MergeFailedKept
  end ;;
  ret copied_videos.

(** ** [process_input] (lines 197-212) *)

(** Lines 204-209: the body of the loop over the directory listing; the
    loop state is [total_copied_videos]. *)
Definition process_listed (input_path output_folder : string) (top_n : Z)
    (total_copied_videos : nat) (filename : string) : M nat :=
  if PyStr.endswith filename ".txt" then
    let file_path := Path.join input_path filename in
    logging INFO (ProcessingFile file_path) ;;
    copied_videos <- process_single_file file_path output_folder top_n ;;
    ret (total_copied_videos + length copied_videos)
  else ret total_copied_videos.

Definition process_input (input_path output_folder : string) (top_n : Z)
  : M nat :=
  is_file <- fs_test (λ st, FS.isfile st input_path) ;;
  if is_file && PyStr.endswith input_path ".txt" then
    logging INFO (ProcessingSingle input_path) ;;
    copied_videos <- process_single_file input_path output_folder top_n ;;
    ret (0 + length copied_videos)
  else
    is_dir <- fs_test (λ st, FS.isdir st input_path) ;;
    if is_dir then
      names <- listdir input_path ;;
      for_each names (process_listed input_path output_folder top_n) 0
    else
      logging ERROR (InvalidInput input_path) ;;
      ret 0.

End Script.

(** ** What is assumed of the collaborators *)

(** [os.listdir] returns the names directly inside the directory, each
    once, in an order of its own. *)
Definition listing_ok (E : collaborators) : Prop :=
  ∀ st d, listing E st d ≡ₚ FS.children st d.

(** [x] is given to the encoder as an input: it follows a [-i]. *)
Fixpoint is_input (cmd : list string) (x : string) : bool :=
  match cmd with
  | a :: rest =>
      match rest with
      | b :: _ => bool_decide (a = "-i") && bool_decide (b = x)
      | [] => false
      end || is_input rest x
  | [] => false
  end.

(** The encoder's output path is its last argument. *)
Definition cmd_output (cmd : list string) : string := List.last cmd "".

(** The encoder leaves every path as it is, except that it may write a
    regular file at its output path. *)
Definition encoder_frame (E : collaborators) : Prop :=
  ∀ cmd st p,
    (ffmpeg E cmd st).2 !! p = st !! p ∨
    (p = cmd_output cmd ∧ ∃ c, (ffmpeg E cmd st).2 !! p = Some (File c)).

(** The encoder does not edit a file in place: when its output path is
    one of its inputs it exits with an error and writes nothing. *)
Definition encoder_not_in_place (E : collaborators) : Prop :=
  ∀ cmd st,
    is_input cmd (cmd_output cmd) = true →
    ∃ out err, ffmpeg E cmd st = (Exited false out err, st).

(** ** The names the scan of [merge_videos_with_srt] tells apart *)

Definition is_srt (file : string) : bool := PyStr.endswith file ".srt".
Definition is_video (file : string) : bool := PyStr.endswith file ".mp4".
Definition is_audio (file : string) : bool :=
  PyStr.endswith file ".mp3" || PyStr.endswith file ".wav".

(** The video segments of a job folder, as paths, in listing order. *)
Definition segments (E : collaborators) (st : gmap string node)
    (folder_path : string) : list string :=
  Path.join folder_path <$> filter (λ n, is_video n = true) (listing E st folder_path).

(** The last element of [l], or [o] when [l] is empty: what repeated
    assignment in a loop leaves in a variable. *)
Definition pick {A} (o : option A) (l : list A) : option A :=
  match last l with Some x => Some x | None => o end.


(** ** The outcomes of [merge_videos_with_srt] *)

(** The test of line 113, on the file system the encoder leaves. *)
Definition output_good (st : gmap string node) (output_file : string) : bool :=
  match st !! output_file with
  | Some (File c) => bool_decide (0 < String.length c)
  | Some Dir => true
  | None => false
  end.

(** What a merge settles before it runs the encoder: the subtitle file,
    the segments and the audio file of the scan, and the duration [D] the
    probe reports for the audio file. *)
Record merge_plan : Type := MergePlan {
  plan_srt : string;
  plan_videos : list string;
  plan_audio : string;
  plan_duration : float
}.

Definition plan_command (E : collaborators) (folder_path : string)
    (pl : merge_plan) : list string :=
  ffmpeg_command E (plan_videos pl) (plan_audio pl)
    (plan_duration pl + pad)%float (output_path folder_path).

Definition planned (E : collaborators) (folder_path : string) (w : world)
    (pl : merge_plan) : Prop :=
  files w !! folder_path = Some Dir ∧
  scan_folder folder_path (listing E (files w) folder_path)
    = (Some (plan_srt pl), plan_videos pl, Some (plan_audio pl)) ∧
  plan_videos pl ≠ [] ∧
  ∃ ok stdout stderr,
    ffprobe E (ffprobe_command (plan_audio pl)) (files w)
      = Exited ok stdout stderr ∧
    float_of_str E stdout = Some (plan_duration pl).

(** Every way a call of [merge_videos_with_srt] on [folder_path] from
    world [w] can end, with the result and the world it ends in. *)
Inductive merge_result (E : collaborators) (folder_path : string) (w : world)
  : outcome (option string) → world → Prop :=
  | merge_no_folder e :
      files w !! folder_path ≠ Some Dir →
      merge_result E folder_path w (Raise e) w
  | merge_inputs_missing srt_file videos audio_file :
      files w !! folder_path = Some Dir →
      scan_folder folder_path (listing E (files w) folder_path)
        = (srt_file, videos, audio_file) →
      srt_file = None ∨ videos = [] ∨ audio_file = None →
      merge_result E folder_path w (Ret None)
        (add_log (ERROR, MergeInputsMissing folder_path) w)
  | merge_not_probed e :
      merge_result E folder_path w (Raise e) w
  | merge_duration_unparsed audio_file :
      merge_result E folder_path w (Raise ValueError)
        (add_proc (ffprobe_command audio_file) w)
  | merge_encoder_not_started pl w' :
      planned E folder_path w pl →
      files w' = files w →
      procs w' = procs w ++ [ffprobe_command (plan_audio pl)] →
      merge_result E folder_path w (Raise FileNotFoundError) w'
  | merge_encoder_failed pl stdout stderr st w' :
      planned E folder_path w pl →
      ffmpeg E (plan_command E folder_path pl) (files w)
        = (Exited false stdout stderr, st) →
      files w' = st →
      procs w' = procs w ++ [ffprobe_command (plan_audio pl);
                             plan_command E folder_path pl] →
      merge_result E folder_path w (Ret None) w'
  | merge_output_bad pl stdout stderr st w' :
      planned E folder_path w pl →
      ffmpeg E (plan_command E folder_path pl) (files w)
        = (Exited true stdout stderr, st) →
      output_good st (output_path folder_path) = false →
      files w' = st →
      procs w' = procs w ++ [ffprobe_command (plan_audio pl);
                             plan_command E folder_path pl] →
      merge_result E folder_path w (Ret None) w'
  | merge_success pl stdout stderr st w' :
      planned E folder_path w pl →
      ffmpeg E (plan_command E folder_path pl) (files w)
        = (Exited true stdout stderr, st) →
      output_good st (output_path folder_path) = true →
      (∀ p, files w' !! p = st !! p ∨
            (p ∈ plan_videos pl ∧ removable E p = true ∧
             files w' !! p = None)) →
      (∀ p, p ∈ plan_videos pl →
            FS.isfile (files w') p = false ∨
            (removable E p = false ∧
             (ERROR, VideoDeleteFailed p PermissionError) ∈ logs w')) →
      procs w' = procs w ++ [ffprobe_command (plan_audio pl);
                             plan_command E folder_path pl] →
      merge_result E folder_path w (Ret (Some (output_path folder_path))) w'.

(** The names of a listing that are of a kind. *)
Definition lists (names : list string) (kind : string → bool) : Prop :=
  ∃ n, n ∈ names ∧ kind n = true.

(** ** The filter graph as the specification words it *)

(** The three kinds of node of the graph: a video input whose presentation
    timestamps are reset to start at zero, the concatenation of the reset
    video streams in order into one video stream, and the second concat
    stage that appends the audio input and yields one video and one audio
    stream. Inputs are named by their position among the encoder's
    inputs. *)
Inductive filter_node : Type :=
  | ResetTimestamps (video_input : nat)
  | ConcatVideo (video_inputs : list nat)
  | ConcatAudio (audio_input : nat).

(** The graph for [n] video inputs followed by the audio input. *)
Definition graph_spec (n : nat) : list filter_node :=
  (ResetTimestamps <$> seq 0 n) ++ [ConcatVideo (seq 0 n); ConcatAudio n].

(** The encoder's syntax for a node. *)
Definition render (f : filter_node) : string :=
  match f with
  | ResetTimestamps i =>
      "[" +:+ PyStr.str i +:+ ":v]setpts=PTS-STARTPTS[v" +:+ PyStr.str i +:+ "]"
  | ConcatVideo inputs =>
      PyStr.concat ((λ i, "[v" +:+ PyStr.str i +:+ "]") <$> inputs)
      +:+ "concat=n=" +:+ PyStr.str (length inputs) +:+ ":v=1:a=0[outv]"
  | ConcatAudio a =>
      "[outv][" +:+ PyStr.str a +:+ ":a]concat=n=1:v=1:a=1[outv][outa]"
  end.

(** The probe reports duration [D] for [audio_file]. *)
Definition probe_reports (E : collaborators) (st : gmap string node)
    (audio_file : string) (D : float) : Prop :=
  ∃ ok stdout stderr,
    ffprobe E (ffprobe_command audio_file) st = Exited ok stdout stderr ∧
    float_of_str E stdout = Some D.

(** ** Staging *)

(** The destinations of the copies a stretch of the log reports. *)
Definition logged_copies (l : list (level * msg)) : list string :=
  omap (λ r, match r.2 with VideoCopied d => Some d | _ => None end) l.

Definition metadata_path (temp_metadata_folder : string) (i j : nat)
    (term : string) : string :=
  Path.join temp_metadata_folder (metadata_filename i j term).

Definition destination_path (video_output_folder : string) (i : nat)
    (term : string) : string :=
  Path.join video_output_folder (video_filename i term).

(** The list of copies when the term at position [n] of [its] had [ks !! n]
    copies made: so many times the destination of the term, term after
    term. *)
Definition copies_per_term (video_output_folder : string) (ks : list nat)
    (its : list (nat * string)) : list string :=
  concat (zip_with
            (λ k it, replicate k (destination_path video_output_folder it.1 it.2))
            ks its).

(** The paths staging the candidates of term number [i] may leave changed:
    the destination of the term, or, when that is a directory, an entry
    directly below it, named by one path component. *)
Definition term_footprint (video_output_folder : string) (i : nat)
    (term : string) (p : string) : Prop :=
  p = destination_path video_output_folder i term ∨
  ∃ b, Path.has_sep b = false ∧
       p = Path.join (destination_path video_output_folder i term) b.

(** The situation in which every candidate of [cands] for term number [i]
    is staged: the destination of the term is not a directory and its
    folder exists; for every candidate the folder of its metadata record
    exists, the record's path is not a directory and may be unlinked, and
    the source is a regular file that is neither the destination nor the
    record of a candidate. *)
Definition can_stage (E : collaborators)
    (temp_metadata_folder video_output_folder : string) (i : nat)
    (term : string) (st : gmap string node) (cands : list (nat * candidate))
  : bool :=
  let dst := destination_path video_output_folder i term in
  negb (FS.isdir st dst) && FS.parent_ok st dst &&
  forallb
    (λ jr,
       let mp := metadata_path temp_metadata_folder i jr.1 term in
       FS.parent_ok st mp && negb (FS.isdir st mp) && removable E mp &&
       FS.isfile st (path jr.2) && negb (bool_decide (path jr.2 = dst)) &&
       forallb
         (λ jr', negb (bool_decide
                         (path jr.2
                          = metadata_path temp_metadata_folder i jr'.1 term)))
         cands)
    cands.

(** The file system while the candidates [cands] of a term are staged
    from [st0]: apart from the destination and the metadata records it is
    [st0]; a record is absent or as in [st0]; the destination is as in
    [st0] or holds a file. *)
Definition staging_state (temp_metadata_folder video_output_folder : string)
    (i : nat) (term : string) (cands : list (nat * candidate))
    (st0 st : gmap string node) : Prop :=
  let dst := destination_path video_output_folder i term in
  (∀ p, p ≠ dst →
        (∀ jr, jr ∈ cands → p ≠ metadata_path temp_metadata_folder i jr.1 term) →
        st !! p = st0 !! p) ∧
  (∀ jr, jr ∈ cands →
         st !! metadata_path temp_metadata_folder i jr.1 term = None ∨
         st !! metadata_path temp_metadata_folder i jr.1 term
         = st0 !! metadata_path temp_metadata_folder i jr.1 term) ∧
  (st !! dst = st0 !! dst ∨ ∃ c, st !! dst = Some (File c)).

(** What a completed stretch of staging leaves, for the destinations
    [dsts] and the footprint [fp] it may touch. *)
Definition staged (dsts fp : string → Prop) (copied : list string) (w : world)
    (copied' : list string) (w' : world) : Prop :=
  procs w' = procs w ∧
  (∃ l, logs w' = logs w ++ l ∧ copied' = copied ++ logged_copies l ∧
        ∀ d, d ∈ logged_copies l → dsts d) ∧
  (∀ p, files w' !! p = files w !! p ∨ files w' !! p = None ∨ fp p).


(** The candidates the loop of line 148 goes through for a term, with
    their ranks. *)
Definition term_selected (E : collaborators) (top_n : Z) (term : string)
  : list (nat * candidate) :=
  PyStr.enumerate 1
    (PyStr.slice_to
       (search_video_by_text E term "" (POSITIVE_THRESHOLD E)
          (NEGATIVE_THRESHOLD E)) top_n).

(** The situation in which every selected candidate of every numbered
    term of [its] is staged: each term is in the situation of [can_stage],
    and no source is the destination of a term or the metadata record of
    a candidate. *)
Definition can_stage_all (E : collaborators)
    (temp_metadata_folder video_output_folder : string) (top_n : Z)
    (st : gmap string node) (its : list (nat * string)) : bool :=
  forallb
    (λ it,
       can_stage E temp_metadata_folder video_output_folder it.1 it.2 st
         (term_selected E top_n it.2) &&
       forallb
         (λ jr,
            forallb
              (λ it',
                 negb (bool_decide
                         (path jr.2
                          = destination_path video_output_folder it'.1 it'.2)) &&
                 forallb
                   (λ jr', negb (bool_decide
                                   (path jr.2
                                    = metadata_path temp_metadata_folder
                                        it'.1 jr'.1 it'.2)))
                   (term_selected E top_n it'.2))
              its)
         (term_selected E top_n it.2))
    its.

(** The file system while the terms [its] of a script are staged from
    [st0]: apart from the destinations and the metadata records it is
    [st0]; a record is absent or as in [st0]; a destination is as in
    [st0] or holds a file. *)
Definition job_state (E : collaborators)
    (temp_metadata_folder video_output_folder : string) (top_n : Z)
    (its : list (nat * string)) (st0 st : gmap string node) : Prop :=
  (∀ p,
     (∀ it, it ∈ its → p ≠ destination_path video_output_folder it.1 it.2) →
     (∀ it jr, it ∈ its → jr ∈ term_selected E top_n it.2 →
               p ≠ metadata_path temp_metadata_folder it.1 jr.1 it.2) →
     st !! p = st0 !! p) ∧
  (∀ it jr, it ∈ its → jr ∈ term_selected E top_n it.2 →
     st !! metadata_path temp_metadata_folder it.1 jr.1 it.2 = None ∨
     st !! metadata_path temp_metadata_folder it.1 jr.1 it.2
     = st0 !! metadata_path temp_metadata_folder it.1 jr.1 it.2) ∧
  (∀ it, it ∈ its →
     st !! destination_path video_output_folder it.1 it.2
     = st0 !! destination_path video_output_folder it.1 it.2 ∨
     ∃ c, st !! destination_path video_output_folder it.1 it.2
          = Some (File c)).

(** The copies staging makes when every selected candidate is copied:
    for each term, its destination once per selected candidate. *)
Definition all_copies (E : collaborators) (video_output_folder : string)
    (top_n : Z) (its : list (nat * string)) : list string :=
  concat ((λ it, replicate (length (term_selected E top_n it.2))
                   (destination_path video_output_folder it.1 it.2)) <$> its).

(** ** Counting staged segments *)

(** The names of the video segments in a job folder. *)
Definition staged_names (st : gmap string node) (video_output_folder : string)
  : list string :=
  filter (λ n, is_video n = true) (FS.children st video_output_folder).

(** The sum over the search terms of [min(k, candidates returned)]. *)
Definition selected_count (E : collaborators) (k : nat) (terms : list string)
  : nat :=
  sum_list ((λ term,
    k `min` length (search_video_by_text E term "" (POSITIVE_THRESHOLD E)
                      (NEGATIVE_THRESHOLD E))) <$> terms).

(** Lexicographic sorting of names. *)
Definition lex_sort (names : list string) : list string :=
  merge_sort String.le names.

(** The inputs of an encoder command, in order. *)
Fixpoint cmd_inputs (cmd : list string) : list string :=
  match cmd with
  | a :: rest =>
      match rest with
      | b :: _ => if bool_decide (a = "-i") then [b] else []
      | [] => []
      end ++ cmd_inputs rest
  | [] => []
  end.

(** ** A concrete set of collaborators *)

Module Demo.

Definition newline : string := String "010"%char "".

(** Lines of a text, split at line feeds. *)
Fixpoint lines_from (cur : string) (s : string) : list string :=
  match s with
  | "" => if bool_decide (cur = "") then [] else [String.rev cur]
  | String c s' =>
      if bool_decide (c = "010"%char) then String.rev cur :: lines_from "" s'
      else lines_from (String c cur) s'
  end.

(** A retrieval engine that knows, for every term but ["nothing"], the
    clip named after the term and then a fallback clip. *)
Definition search (term : string) : list candidate :=
  if bool_decide (term = "nothing") then []
  else [Candidate ("lib/" +:+ term +:+ ".mp4") "00:00:01" "00:00:05" 0.9%float;
        Candidate "lib/alt.mp4" "00:00:02" "00:00:04" 0.8%float].

(** An encoder that refuses to write onto one of its inputs and otherwise
    writes its output file. *)
Definition encoder (cmd : list string) (st : gmap string node)
  : proc_result * gmap string node :=
  if is_input cmd (cmd_output cmd)
  then (Exited false "" "Output same as Input", st)
  else (Exited true "done" "", <[cmd_output cmd := File "merged"]> st).

(** A probe that reports 12.4 seconds for every file. *)
Definition probe (cmd : list string) (st : gmap string node) : proc_result :=
  Exited true "12.4" "".

Definition parse_float (s : string) : option float :=
  if bool_decide (s = "12.4") then Some 12.4%float else None.

Definition print_float (f : float) : string :=
  if PrimFloat.eqb f 12.700000000000001%float then "12.700000000000001"
  else "?".

(** [sorted] makes [os.listdir] enumerate names in lexicographic order;
    [locked] are the paths that may not be unlinked. *)
Definition env (sorted : bool) (locked : list string) : collaborators := {|
  listing := λ st d,
    if sorted then lex_sort (FS.children st d) else FS.children st d;
  search_video_by_text := λ term _ _ _, search term;
  POSITIVE_THRESHOLD := 30%float;
  NEGATIVE_THRESHOLD := 30%float;
  json_dump := λ m, "{" +:+ md_video_path m +:+ "}";
  decode_utf8 := Some;
  splitlines := lines_from "";
  ffprobe := probe;
  ffmpeg := encoder;
  float_of_str := parse_float;
  str_of_float := print_float;
  removable := λ p, negb (bool_decide (p ∈ locked))
|}.

Definition library (terms : list string) : list (string * node) :=
  ("lib", Dir) :: ("lib/alt.mp4", File "alt")
  :: ((λ t, ("lib/" +:+ t +:+ ".mp4", File t)) <$> terms).

(** The script [in/clip1.txt] with the lines [terms], its companions with
    the audio extension [ext], an empty output root and the library. *)
Definition scenario (terms : list string) (ext : string) : world :=
  World
    (list_to_map
       ([("in", Dir);
         ("in/clip1.txt", File (PyStr.join newline terms));
         ("in/clip1" +:+ ext, File "audio");
         ("in/clip1.srt", File "subs");
         ("out", Dir)] ++ library terms))
    [] [].

(** A probe that prints nothing for the files [bad] (they are not audio
    the probe can read) and 12.4 seconds for every other file. *)
Definition probe_but (bad : list string) (cmd : list string)
    (st : gmap string node) : proc_result :=
  if bool_decide (cmd_output cmd ∈ bad) then Exited true "" "not audio"
  else Exited true "12.4" "".

(** The collaborators of [env true []] with that probe. *)
Definition env_corrupt (bad : list string) : collaborators := {|
  listing := λ st d, lex_sort (FS.children st d);
  search_video_by_text := λ term _ _ _, search term;
  POSITIVE_THRESHOLD := 30%float;
  NEGATIVE_THRESHOLD := 30%float;
  json_dump := λ m, "{" +:+ md_video_path m +:+ "}";
  decode_utf8 := Some;
  splitlines := lines_from "";
  ffprobe := probe_but bad;
  ffmpeg := encoder;
  float_of_str := parse_float;
  str_of_float := print_float;
  removable := λ _, true
|}.

Definition two_lines : list string :=
  ["sunset over water"; "city traffic at night"].

Definition ten_lines : list string :=
  ["a"; "b"; "c"; "d"; "e"; "f"; "g"; "h"; "i"; "j"].

(** A job folder as staging leaves it: two segments, the audio file and
    [subtitles] as subtitle files. *)
Definition job (subtitles : list string) : world :=
  World
    (list_to_map
       ([("job", Dir);
         ("job/1_a.mp4", File "v1");
         ("job/2_b.mp4", File "v2");
         ("job/a.mp3", File "audio")]
        ++ ((λ n, ("job/" +:+ n, File "subs")) <$> subtitles)))
    [] [].

(** The scenario with the two folders of the job in place, as
    [process_single_file] leaves them before it reads the script. *)
Definition prepared (terms : list string) (ext : string) : world :=
  set_files
    (<["out/clip1_temp" := Dir]>
       (<["out/clip1" := Dir]> (files (scenario terms ext))))
    (scenario terms ext).

End Demo.

(** ** Further definitions: names, frames and logs *)

(** The characters [str] writes a natural number with. *)
Definition is_digit (c : ascii) : bool :=
  bool_decide (c ∈ ["0"; "1"; "2"; "3"; "4"; "5"; "6"; "7"; "8"; "9"]%char).

Fixpoint all_digits (s : string) : bool :=
  match s with
  | "" => true
  | String c s' => is_digit c && all_digits s'
  end.

(** [m] leaves every world in relation [R] with the world it started
    from, whether it returns or raises. *)
Definition respects {A} (R : world → world → Prop) (m : M A) : Prop :=
  ∀ w, R w (m w).2.

(** Every node that is not [d] or below [d] is still there, as it was. *)
Definition kept_outside (d : string) (st st' : gmap string node) : Prop :=
  ∀ p x, FS.under d p = false → st !! p = Some x → st' !! p = Some x.

Definition outside_kept (d : string) (w w' : world) : Prop :=
  kept_outside d (files w) (files w').

(** The log has grown, by entries that report no copy of a video. *)
Definition logs_no_copy (w w' : world) : Prop :=
  ∃ l, logs w' = logs w ++ l ∧ logged_copies l = [].

(** The files are as they were. *)
Definition files_same (w w' : world) : Prop := files w' = files w.

(** Every path that held a node still holds one. *)
Definition nodes_kept (w w' : world) : Prop :=
  ∀ p, is_Some (files w !! p) → is_Some (files w' !! p).

(** The copies made so far are video files by name and are all there. *)
Definition copies_present (copied : list string) (w : world) : Prop :=
  ∀ d, d ∈ copied →
    PyStr.endswith d ".mp4" = true ∧ is_Some (files w !! d).

(** No process has been started. *)
Definition procs_same (w w' : world) : Prop := procs w' = procs w.

(** Every directory is still a directory. *)
Definition dirs_kept (w w' : world) : Prop :=
  ∀ p, files w !! p = Some Dir → files w' !! p = Some Dir.

(** The number of candidates the loop of line 148 goes through, summed
    over the search terms: the length of [results[:top_n]] for each. *)
Definition slice_count (E : collaborators) (top_n : Z) (terms : list string)
  : nat :=
  sum_list ((λ term,
    length (PyStr.slice_to
              (search_video_by_text E term "" (POSITIVE_THRESHOLD E)
                 (NEGATIVE_THRESHOLD E)) top_n)) <$> terms).

(** ** [time_to_seconds] (lines 56-58) *)

(** [s.split(sep)] for a one-character separator *)
Fixpoint split (sep : ascii) (s : string) : list string :=
  match s with
  | "" => [""]
  | String c s' =>
      if bool_decide (c = sep) then "" :: split sep s'
      else match split sep s' with
           | p :: ps => String c p :: ps
           | [] => [String c ""]
           end
  end.

(** The two exceptions the function can raise. *)
Inductive time_exn : Type := TimeValueError | TimeOverflowError.

Section TimeToSeconds.

Variable E : collaborators.

(** [int(x)], [None] when it raises [ValueError], and the conversion of an
    integer to a float that [int + float] makes, [None] when the integer
    is too large ([OverflowError]). *)
Variable int_of_str : string → option Z.
Variable float_of_int : Z → option float.

Definition time_to_seconds (time_str : string) : time_exn + float :=
  match split ":" time_str with
  | [h; m; s] =>
      match int_of_str h with
      | None => inl TimeValueError
      | Some h' =>
          match int_of_str m with
          | None => inl TimeValueError
          | Some m' =>
              match float_of_str E s with
              | None => inl TimeValueError
              | Some s' =>
                  match float_of_int (h' * 3600 + m' * 60) with
                  | None => inl TimeOverflowError
                  | Some hm => inr (hm + s')%float
                  end
              end
          end
      end
  | _ => inl TimeValueError
  end.

End TimeToSeconds.

(** [c] does not occur in [s]. *)
Fixpoint free_of (c : ascii) (s : string) : bool :=
  match s with
  | "" => true
  | String a s' => negb (bool_decide (a = c)) && free_of c s'
  end.

(** * Strings and paths *)

Section Strings.

Implicit Types s t a b n d suf pre : string.

Lemma app_cons_str c s t : String c s +:+ t = String c (s +:+ t).
Proof. done. Qed.

Lemma app_nil_l_str s : "" +:+ s = s.
Proof. done. Qed.

Lemma app_nil_r_str s : s +:+ "" = s.
Proof. induction s as [|c s IH]; [done|]. by rewrite app_cons_str, IH. Qed.

Lemma app_assoc_str s t u : (s +:+ t) +:+ u = s +:+ t +:+ u.
Proof. induction s as [|c s IH]; [done|]. by rewrite !app_cons_str, IH. Qed.

Lemma length_app_str s t :
  String.length (s +:+ t) = String.length s + String.length t.
Proof.
  induction s as [|c s IH]; [done|]. rewrite app_cons_str. cbn. by rewrite IH.
Qed.

Lemma app_eq_same_length s t u v :
  s +:+ u = t +:+ v → String.length u = String.length v → s = t ∧ u = v.
Proof.
  revert t. induction s as [|c s IH]; intros [|c' t] H Hl.
  - done.
  - apply (f_equal String.length) in H.
    rewrite app_cons_str, app_nil_l_str in H. cbn in H.
    rewrite length_app_str in H. lia.
  - apply (f_equal String.length) in H.
    rewrite app_cons_str, app_nil_l_str in H. cbn in H.
    rewrite length_app_str in H. lia.
  - rewrite !app_cons_str in H. injection H as -> H.
    destruct (IH _ H Hl) as [-> ->]. done.
Qed.

Lemma app_inv_tail_str s t u : s +:+ u = t +:+ u → s = t.
Proof. intros H. by destruct (app_eq_same_length _ _ _ _ H eq_refl). Qed.

(** ** [endswith] *)

Lemma endswith_refl s : PyStr.endswith s s = true.
Proof. destruct s; cbn; by rewrite bool_decide_eq_true_2. Qed.

Lemma endswith_app a suf : PyStr.endswith (a +:+ suf) suf = true.
Proof.
  induction a as [|c a IH]; [apply endswith_refl|].
  rewrite app_cons_str. cbn. rewrite IH. apply orb_true_r.
Qed.

Lemma endswith_inv s suf :
  PyStr.endswith s suf = true → ∃ a, s = a +:+ suf.
Proof.
  induction s as [|c s IH]; cbn; intros H.
  - rewrite orb_false_r in H. apply bool_decide_eq_true_1 in H as <-.
    by exists "".
  - apply orb_true_iff in H as [H|H].
    + apply bool_decide_eq_true_1 in H as <-. by exists "".
    + destruct (IH H) as [a ->]. by exists (String c a).
Qed.

Lemma endswith_spec s suf :
  PyStr.endswith s suf = true ↔ ∃ a, s = a +:+ suf.
Proof.
  split; [apply endswith_inv|]. intros [a ->]. apply endswith_app.
Qed.

(** Two different suffixes of one length exclude each other. *)
Lemma endswith_excl s suf1 suf2 :
  String.length suf1 = String.length suf2 → suf1 ≠ suf2 →
  PyStr.endswith s suf1 = true → PyStr.endswith s suf2 = false.
Proof.
  intros Hl Hne [a ->]%endswith_inv.
  destruct (PyStr.endswith (a +:+ suf1) suf2) eqn:H; [|done].
  apply endswith_inv in H as [b H].
  destruct (app_eq_same_length _ _ _ _ H Hl) as [_ ?]. done.
Qed.

Lemma endswith_trans s t suf :
  PyStr.endswith s t = true → PyStr.endswith t suf = true →
  PyStr.endswith s suf = true.
Proof.
  intros [a ->]%endswith_inv [b ->]%endswith_inv.
  rewrite <-app_assoc_str. apply endswith_app.
Qed.

(** ** Separators, base names and joins *)

Lemma has_sep_app s t :
  Path.has_sep (s +:+ t) = Path.has_sep s || Path.has_sep t.
Proof.
  induction s as [|c s IH]; [done|].
  rewrite app_cons_str. cbn. rewrite IH. by rewrite orb_assoc.
Qed.

Lemma startswith_sep n :
  PyStr.startswith n "/" = true → Path.has_sep n = true.
Proof.
  destruct n as [|c n]; cbn; [done|]. rewrite andb_true_r.
  intros <-%bool_decide_eq_true_1. done.
Qed.

Lemma split_last_sep_no_sep n :
  Path.has_sep n = false → Path.split_last_sep n = ("", n).
Proof.
  induction n as [|c n IH]; [done|]. cbn.
  intros [Hc Hn]%orb_false_iff. rewrite (IH Hn).
  by rewrite Hc.
Qed.

Lemma split_last_sep_no_head p t :
  Path.split_last_sep p = ("", t) → t = p.
Proof.
  destruct p as [|c p]; cbn; [by intros [= <-]|].
  destruct (Path.split_last_sep p) as [[|h0 h] t']; [|done].
  destruct (bool_decide (c = Path.sep)); [done|]. by intros [= <-].
Qed.

Lemma split_last_sep_tail p : Path.has_sep (Path.split_last_sep p).2 = false.
Proof.
  induction p as [|c p IH]; [done|]. cbn.
  destruct (Path.split_last_sep p) as [[|h0 h] t] eqn:Hs; [|done].
  apply split_last_sep_no_head in Hs as ->. cbn in IH.
  destruct (bool_decide (c = Path.sep)) eqn:Hc; cbn; [done|].
  by rewrite Hc.
Qed.

Lemma has_sep_basename p : Path.has_sep (Path.basename p) = false.
Proof. apply split_last_sep_tail. Qed.


Lemma basename_no_sep n : Path.has_sep n = false → Path.basename n = n.
Proof. intros H. unfold Path.basename. by rewrite split_last_sep_no_sep. Qed.


Lemma join_relative d n :
  Path.has_sep n = false → Path.join d n = Path.dirprefix d +:+ n.
Proof.
  intros Hn. unfold Path.join, Path.dirprefix.
  destruct (PyStr.startswith n "/") eqn:Hs.
  { apply startswith_sep in Hs. congruence. }
  destruct (bool_decide (d = "") || PyStr.endswith d "/"); [done|].
  by rewrite app_assoc_str.
Qed.

Lemma join_inj d n m :
  Path.has_sep n = false → Path.has_sep m = false →
  Path.join d n = Path.join d m → n = m.
Proof.
  intros Hn Hm. rewrite !join_relative by done. apply String.app_inj.
Qed.


Lemma endswith_join d n suf :
  Path.has_sep n = false →
  PyStr.endswith n suf = true → PyStr.endswith (Path.join d n) suf = true.
Proof.
  intros Hn H. rewrite join_relative by done.
  eapply endswith_trans; [apply endswith_app|done].
Qed.

Lemma simple_name_no_sep n : Path.simple_name n = true → Path.has_sep n = false.
Proof.
  unfold Path.simple_name. intros [_ H]%andb_true_iff.
  by apply negb_true_iff in H.
Qed.

(** ** [strip_prefix] and the children of a directory *)

Lemma strip_prefix_app pre n : Path.strip_prefix pre (pre +:+ n) = Some n.
Proof.
  induction pre as [|c pre IH]; [done|]. rewrite app_cons_str. cbn.
  by rewrite bool_decide_eq_true_2.
Qed.

Lemma strip_prefix_inv pre s n :
  Path.strip_prefix pre s = Some n → s = pre +:+ n.
Proof.
  revert s. induction pre as [|c pre IH]; intros s; cbn.
  - by intros [= ->].
  - destruct s as [|c' s]; [done|].
    destruct (bool_decide (c = c')) eqn:Hc; [|done].
    apply bool_decide_eq_true_1 in Hc as ->.
    intros H. by rewrite (IH _ H).
Qed.

Lemma startswith_app pre n : PyStr.startswith (pre +:+ n) pre = true.
Proof.
  induction pre as [|c pre IH]; [by destruct n|]. rewrite app_cons_str. cbn.
  by rewrite bool_decide_eq_true_2.
Qed.

Lemma startswith_inv s pre :
  PyStr.startswith s pre = true → ∃ n, s = pre +:+ n.
Proof.
  revert s. induction pre as [|c pre IH]; intros s; cbn.
  - intros _. by exists s.
  - destruct s as [|c' s]; [done|].
    intros [->%bool_decide_eq_true_1 H]%andb_true_iff.
    destruct (IH _ H) as [n ->]. by exists n.
Qed.

Lemma children_spec (st : gmap string node) d n :
  n ∈ FS.children st d ↔
  Path.simple_name n = true ∧ is_Some (st !! Path.join d n).
Proof.
  unfold FS.children. rewrite list_elem_of_omap. split.
  - intros (k & Hk & Hc). unfold FS.child_name in Hc.
    destruct (Path.strip_prefix _ k) as [n'|] eqn:Hs; [|done].
    destruct (Path.simple_name n') eqn:Hn; [|done].
    injection Hc as ->. split; [done|].
    apply strip_prefix_inv in Hs as ->.
    rewrite join_relative by by apply simple_name_no_sep.
    apply list_elem_of_fmap in Hk as ([k' x] & -> & Hk).
    apply elem_of_map_to_list in Hk. by exists x.
  - intros [Hn [x Hx]]. exists (Path.join d n). split.
    + apply list_elem_of_fmap. exists (Path.join d n, x). split; [done|].
      by apply elem_of_map_to_list.
    + unfold FS.child_name.
      rewrite join_relative by by apply simple_name_no_sep.
      rewrite strip_prefix_app. by rewrite Hn.
Qed.

End Strings.

(** * The scan of the job folder *)

(** Settles the [decide (b = true)] tests of a [filter] once [b] is known. *)
Ltac decide_bools :=
  repeat match goal with
  | |- context [decide (?b = true)] =>
      first [ rewrite (decide_True (P := b = true)) by done
            | rewrite (decide_False (P := b = true)) by done ]
  end.

Section Scan.

Lemma srt_not_video n : is_srt n = true → is_video n = false.
Proof. by apply endswith_excl. Qed.

Lemma srt_not_audio n : is_srt n = true → is_audio n = false.
Proof.
  intros H. unfold is_audio.
  rewrite (endswith_excl n ".srt" ".mp3"), (endswith_excl n ".srt" ".wav");
    done.
Qed.

Lemma video_not_audio n : is_video n = true → is_audio n = false.
Proof.
  intros H. unfold is_audio.
  rewrite (endswith_excl n ".mp4" ".mp3"), (endswith_excl n ".mp4" ".wav");
    done.
Qed.

Lemma video_not_srt n : is_video n = true → is_srt n = false.
Proof. by apply endswith_excl. Qed.

Lemma pick_nil {A} (o : option A) : pick o [] = o.
Proof. done. Qed.

Lemma pick_cons {A} (o : option A) x l : pick o (x :: l) = pick (Some x) l.
Proof. unfold pick. rewrite last_cons. by destruct (last l). Qed.

Lemma pick_is_Some {A} (o : option A) l : l ≠ [] → is_Some (pick o l).
Proof.
  intros H. unfold pick. destruct (last l) eqn:Hl; [by eexists|].
  by apply last_None in Hl.
Qed.

Lemma scan_fold folder names s v a :
  fold_left (scan_step folder) names (s, v, a) =
  (pick s (Path.join folder <$> filter (λ n, is_srt n = true) names),
   v ++ (Path.join folder <$> filter (λ n, is_video n = true) names),
   pick a (Path.join folder <$> filter (λ n, is_audio n = true) names)).
Proof.
  revert s v a. induction names as [|n names IH]; intros s v a.
  { cbn. by rewrite app_nil_r. }
  cbn [fold_left]. unfold scan_step at 2. fold (is_srt n) (is_video n).
  rewrite !filter_cons.
  destruct (is_srt n) eqn:Hs.
  - rewrite IH, (srt_not_video n Hs), (srt_not_audio n Hs). decide_bools.
    by rewrite fmap_cons, pick_cons.
  - destruct (is_video n) eqn:Hv.
    + rewrite IH, (video_not_audio n Hv). decide_bools.
      by rewrite fmap_cons, <-app_assoc.
    + fold (is_audio n). destruct (is_audio n) eqn:Ha; rewrite IH; decide_bools.
      * by rewrite fmap_cons, pick_cons.
      * done.
Qed.

Lemma scan_folder_spec folder names :
  scan_folder folder names =
  (last (Path.join folder <$> filter (λ n, is_srt n = true) names),
   Path.join folder <$> filter (λ n, is_video n = true) names,
   last (Path.join folder <$> filter (λ n, is_audio n = true) names)).
Proof.
  unfold scan_folder. rewrite scan_fold. unfold pick.
  f_equal; [f_equal|]; by destruct (last _).
Qed.

End Scan.

(** * The monad *)

Section Monad.

Lemma files_add_log r w : files (add_log r w) = files w.
Proof. done. Qed.
Lemma files_add_proc c w : files (add_proc c w) = files w.
Proof. done. Qed.
Lemma files_set_files st w : files (set_files st w) = st.
Proof. done. Qed.
Lemma procs_add_log r w : procs (add_log r w) = procs w.
Proof. done. Qed.
Lemma procs_set_files st w : procs (set_files st w) = procs w.
Proof. done. Qed.
Lemma logs_set_files st w : logs (set_files st w) = logs w.
Proof. done. Qed.
Lemma logs_add_proc c w : logs (add_proc c w) = logs w.
Proof. done. Qed.
Lemma set_files_id w : set_files (files w) w = w.
Proof. by destruct w. Qed.

Lemma bind_ret {A B} (a : A) (k : A → M B) w : bind (ret a) k w = k a w.
Proof. done. Qed.

Lemma bind_logging {B} lv m (k : unit → M B) w :
  bind (logging lv m) k w = k tt (add_log (lv, m) w).
Proof. done. Qed.

Lemma bind_assoc {A B C} (m : M A) (k : A → M B) (h : B → M C) w :
  bind (bind m k) h w = bind m (λ a, bind (k a) h) w.
Proof. unfold bind. by destruct (m w) as [[a|e] w']. Qed.

Lemma for_each_app {A S} (l1 l2 : list A) (body : S → A → M S) s w :
  for_each (l1 ++ l2) body s w =
  bind (for_each l1 body s) (for_each l2 body) w.
Proof.
  revert s w. induction l1 as [|x l1 IH]; intros s w; [done|].
  cbn [app for_each]. unfold bind.
  destruct (body s x w) as [[s'|e] w']; [|done]. by rewrite IH.
Qed.

End Monad.

(** * Removal of the merged segments *)

Section DeleteVideos.

Variable E : collaborators.

Lemma delete_videos_cons video videos w :
  delete_videos E (video :: videos) w =
  match files w !! video with
  | Some (File _) =>
      if removable E video then
        delete_videos E videos
          (add_log (INFO, VideoDeleted video)
             (set_files (delete video (files w)) w))
      else
        delete_videos E videos
          (add_log (ERROR, VideoDeleteFailed video PermissionError) w)
  | Some Dir =>
      delete_videos E videos
        (add_log (ERROR, VideoDeleteFailed video IsADirectoryError) w)
  | None =>
      delete_videos E videos
        (add_log (ERROR, VideoDeleteFailed video FileNotFoundError) w)
  end.
Proof.
  unfold delete_videos. cbn [for_each].
  unfold bind at 1, try_except, bind at 1, fs_update, FS.remove.
  destruct (files w !! video) as [[c|]|]; [|done..].
  by destruct (removable E video).
Qed.

(** The loop always completes. It starts no process and only adds to the
    log; it changes a path only by removing it, and only a path among
    [videos]; of [videos] it leaves no regular file except those whose
    removal was refused, which it reports. *)
Lemma delete_videos_spec videos w :
  ∃ w', delete_videos E videos w = (Ret tt, w') ∧
    procs w' = procs w ∧
    (∃ l, logs w' = logs w ++ l) ∧
    (∀ p, files w' !! p = files w !! p ∨
          (p ∈ videos ∧ removable E p = true ∧ files w' !! p = None)) ∧
    (∀ p, p ∈ videos →
          FS.isfile (files w') p = false ∨
          (removable E p = false ∧
           (ERROR, VideoDeleteFailed p PermissionError) ∈ logs w')).
Proof.
  revert w. induction videos as [|v videos IH]; intros w.
  { exists w. split; [done|]. split; [done|]. split.
    { exists []. by rewrite app_nil_r. }
    split; [by left|]. intros p Hp. by apply elem_of_nil in Hp. }
  rewrite delete_videos_cons.
  assert (∀ w1 : world,
    procs w1 = procs w → (∃ l, logs w1 = logs w ++ l) →
    (∀ p, files w1 !! p = files w !! p ∨
          (p = v ∧ removable E p = true ∧ files w1 !! p = None)) →
    (FS.isfile (files w1) v = false ∨
     (removable E v = false ∧
      (ERROR, VideoDeleteFailed v PermissionError) ∈ logs w1)) →
    ∃ w', delete_videos E videos w1 = (Ret tt, w') ∧
      procs w' = procs w ∧
      (∃ l, logs w' = logs w ++ l) ∧
      (∀ p, files w' !! p = files w !! p ∨
            (p ∈ v :: videos ∧ removable E p = true ∧ files w' !! p = None)) ∧
      (∀ p, p ∈ v :: videos →
            FS.isfile (files w') p = false ∨
            (removable E p = false ∧
             (ERROR, VideoDeleteFailed p PermissionError) ∈ logs w')))
    as Hstep.
  { intros w1 Hp1 [l1 Hl1] Hf1 Hv1.
    destruct (IH w1) as (w' & Hrun & Hprocs & [l Hlogs] & Hframe & Hgone).
    exists w'. split; [done|]. split; [congruence|]. split.
    { exists (l1 ++ l). by rewrite Hlogs, Hl1, app_assoc. }
    split.
    - intros p. destruct (Hframe p) as [Hp|(Hp & Hr & Hnone)].
      + destruct (Hf1 p) as [Hp'|(-> & Hr & Hnone)].
        * left. congruence.
        * right. split; [left|]. split; [done|]. congruence.
      + right. split; [by right|done].
    - intros p [->|Hp]%elem_of_cons; [|by apply Hgone].
      destruct Hv1 as [Hv1|[Hr Hlog]].
      + left. unfold FS.isfile in *.
        destruct (Hframe v) as [Hp|(_ & _ & Hp)]; by rewrite Hp.
      + right. split; [done|]. rewrite Hlogs. apply elem_of_app. by left. }
  destruct (files w !! v) as [[c|]|] eqn:Hv.
  - destruct (removable E v) eqn:Hr.
    + apply Hstep; [done|by eexists| |].
      * intros p. cbn. destruct (decide (p = v)) as [->|Hne].
        -- right. by rewrite lookup_delete_eq.
        -- left. by rewrite lookup_delete_ne.
      * left. unfold FS.isfile. cbn. by rewrite lookup_delete_eq.
    + apply Hstep; [done|by eexists|by left|].
      right. split; [done|]. cbn. apply elem_of_app. right. by left.
  - apply Hstep; [done|by eexists|by left|].
    left. unfold FS.isfile. cbn. by rewrite Hv.
  - apply Hstep; [done|by eexists|by left|].
    left. unfold FS.isfile. cbn. by rewrite Hv.
Qed.

End DeleteVideos.

(** * The outcomes of a merge *)

Section MergeCases.

Variable E : collaborators.

Lemma encode_and_clean_eq cmd videos output_file w :
  encode_and_clean E cmd videos output_file w =
  match ffmpeg E cmd (files w) with
  | (NotStarted, _) => (Raise FileNotFoundError, w)
  | (Exited false _ stderr, st) =>
      (Ret None,
       add_log (ERROR, FfmpegStderr stderr)
         (add_log (ERROR, FfmpegFailed (CalledProcessError stderr))
            (add_proc cmd (set_files st w))))
  | (Exited true stdout _, st) =>
      let w1 := add_log (INFO, FfmpegOutput stdout)
                  (add_proc cmd (set_files st w)) in
      if output_good st output_file then
        (Ret (Some output_file),
         (delete_videos E videos
            (add_log (INFO, MergeSucceeded output_file) w1)).2)
      else (Ret None, add_log (ERROR, MergeOutputMissing output_file) w1)
  end.
Proof.
  unfold encode_and_clean, try_except, bind at 1, run_ffmpeg.
  destruct (ffmpeg E cmd (files w)) as [[[] so se|] st]; [| done | done].
  unfold bind at 1, logging at 1, bind at 1, fs_test, bind at 1.
  cbn [files add_log add_proc set_files].
  unfold output_good, FS.exists_.
  destruct (st !! output_file) as [[c|]|] eqn:Hout.
  - unfold bind at 1, fs_query, FS.getsize. cbn [files add_log add_proc set_files].
    rewrite Hout. unfold ret at 1.
    destruct (bool_decide (0 < String.length c)); [|done].
    unfold bind at 1, logging at 1, bind at 1.
    match goal with |- context [delete_videos E videos ?w0] =>
      destruct (delete_videos_spec E videos w0) as (w2 & -> & _) end.
    done.
  - unfold bind at 1, fs_query, FS.getsize. cbn [files add_log add_proc set_files].
    rewrite Hout. unfold ret at 1. rewrite bool_decide_eq_true_2 by lia.
    unfold bind at 1, logging at 1, bind at 1.
    match goal with |- context [delete_videos E videos ?w0] =>
      destruct (delete_videos_spec E videos w0) as (w2 & -> & _) end.
    done.
  - done.
Qed.

Lemma merge_cases_of folder_path w r w' :
  merge_videos_with_srt E folder_path w = (r, w') →
  merge_result E folder_path w r w'.
Proof.
  unfold merge_videos_with_srt, bind at 1, listdir.
  destruct (files w !! folder_path) as [[c|]|] eqn:Hdir;
    [intros [= <- <-]; by constructor; rewrite Hdir|
     |intros [= <- <-]; by constructor; rewrite Hdir].
  destruct (scan_folder folder_path (listing E (files w) folder_path))
    as [[srt videos] audio] eqn:Hscan.
  destruct srt as [srt|];
    [|intros [= <- <-]; by eapply merge_inputs_missing; eauto].
  destruct videos as [|video videos];
    [intros [= <- <-]; by eapply merge_inputs_missing; eauto|].
  destruct audio as [audio|];
    [|intros [= <- <-]; by eapply merge_inputs_missing; eauto].
  unfold bind at 1, read_text, bind at 1, fs_query.
  destruct (FS.read_file (files w) srt) as [bytes|e];
    [|intros [= <- <-]; by constructor].
  destruct (decode_utf8 E bytes) as [text|];
    [|intros [= <- <-]; by constructor].
  unfold ret at 1, bind at 1, run_ffprobe.
  destruct (ffprobe E (ffprobe_command audio) (files w))
    as [ok so se|] eqn:Hprobe; [|intros [= <- <-]; by constructor].
  destruct (float_of_str E so) as [D|] eqn:HD;
    [|intros [= <- <-]; by constructor].
  unfold bind at 1, logging at 1.
  set (pl := MergePlan srt (video :: videos) audio D).
  assert (planned E folder_path w pl) as Hpl.
  { split; [done|]. split; [done|]. split; [done|]. by exists ok, so, se. }
  rewrite encode_and_clean_eq. cbn [files add_log add_proc].
  change (ffmpeg_command E (video :: videos) audio (D + pad)%float
            (output_path folder_path)) with (plan_command E folder_path pl).
  destruct (ffmpeg E (plan_command E folder_path pl) (files w))
    as [[[] so' se'|] st] eqn:Henc.
  - cbn zeta. destruct (output_good st (output_path folder_path)) eqn:Hgood.
    + match goal with |- context [delete_videos E ?vs ?w0] =>
        destruct (delete_videos_spec E vs w0) as (w2 & Hrun & Hp & _ & Hf & Hg) end.
      rewrite Hrun. cbn [fst snd]. intros [= <- <-].
      eapply (merge_success _ _ _ pl); eauto.
      cbn in Hp. by rewrite Hp, <-app_assoc.
    + intros [= <- <-]. eapply (merge_output_bad _ _ _ pl); eauto.
      cbn. by rewrite <-app_assoc.
  - intros [= <- <-]. eapply (merge_encoder_failed _ _ _ pl); eauto.
    cbn. by rewrite <-app_assoc.
  - intros [= <- <-]. by eapply (merge_encoder_not_started _ _ _ pl).
Qed.

Lemma merge_cases folder_path w :
  merge_result E folder_path w
    (merge_videos_with_srt E folder_path w).1
    (merge_videos_with_srt E folder_path w).2.
Proof. apply merge_cases_of. by destruct (merge_videos_with_srt _ _ _). Qed.

End MergeCases.

(** * The encoder command and the job folder *)

Section Command.

Variable E : collaborators.

Lemma is_input_cons a cmd x : is_input cmd x = true → is_input (a :: cmd) x = true.
Proof. intros H. cbn. rewrite H. apply orb_true_r. Qed.

Lemma is_input_inputs videos rest x :
  x ∈ videos →
  is_input (flat_map (λ video, ["-i"; video]) videos ++ rest) x = true.
Proof.
  induction videos as [|v videos IH]; intros Hx.
  { by apply elem_of_nil in Hx. }
  apply elem_of_cons in Hx as [->|Hx].
  - cbn [flat_map app is_input].
    by rewrite (bool_decide_eq_true_2 ("-i" = "-i")),
               (bool_decide_eq_true_2 (v = v)).
  - cbn [flat_map app]. do 2 apply is_input_cons. by apply IH.
Qed.

Lemma is_input_ffmpeg_command videos audio_file total output_file x :
  x ∈ videos →
  is_input (ffmpeg_command E videos audio_file total output_file) x = true.
Proof.
  intros Hx. unfold ffmpeg_command. cbn [app].
  do 2 apply is_input_cons. by apply is_input_inputs.
Qed.

Lemma cmd_output_ffmpeg_command videos audio_file total output_file :
  cmd_output (ffmpeg_command E videos audio_file total output_file)
  = output_file.
Proof.
  unfold cmd_output, ffmpeg_command. rewrite !app_assoc. apply last_last.
Qed.

Lemma output_name_simple folder_path :
  Path.simple_name (Path.basename folder_path +:+ "_merged.mp4") = true.
Proof.
  unfold Path.simple_name. apply andb_true_iff. split.
  - apply negb_true_iff, bool_decide_eq_false_2.
    intros H%(f_equal String.length). rewrite length_app_str in H.
    cbn in H. lia.
  - apply negb_true_iff. rewrite has_sep_app, has_sep_basename. done.
Qed.

Lemma output_name_video folder_path :
  is_video (Path.basename folder_path +:+ "_merged.mp4") = true.
Proof.
  unfold is_video. apply endswith_spec.
  exists (Path.basename folder_path +:+ "_merged").
  by rewrite app_assoc_str.
Qed.

Hypothesis listing_perm : listing_ok E.

Lemma listing_simple st d n :
  n ∈ listing E st d → Path.simple_name n = true.
Proof.
  rewrite (listing_perm st d). by intros [? _]%children_spec.
Qed.

Lemma listing_complete st d n :
  Path.simple_name n = true → is_Some (st !! Path.join d n) →
  n ∈ listing E st d.
Proof. intros. rewrite (listing_perm st d). by apply children_spec. Qed.

Lemma elem_of_segments st folder_path p :
  p ∈ segments E st folder_path ↔
  ∃ n, p = Path.join folder_path n ∧ n ∈ listing E st folder_path ∧
       is_video n = true.
Proof.
  unfold segments. rewrite list_elem_of_fmap.
  split; intros (n & ? & Hn); exists n.
  - apply list_elem_of_filter in Hn as [??]. done.
  - split; [done|]. apply list_elem_of_filter. tauto.
Qed.

Lemma planned_videos folder_path w pl :
  planned E folder_path w pl →
  plan_videos pl = segments E (files w) folder_path.
Proof.
  intros (_ & Hscan & _). rewrite scan_folder_spec in Hscan.
  by injection Hscan as _ <- _.
Qed.

(** A path of the folder that is not a segment is not the output path
    either. *)
Lemma sidecar_not_output st folder_path n :
  n ∈ listing E st folder_path → is_video n = false →
  Path.join folder_path n ≠ output_path folder_path.
Proof.
  intros Hn Hv Heq. unfold output_path in Heq.
  apply join_inj in Heq.
  - subst n. by rewrite output_name_video in Hv.
  - by eapply simple_name_no_sep, listing_simple.
  - apply simple_name_no_sep, output_name_simple.
Qed.

Lemma sidecar_not_segment st folder_path n :
  n ∈ listing E st folder_path → is_video n = false →
  Path.join folder_path n ∉ segments E st folder_path.
Proof.
  intros Hn Hv (m & Heq & Hm & Hmv)%elem_of_segments.
  apply join_inj in Heq; [congruence|..];
    by eapply simple_name_no_sep, listing_simple.
Qed.

(** Whatever exists at the output path before the merge is one of the
    segments the scan collects. *)
Lemma output_is_segment st folder_path :
  is_Some (st !! output_path folder_path) →
  output_path folder_path ∈ segments E st folder_path.
Proof.
  intros H. apply elem_of_segments. eexists. split; [done|]. split.
  - apply listing_complete; [apply output_name_simple|done].
  - apply output_name_video.
Qed.

End Command.

(** * Postcondition of the merge *)

Section MergePostcondition.

Variable E : collaborators.
Hypothesis listing_perm : listing_ok E.
Hypothesis frame : encoder_frame E.
Hypothesis not_in_place : encoder_not_in_place E.

Lemma encoder_refuses_segment_output folder_path w pl :
  output_path folder_path ∈ plan_videos pl →
  ∃ out err,
    ffmpeg E (plan_command E folder_path pl) (files w)
    = (Exited false out err, files w).
Proof.
  intros Hin. apply not_in_place. unfold plan_command.
  rewrite cmd_output_ffmpeg_command. by apply is_input_ffmpeg_command.
Qed.

Lemma encoder_keeps_segments folder_path w pl r st v :
  ffmpeg E (plan_command E folder_path pl) (files w) = (r, st) →
  v ∈ plan_videos pl → st !! v = files w !! v.
Proof.
  intros Henc Hv.
  pose proof (frame (plan_command E folder_path pl) (files w) v) as F.
  rewrite Henc in F. cbn [snd] in F. destruct F as [H|[Hout _]]; [done|].
  unfold plan_command in Hout. rewrite cmd_output_ffmpeg_command in Hout.
  subst v. destruct (encoder_refuses_segment_output folder_path w pl Hv)
    as (out & err & Href).
  rewrite Href in Henc. by injection Henc as _ <-.
Qed.

Lemma encoder_keeps_sidecars folder_path w pl r st n :
  ffmpeg E (plan_command E folder_path pl) (files w) = (r, st) →
  n ∈ listing E (files w) folder_path → is_video n = false →
  st !! Path.join folder_path n = files w !! Path.join folder_path n.
Proof.
  intros Henc Hn Hv.
  pose proof (frame (plan_command E folder_path pl) (files w)
                (Path.join folder_path n)) as F.
  rewrite Henc in F. cbn [snd] in F. destruct F as [H|[Hout _]]; [done|].
  unfold plan_command in Hout. rewrite cmd_output_ffmpeg_command in Hout.
  by eapply sidecar_not_output in Hout.
Qed.

Lemma success_output_fresh folder_path w pl out err st :
  ffmpeg E (plan_command E folder_path pl) (files w)
    = (Exited true out err, st) →
  output_path folder_path ∉ plan_videos pl.
Proof.
  intros Henc Hin.
  destruct (encoder_refuses_segment_output folder_path w pl Hin)
    as (out' & err' & Href).
  congruence.
Qed.

(** C1 (amended). Let [os.listdir] list the folder, and let the encoder
    write nothing but its output file and refuse an output that is one of
    its inputs. A merge that returns a path returns the output path of
    the folder; a non-empty regular file is then at that path, and every
    segment the folder listed before the merge is gone, except a segment
    whose removal the operating system refused: that one is left as it was
    and the refusal is logged as an error. A merge that returns no path
    leaves every listed segment as it was. In every case, also when the
    merge raises, the listed entries that are not segments (the audio and
    subtitle sidecars among them) are as they were. *)
Theorem merge_postcondition folder_path w :
  let r := merge_videos_with_srt E folder_path w in
  let segs := segments E (files w) folder_path in
  match r.1 with
  | Ret (Some out) =>
      out = output_path folder_path ∧
      (∃ c, files r.2 !! out = Some (File c) ∧ 0 < String.length c) ∧
      (∀ v, v ∈ segs →
         (FS.isfile (files r.2) v = false ∧
          (FS.isfile (files w) v = true → files r.2 !! v = None)) ∨
         (removable E v = false ∧
          files r.2 !! v = files w !! v ∧
          (ERROR, VideoDeleteFailed v PermissionError) ∈ logs r.2))
  | Ret None => ∀ v, v ∈ segs → files r.2 !! v = files w !! v
  | Raise _ => True
  end ∧
  (∀ n, n ∈ listing E (files w) folder_path → is_video n = false →
     files r.2 !! Path.join folder_path n
     = files w !! Path.join folder_path n).
Proof.
  intros r segs. subst r segs.
  destruct (merge_cases E folder_path w)
    as [e Hdir | srt vs au Hdir Hscan Hmiss | e | au
       | pl w' Hpl Hfiles Hprocs
       | pl so se st w' Hpl Henc Hfiles Hprocs
       | pl so se st w' Hpl Henc Hbad Hfiles Hprocs
       | pl so se st w' Hpl Henc Hgood Hdel Hgone Hprocs]; cbn [fst snd].
  - done.
  - done.
  - done.
  - done.
  - split; [done|]. intros n _ _. by rewrite Hfiles.
  - rewrite Hfiles. split.
    + intros v Hv. rewrite <-(planned_videos E _ _ _ Hpl) in Hv.
      by eapply encoder_keeps_segments.
    + intros n Hn Hv. by eapply encoder_keeps_sidecars.
  - rewrite Hfiles. split.
    + intros v Hv. rewrite <-(planned_videos E _ _ _ Hpl) in Hv.
      by eapply encoder_keeps_segments.
    + intros n Hn Hv. by eapply encoder_keeps_sidecars.
  - pose proof (success_output_fresh _ _ _ _ _ _ Henc) as Hfresh.
    pose proof (planned_videos E _ _ _ Hpl) as Hvs.
    split; [split; [done|split]|].
    + destruct (Hdel (output_path folder_path)) as [Hsame|[Hin _]]; [|done].
      rewrite Hsame. unfold output_good in Hgood.
      destruct (st !! output_path folder_path) as [[c|]|] eqn:Hout; [| |done].
      * exists c. split; [done|]. by apply bool_decide_eq_true_1 in Hgood.
      * exfalso. apply Hfresh. rewrite Hvs.
        apply output_is_segment; [done|].
        destruct (frame (plan_command E folder_path pl) (files w)
                    (output_path folder_path)) as [H|[_ [c H]]];
          rewrite Henc in H; cbn [snd] in H; [|congruence].
        rewrite <-H, Hout. by eexists.
    + intros v Hv. rewrite <-Hvs in Hv.
      pose proof (encoder_keeps_segments _ _ _ _ _ _ Henc Hv) as Hkeep.
      destruct (Hgone v Hv) as [Hg|[Hr Hlog]].
      * left. split; [done|].
        intros Hfile. destruct (Hdel v) as [Hsame|(_ & _ & Hnone)]; [|done].
        exfalso. unfold FS.isfile in *. rewrite Hsame, Hkeep in Hg.
        congruence.
      * right. split; [done|]. split; [|done].
        destruct (Hdel v) as [Hsame|(_ & Hr' & _)]; congruence.
    + intros n Hn Hv. destruct (Hdel (Path.join folder_path n))
        as [Hsame|[Hin _]].
      * rewrite Hsame. by eapply encoder_keeps_sidecars.
      * exfalso. rewrite Hvs in Hin.
        by eapply sidecar_not_segment in Hin.
Qed.

End MergePostcondition.

(** * The encoder invocation of a merge *)

Section MergeCommand.

Variable E : collaborators.

(** The processes a merge starts: none, the probe alone, or the probe and
    then the encoder with the command of the plan. *)
Lemma merge_trace folder_path w :
  ∃ l, procs (merge_videos_with_srt E folder_path w).2 = procs w ++ l ∧
    (l = [] ∨ (∃ audio_file, l = [ffprobe_command audio_file]) ∨
     ∃ pl, planned E folder_path w pl ∧
           l = [ffprobe_command (plan_audio pl);
                plan_command E folder_path pl]).
Proof.
  destruct (merge_cases E folder_path w)
    as [e Hdir | srt vs au Hdir Hscan Hmiss | e | au
       | pl w' Hpl Hfiles Hprocs
       | pl so se st w' Hpl Henc Hfiles Hprocs
       | pl so se st w' Hpl Henc Hbad Hfiles Hprocs
       | pl so se st w' Hpl Henc Hgood Hdel Hgone Hprocs]; cbn [fst snd].
  - exists []. rewrite app_nil_r. auto.
  - exists []. rewrite app_nil_r. auto.
  - exists []. rewrite app_nil_r. auto.
  - eexists. split; [done|]. right. left. by eexists.
  - eexists. split; [done|]. right. left. by eexists.
  - eexists. split; [done|]. right. right. by exists pl.
  - eexists. split; [done|]. right. right. by exists pl.
  - eexists. split; [done|]. right. right. by exists pl.
Qed.

Lemma filter_complex_graph videos :
  filter_complex videos = render <$> graph_spec (length videos).
Proof.
  unfold filter_complex, graph_spec. rewrite fmap_app, <-list_fmap_compose.
  cbn [fmap list_fmap render]. unfold concat_video_filter, concat_audio_filter.
  by rewrite length_seq.
Qed.

(** A merge whose inputs are there (a folder with a subtitle file, at
    least one segment and an audio file; subtitles that can be read; a
    duration the probe reports) builds the command of its plan, logs it
    (line 109) and goes on to the encoder run of lines 110-129. *)
Lemma merge_planned_eq folder_path w pl bytes text :
  planned E folder_path w pl →
  files w !! plan_srt pl = Some (File bytes) →
  decode_utf8 E bytes = Some text →
  merge_videos_with_srt E folder_path w
  = encode_and_clean E (plan_command E folder_path pl) (plan_videos pl)
      (output_path folder_path)
      (add_log (INFO, RunningFfmpeg (plan_command E folder_path pl))
         (add_proc (ffprobe_command (plan_audio pl)) w)).
Proof.
  intros (Hdir & Hscan & Hne & ok & so & se & Hprobe & HD) Hsrt Hdec.
  unfold merge_videos_with_srt, bind at 1, listdir.
  rewrite Hdir, Hscan. unfold plan_command.
  destruct (plan_videos pl) as [|video videos]; [done|].
  unfold bind at 1, read_text, bind at 1, fs_query, FS.read_file.
  rewrite Hsrt, Hdec. unfold ret at 1, bind at 1, run_ffprobe.
  rewrite Hprobe, HD. unfold bind at 1, logging at 1. done.
Qed.

Lemma merge_planned_run folder_path w pl bytes text :
  planned E folder_path w pl →
  files w !! plan_srt pl = Some (File bytes) →
  decode_utf8 E bytes = Some text →
  let cmd := plan_command E folder_path pl in
  let r := merge_videos_with_srt E folder_path w in
  (∃ l, logs r.2 = logs w ++ (INFO, RunningFfmpeg cmd) :: l) ∧
  ((ffmpeg E cmd (files w)).1 ≠ NotStarted →
   procs r.2 = procs w ++ [ffprobe_command (plan_audio pl); cmd]).
Proof.
  intros Hpl Hsrt Hdec cmd r. subst r.
  rewrite (merge_planned_eq _ _ _ _ _ Hpl Hsrt Hdec). fold cmd.
  rewrite encode_and_clean_eq. cbn [files add_log add_proc].
  destruct (ffmpeg E cmd (files w)) as [[[] so' se'|] st]; cbn [fst snd].
  - cbn zeta. destruct (output_good st (output_path folder_path)).
    + match goal with |- context [delete_videos E ?vs ?w0] =>
        destruct (delete_videos_spec E vs w0) as (w2 & Hrun & Hp & [l Hl] & _)
      end.
      rewrite Hrun. cbn [fst snd].
      cbn [logs procs add_log add_proc set_files] in Hp, Hl. split.
      * rewrite Hl, <-?app_assoc. by eexists.
      * intros _. by rewrite Hp, <-?app_assoc.
    + cbn [fst snd logs procs add_log add_proc set_files]. split.
      * rewrite <-?app_assoc. by eexists.
      * intros _. by rewrite <-?app_assoc.
  - cbn [fst snd logs procs add_log add_proc set_files]. split.
    + rewrite <-?app_assoc. by eexists.
    + intros _. by rewrite <-?app_assoc.
  - cbn [fst snd logs procs add_log add_proc]. split; [by eexists|done].
Qed.

(** C5. A merge over the [N] segments of a folder, once its inputs are
    there and the probe has reported a duration, builds and logs one
    encoder command and gives it to the encoder: the segments are inputs
    0 to N-1 in listing order and the audio file is input N; the filter
    graph resets the timestamps of each video input, concatenates the N
    reset streams in input order into one video stream and appends the
    audio input in a second concat stage; the command maps the one video
    and the one audio stream of that stage. No merge starts an encoder
    command of another form, and the graph for one segment is the same
    three-stage graph. *)
Theorem merge_filter_graph folder_path w :
  let segs := segments E (files w) folder_path in
  let N := length segs in
  let r := merge_videos_with_srt E folder_path w in
  let command audio_file t :=
    ["ffmpeg"; "-y"]
    ++ flat_map (λ video, ["-i"; video]) segs
    ++ ["-i"; audio_file;
        "-filter_complex"; PyStr.join ";" (render <$> graph_spec N);
        "-map"; "[outv]"; "-map"; "[outa]";
        "-t"; t; output_path folder_path] in
  (∀ pl bytes text,
     planned E folder_path w pl →
     files w !! plan_srt pl = Some (File bytes) →
     decode_utf8 E bytes = Some text →
     let cmd :=
       command (plan_audio pl) (str_of_float E (plan_duration pl + pad)%float) in
     (0 < N)%nat ∧
     (∃ l, logs r.2 = logs w ++ (INFO, RunningFfmpeg cmd) :: l) ∧
     ((ffmpeg E cmd (files w)).1 ≠ NotStarted →
      procs r.2 = procs w ++ [ffprobe_command (plan_audio pl); cmd])) ∧
  (∃ l, procs r.2 = procs w ++ l ∧
     ∀ cmd, cmd ∈ l → head cmd = Some "ffmpeg" →
       ∃ audio_file t, cmd = command audio_file t) ∧
  graph_spec 1 = [ResetTimestamps 0; ConcatVideo [0]; ConcatAudio 1] ∧
  (∀ n, length (graph_spec n) = n + 2).
Proof.
  intros segs N r command.
  assert (∀ pl, planned E folder_path w pl →
            plan_command E folder_path pl
            = command (plan_audio pl)
                (str_of_float E (plan_duration pl + pad)%float)) as Hcmd.
  { intros pl Hpl. unfold plan_command, ffmpeg_command, command, N, segs.
    by rewrite filter_complex_graph, (planned_videos E _ _ _ Hpl). }
  split; [|split; [|split; [done|]]].
  - intros pl bytes text Hpl Hsrt Hdec cmd. subst cmd. rewrite <-(Hcmd pl Hpl).
    split.
    + unfold N, segs. rewrite <-(planned_videos E _ _ _ Hpl).
      destruct Hpl as (_ & _ & Hne & _).
      destruct (plan_videos pl); [done|]. cbn. lia.
    + by apply (merge_planned_run folder_path w pl bytes text).
  - destruct (merge_trace folder_path w) as (l & Hl & Hcases).
    exists l. split; [done|]. intros cmd Hin Hhead.
    destruct Hcases as [->|[[a ->]|(pl & Hpl & ->)]].
    + by apply elem_of_nil in Hin.
    + apply list_elem_of_singleton in Hin as ->. done.
    + apply elem_of_cons in Hin as [->|Hin]; [done|].
      apply list_elem_of_singleton in Hin as ->.
      exists (plan_audio pl), (str_of_float E (plan_duration pl + pad)%float).
      by apply Hcmd.
  - intros n. unfold graph_spec.
    rewrite length_app, length_fmap, length_seq. done.
Qed.

(** C6. When the probe reports the duration [D] for the audio file of a
    merge whose inputs are there, the command the merge builds, logs and
    gives to the encoder ends with the trim option [-t], the text of
    [D + 0.3] and the output path. No merge starts an encoder command
    with another trim duration than the one the probe reported plus
    0.3. *)
Theorem merge_trim_duration folder_path w :
  let r := merge_videos_with_srt E folder_path w in
  (∀ pl bytes text,
     planned E folder_path w pl →
     files w !! plan_srt pl = Some (File bytes) →
     decode_utf8 E bytes = Some text →
     let D := plan_duration pl in
     probe_reports E (files w) (plan_audio pl) D ∧
     ∃ pre,
       let cmd := "ffmpeg" :: pre ++
                  ["-t"; str_of_float E (D + 0.3)%float;
                   output_path folder_path] in
       (∃ l, logs r.2 = logs w ++ (INFO, RunningFfmpeg cmd) :: l) ∧
       ((ffmpeg E cmd (files w)).1 ≠ NotStarted →
        procs r.2 = procs w ++ [ffprobe_command (plan_audio pl); cmd])) ∧
  (∃ l, procs r.2 = procs w ++ l ∧
     ∀ cmd, cmd ∈ l → head cmd = Some "ffmpeg" →
       ∃ audio_file D pre,
         probe_reports E (files w) audio_file D ∧
         cmd = pre ++ ["-i"; audio_file] ++
               ["-filter_complex";
                PyStr.join ";"
                  (filter_complex (segments E (files w) folder_path));
                "-map"; "[outv]"; "-map"; "[outa]"] ++
               ["-t"; str_of_float E (D + 0.3)%float;
                output_path folder_path]).
Proof.
  intros r. split.
  - intros pl bytes text Hpl Hsrt Hdec D. split.
    { by destruct Hpl as (_ & _ & _ & Hprobe). }
    exists (["-y"] ++ flat_map (λ video, ["-i"; video]) (plan_videos pl)
            ++ ["-i"; plan_audio pl]
            ++ ["-filter_complex"; PyStr.join ";" (filter_complex (plan_videos pl))]
            ++ ["-map"; "[outv]"; "-map"; "[outa]"]).
    cbn zeta.
    assert (plan_command E folder_path pl
            = "ffmpeg" :: (["-y"] ++ flat_map (λ video, ["-i"; video]) (plan_videos pl)
               ++ ["-i"; plan_audio pl]
               ++ ["-filter_complex";
                   PyStr.join ";" (filter_complex (plan_videos pl))]
               ++ ["-map"; "[outv]"; "-map"; "[outa]"])
              ++ ["-t"; str_of_float E (D + 0.3)%float;
                  output_path folder_path]) as <-.
    { unfold plan_command, ffmpeg_command. cbn [app]. f_equal. f_equal.
      rewrite <-!app_assoc. done. }
    by apply (merge_planned_run folder_path w pl bytes text).
  - destruct (merge_trace folder_path w) as (l & Hl & Hcases).
    exists l. split; [done|]. intros cmd Hcmd Hhead.
    destruct Hcases as [->|[[a ->]|(pl & Hpl & ->)]].
    + by apply elem_of_nil in Hcmd.
    + apply list_elem_of_singleton in Hcmd as ->. done.
    + apply elem_of_cons in Hcmd as [->|Hcmd]; [done|].
      apply list_elem_of_singleton in Hcmd as ->.
      exists (plan_audio pl), (plan_duration pl).
      eexists. split.
      * by destruct Hpl as (_ & _ & _ & Hprobe).
      * unfold plan_command, ffmpeg_command.
        rewrite <-(planned_videos E _ _ _ Hpl). rewrite app_assoc. done.
Qed.

End MergeCommand.

(** * The precondition of the merge *)

Section MergePrecondition.

Variable E : collaborators.

Lemma filter_nonempty_lists (names : list string) (kind : string → bool) :
  filter (λ n, kind n = true) names ≠ [] ↔ lists names kind.
Proof.
  split.
  - intros H. destruct (filter _ names) as [|n l] eqn:Hf; [done|].
    assert (n ∈ filter (λ n, kind n = true) names) as Hin
      by (rewrite Hf; left).
    apply list_elem_of_filter in Hin as [??]. by exists n.
  - intros (n & Hn & Hk) Hf.
    assert (n ∈ filter (λ n, kind n = true) names) as Hin
      by by apply list_elem_of_filter.
    rewrite Hf in Hin. by apply elem_of_nil in Hin.
Qed.

Lemma last_fmap_filter_lists (f : string → string) names kind :
  is_Some (last (f <$> filter (λ n, kind n = true) names)) ↔ lists names kind.
Proof.
  rewrite <-filter_nonempty_lists. split.
  - intros [x Hx] Hf. by rewrite Hf in Hx.
  - intros Hf. destruct (last _) eqn:Hl; [by eexists|].
    apply last_None, fmap_nil_inv in Hl. done.
Qed.

(** What the scan finds of each kind. *)
Lemma scan_lists folder_path names srt_file videos audio_file :
  scan_folder folder_path names = (srt_file, videos, audio_file) →
  (is_Some srt_file ↔ lists names is_srt) ∧
  (videos ≠ [] ↔ lists names is_video) ∧
  (is_Some audio_file ↔ lists names is_audio).
Proof.
  rewrite scan_folder_spec. intros [= <- <- <-].
  split; [apply last_fmap_filter_lists|]. split; [|apply last_fmap_filter_lists].
  rewrite <-filter_nonempty_lists. split; intros H Hf; apply H.
  - by rewrite Hf.
  - by apply fmap_nil_inv in Hf.
Qed.

Lemma procs_not_extended (w : world) (r : level * msg) (l : list (list string)) :
  l ≠ [] → procs (add_log r w) ≠ procs w ++ l.
Proof.
  intros Hl H. cbn in H. apply (f_equal length) in H.
  rewrite length_app in H. destruct l; [done|]. cbn in H. lia.
Qed.

Lemma merge_missing_iff folder_path w :
  let names := listing E (files w) folder_path in
  merge_videos_with_srt E folder_path w
    = (Ret None, add_log (ERROR, MergeInputsMissing folder_path) w)
  ↔ files w !! folder_path = Some Dir ∧
    ¬ (lists names is_srt ∧ lists names is_video ∧ lists names is_audio).
Proof.
  intros names. split.
  - intros Hrun. apply merge_cases_of in Hrun.
    inversion Hrun as [ | srt vs au Hdir Hscan Hmiss | | |
       | pl so se st w' Hpl Henc Hfiles Hprocs
       | pl so se st w' Hpl Henc Hbad Hfiles Hprocs | ]; subst.
    + split; [done|]. intros (Hs & Hv & Ha).
      destruct (scan_lists _ _ _ _ _ Hscan) as (Hs' & Hv' & Ha').
      apply Hs' in Hs. apply Hv' in Hv. apply Ha' in Ha.
      destruct Hmiss as [->|[->| ->]];
        [by destruct Hs | done | by destruct Ha].
    + by apply procs_not_extended in Hprocs.
    + by apply procs_not_extended in Hprocs.
  - intros [Hdir Hmiss].
    unfold merge_videos_with_srt, bind at 1, listdir. rewrite Hdir.
    fold names.
    destruct (scan_folder folder_path names) as [[srt videos] audio] eqn:Hscan.
    destruct (scan_lists _ _ _ _ _ Hscan) as (Hs' & Hv' & Ha').
    destruct srt as [srt|]; [|done].
    destruct videos as [|video videos]; [done|].
    destruct audio as [audio|]; [|done].
    exfalso. apply Hmiss. split; [|split].
    + apply Hs'. by eexists.
    + by apply Hv'.
    + apply Ha'. by eexists.
Qed.

(** C4 (amended). A merge ends at once with the error about missing inputs,
    with no file touched and no process started, exactly when the folder
    lists no subtitle file, or no video segment, or no audio file. It counts
    no kind: more than one subtitle file or audio file does not make it
    fail. *)
Theorem merge_precondition folder_path w :
  let names := listing E (files w) folder_path in
  merge_videos_with_srt E folder_path w
    = (Ret None, add_log (ERROR, MergeInputsMissing folder_path) w)
  ↔ files w !! folder_path = Some Dir ∧
    ¬ (lists names is_srt ∧ lists names is_video ∧ lists names is_audio).
Proof. apply merge_missing_iff. Qed.

End MergePrecondition.

(** * Staging one candidate *)

Section Staging.

Variable E : collaborators.

Lemma copy2_frame st src dst st' :
  FS.copy2 st src dst = Ret st' →
  ∃ c, st !! src = Some (File c) ∧
    ((FS.isdir st dst = false ∧ st' = <[dst := File c]> st) ∨
     (FS.isdir st dst = true ∧
      st' = <[Path.join dst (Path.basename src) := File c]> st)).
Proof.
  unfold FS.copy2. destruct (st !! src) as [[c|]|]; [|done..].
  destruct (FS.isdir st dst) eqn:Hd.
  - repeat (case_match; try done). intros [= <-]. exists c. auto.
  - repeat (case_match; try done). intros [= <-]. exists c. auto.
Qed.

Lemma stage_candidate_eq temp vid i term copied j result w :
  stage_candidate E temp vid i term copied (j, result) w =
  let mp := metadata_path temp i j term in
  let dst := destination_path vid i term in
  let src := path result in
  match FS.write_file (files w) mp
          (json_dump E (Metadata term (path result) (start_time result)
                          (end_time result) (score result))) with
  | Raise e => (Raise e, w)
  | Ret st1 =>
      let w1 := add_log (INFO, MetadataSaved j mp) (set_files st1 w) in
      if FS.exists_ st1 src then
        match FS.copy2 st1 src dst with
        | Raise e => (Raise e, w1)
        | Ret st2 =>
            let w2 := add_log (INFO, VideoCopied dst) (set_files st2 w1) in
            match FS.remove (removable E) st2 mp with
            | Raise e => (Raise e, w2)
            | Ret st3 =>
                (Ret (copied ++ [dst]),
                 add_log (INFO, MetadataDeleted mp) (set_files st3 w2))
            end
        end
      else
        let w2 := add_log (ERROR, VideoMissing src) w1 in
        match FS.remove (removable E) st1 mp with
        | Raise e => (Raise e, w2)
        | Ret st3 =>
            (Ret copied,
             add_log (INFO, MetadataDeleted mp) (set_files st3 w2))
        end
  end.
Proof.
  unfold stage_candidate, metadata_path, destination_path.
  cbn [md_video_path]. unfold bind at 1, fs_update at 1.
  destruct (FS.write_file _ _ _) as [st1|e]; [|done].
  unfold bind at 1, logging at 1, bind at 1, fs_test at 1.
  cbn [files add_log set_files].
  destruct (FS.exists_ st1 (path result)).
  - unfold bind at 1, bind at 1, fs_update at 1. cbn [files add_log set_files].
    destruct (FS.copy2 _ _ _) as [st2|e]; [|done].
    unfold bind at 1, logging at 1, ret at 1, bind at 1, fs_update at 1.
    cbn [files add_log set_files].
    destruct (FS.remove _ _ _) as [st3|e]; done.
  - unfold bind at 1, bind at 1, logging at 1, ret at 1, bind at 1,
      fs_update at 1.
    cbn [files add_log set_files].
    destruct (FS.remove _ _ _) as [st3|e]; done.
Qed.

(** What one completed iteration of the candidate loop leaves: the
    metadata file is gone; nothing else has changed apart from the
    footprint of the term; the list of copies grows by exactly the copies
    the log reports, each to the destination of the term. *)
Lemma stage_candidate_ret temp vid i term copied jr copied' w w' :
  stage_candidate E temp vid i term copied jr w = (Ret copied', w') →
  files w' !! metadata_path temp i jr.1 term = None ∧
  procs w' = procs w ∧
  (∃ l, logs w' = logs w ++ l ∧ copied' = copied ++ logged_copies l ∧
        ∀ d, d ∈ logged_copies l → d = destination_path vid i term) ∧
  (∀ p, files w' !! p = files w !! p ∨
        files w' !! p = None ∨
        term_footprint vid i term p).
Proof.
  destruct jr as [j result]. rewrite stage_candidate_eq. cbn zeta. cbn [fst].
  set (mp := metadata_path temp i j term).
  set (dst := destination_path vid i term).
  unfold FS.write_file.
  destruct (FS.isdir (files w) mp); [done|].
  destruct (FS.parent_ok (files w) mp); [|done].
  destruct (FS.exists_ _ (path result)).
  - destruct (FS.copy2 _ _ _) as [st2|e] eqn:Hcopy; [|done].
    unfold FS.remove.
    destruct (st2 !! mp) as [[c|]|] eqn:Hmp; [|done..].
    destruct (removable E mp); [|done].
    intros [= <- <-]. cbn [files procs logs add_log set_files].
    split; [apply lookup_delete_eq|]. split; [done|]. split.
    + eexists. rewrite <-!app_assoc. split; [done|]. cbn. split; [done|].
      by intros d ->%list_elem_of_singleton.
    + intros p. destruct (decide (p = mp)) as [->|Hne].
      { right. left. apply lookup_delete_eq. }
      rewrite lookup_delete_ne by done.
      apply copy2_frame in Hcopy as (c' & _ & [[_ ->]|[_ ->]]).
      * destruct (decide (p = dst)) as [->|Hne'].
        { right. right. by left. }
        left. by rewrite !lookup_insert_ne.
      * destruct (decide (p = Path.join dst (Path.basename (path result))))
          as [->|Hne'].
        { right. right. right. eexists. split; [apply has_sep_basename|done]. }
        left. by rewrite !lookup_insert_ne.
  - unfold FS.remove. rewrite lookup_insert_eq.
    destruct (removable E mp); [|done].
    intros [= <- <-]. cbn [files procs logs add_log set_files].
    split; [apply lookup_delete_eq|]. split; [done|]. split.
    + eexists. rewrite <-!app_assoc. split; [done|]. cbn.
      split; [by rewrite app_nil_r|]. by intros d ?%elem_of_nil.
    + intros p. destruct (decide (p = mp)) as [->|Hne].
      { right. left. apply lookup_delete_eq. }
      left. by rewrite lookup_delete_ne, lookup_insert_ne.
Qed.

End Staging.

(** * The staging loops *)

Section StagingLoops.

Variable E : collaborators.

Lemma logged_copies_app l1 l2 :
  logged_copies (l1 ++ l2) = logged_copies l1 ++ logged_copies l2.
Proof. apply omap_app. Qed.

Lemma staged_refl dsts fp copied w : staged dsts fp copied w copied w.
Proof.
  split; [done|]. split; [|by left].
  exists []. rewrite !app_nil_r. split; [done|]. split; [done|].
  by intros d ?%elem_of_nil.
Qed.

Lemma staged_trans dsts fp c0 w0 c1 w1 c2 w2 :
  staged dsts fp c0 w0 c1 w1 → staged dsts fp c1 w1 c2 w2 →
  staged dsts fp c0 w0 c2 w2.
Proof.
  intros (Hp1 & (l1 & Hl1 & Hc1 & Hd1) & Hf1)
         (Hp2 & (l2 & Hl2 & Hc2 & Hd2) & Hf2).
  split; [congruence|]. split.
  - exists (l1 ++ l2). rewrite logged_copies_app, !app_assoc.
    split; [congruence|]. split; [congruence|].
    intros d [?|?]%elem_of_app; auto.
  - intros p. destruct (Hf2 p) as [H2|[H2|H2]]; [|auto..].
    destruct (Hf1 p) as [H1|[H1|H1]]; [left|right; left|auto]; congruence.
Qed.

Lemma staged_weaken (dsts dsts' fp fp' : string → Prop) c0 w0 c1 w1 :
  (∀ d, dsts d → dsts' d) → (∀ p, fp p → fp' p) →
  staged dsts fp c0 w0 c1 w1 → staged dsts' fp' c0 w0 c1 w1.
Proof.
  intros Hd Hf (Hp & (l & Hl & Hc & Hds) & Hfr).
  split; [done|]. split.
  - exists l. auto.
  - intros p. destruct (Hfr p) as [?|[?|?]]; auto.
Qed.

Lemma staged_log dsts fp copied w lv m :
  (∀ d, m ≠ VideoCopied d) →
  staged dsts fp copied w copied (add_log (lv, m) w).
Proof.
  intros Hm. split; [done|]. split; [|by left].
  exists [(lv, m)]. split; [done|].
  assert (logged_copies [(lv, m)] = []) as ->.
  { unfold logged_copies. cbn. destruct m; try done.
    exfalso. by eapply Hm. }
  rewrite app_nil_r. split; [done|]. by intros d ?%elem_of_nil.
Qed.

Lemma for_each_staged {A} (dsts fp : string → Prop) (body : list string → A → M (list string)) l :
  (∀ x c w c' w', x ∈ l → body c x w = (Ret c', w') → staged dsts fp c w c' w') →
  ∀ c w c' w', for_each l body c w = (Ret c', w') → staged dsts fp c w c' w'.
Proof.
  induction l as [|x l IH]; intros Hbody c w c' w'.
  { intros [= <- <-]. apply staged_refl. }
  cbn [for_each]. unfold bind.
  destruct (body c x w) as [[c1|e] w1] eqn:Hx; [|done].
  intros Hrest. eapply staged_trans.
  - eapply Hbody; [left|done].
  - refine (IH _ c1 w1 c' w' Hrest).
    intros y c2 w2 c3 w3 Hy Hb. eapply Hbody; [by right|done].
Qed.

Lemma stage_candidate_staged temp vid i term copied jr w copied' w' :
  stage_candidate E temp vid i term copied jr w = (Ret copied', w') →
  staged (λ d, d = destination_path vid i term) (term_footprint vid i term)
    copied w copied' w'.
Proof.
  intros H. apply stage_candidate_ret in H as (_ & Hp & Hl & Hf). done.
Qed.

Lemma process_term_staged temp vid top_n copied i term w copied' w' :
  process_term E temp vid top_n copied (i, term) w = (Ret copied', w') →
  staged (λ d, d = destination_path vid i term) (term_footprint vid i term)
    copied w copied' w'.
Proof.
  unfold process_term, bind at 1, logging at 1.
  destruct (search_video_by_text E term "" _ _) as [|r results].
  - unfold bind, logging, ret. intros [= <- <-].
    eapply staged_trans; apply staged_log; done.
  - intros H.
    apply (staged_trans _ _ _ _ copied (add_log (INFO, Searching i term) w));
      [apply staged_log; done|].
    eapply for_each_staged; [|exact H].
    intros jr c0 w0 c1 w1 _. apply stage_candidate_staged.
Qed.

Lemma stage_terms_staged temp vid top_n terms w copied w' :
  stage_terms E temp vid top_n terms w = (Ret copied, w') →
  staged
    (λ d, ∃ i term, (i, term) ∈ PyStr.enumerate 1 terms ∧
                    d = destination_path vid i term)
    (λ p, ∃ i term, (i, term) ∈ PyStr.enumerate 1 terms ∧
                    term_footprint vid i term p)
    [] w copied w'.
Proof.
  unfold stage_terms. apply for_each_staged.
  intros [i term] c0 w0 c1 w1 Hin H.
  eapply staged_weaken; [| |by eapply process_term_staged].
  - intros d ->. by exists i, term.
  - intros p Hp. by exists i, term.
Qed.

Lemma length_enumerate {A} start (l : list A) :
  length (PyStr.enumerate start l) = length l.
Proof.
  unfold PyStr.enumerate. rewrite length_zip_with, length_seq. lia.
Qed.

Lemma all_equal_replicate (l : list string) x :
  (∀ d, d ∈ l → d = x) → l = replicate (length l) x.
Proof.
  induction l as [|y l IH]; intros H; [done|]. cbn.
  rewrite (H y) by left. f_equal. apply IH. intros d Hd. apply H. by right.
Qed.

(** All the copies made for one term go to the one destination of the
    term. *)
Lemma process_term_copies temp vid top_n copied i term w copied' w' :
  process_term E temp vid top_n copied (i, term) w = (Ret copied', w') →
  ∃ k, copied' = copied ++ replicate k (destination_path vid i term).
Proof.
  intros (_ & (l & _ & -> & Hd) & _)%process_term_staged.
  exists (length (logged_copies l)). f_equal. by apply all_equal_replicate.
Qed.

Lemma terms_copies temp vid top_n its copied w copied' w' :
  for_each its (process_term E temp vid top_n) copied w = (Ret copied', w') →
  ∃ ks, length ks = length its ∧
        copied' = copied ++ copies_per_term vid ks its.
Proof.
  revert copied w. induction its as [|[i term] its IH]; intros copied w.
  { intros [= <- <-]. exists []. by rewrite app_nil_r. }
  cbn [for_each]. unfold bind.
  destruct (process_term E temp vid top_n copied (i, term) w)
    as [[c1|e] w1] eqn:Hterm; [|done].
  intros Hrest. apply process_term_copies in Hterm as [k ->].
  apply IH in Hrest as (ks & Hlen & ->).
  exists (k :: ks). split; [cbn; by rewrite Hlen|].
  unfold copies_per_term. cbn. by rewrite <-app_assoc.
Qed.

(** When staging completes, the list of copied videos it returns is,
    term after term, the destination of the term repeated once per copy
    made for it; it is the list of the copies the log reports; it holds
    at most as many different paths as there are terms; and apart from
    files it removed, staging leaves no path changed but the destinations
    of the terms (or, where a destination is a directory, entries
    directly below it). *)
Lemma stage_terms_summary temp vid top_n terms w copied w' :
  stage_terms E temp vid top_n terms w = (Ret copied, w') →
  (∃ ks, length ks = length terms ∧
         copied = copies_per_term vid ks (PyStr.enumerate 1 terms)) ∧
  (∃ l, logs w' = logs w ++ l ∧ copied = logged_copies l) ∧
  (length (remove_dups copied) ≤ length terms)%nat ∧
  (∀ p, files w' !! p = files w !! p ∨ files w' !! p = None ∨
        ∃ i term, (i, term) ∈ PyStr.enumerate 1 terms ∧
                  term_footprint vid i term p).
Proof.
  intros Hrun. split.
  { apply terms_copies in Hrun as (ks & Hlen & ->).
    exists ks. by rewrite Hlen, length_enumerate. }
  apply stage_terms_staged in Hrun as (_ & (l & Hl & Hc & Hd) & Hf).
  cbn [app] in Hc. subst copied.
  split; [by exists l|]. split; [|done].
  rewrite <-(length_enumerate 1 terms).
  rewrite <-(length_fmap (λ it, destination_path vid it.1 it.2)).
  apply submseteq_length, NoDup_submseteq; [apply NoDup_remove_dups|].
  intros d Hin. rewrite elem_of_remove_dups in Hin.
  destruct (Hd d Hin) as (i & term & Hit & ->).
  apply list_elem_of_fmap. by exists (i, term).
Qed.

End StagingLoops.

(** * The metadata records *)

Section Metadata.

Variable E : collaborators.

Lemma bind_ret_inv {A B} (m : M A) (k : A → M B) w b w' :
  bind m k w = (Ret b, w') →
  ∃ a w1, m w = (Ret a, w1) ∧ k a w1 = (Ret b, w').
Proof.
  unfold bind. destruct (m w) as [[a|e] w1]; [|done]. intros H. by exists a, w1.
Qed.

Lemma rmtree_under allowed st d st' p :
  FS.rmtree allowed st d = Ret st' → FS.under d p = true → st' !! p = None.
Proof.
  unfold FS.rmtree. destruct (st !! d) as [[c|]|]; [done| |done].
  destruct (forallb _ _); [|done]. intros [= <-] Hp.
  apply map_lookup_filter_None. right. intros x _. cbn. congruence.
Qed.

Lemma copy2_keeps_files st src dst st' p c :
  FS.copy2 st src dst = Ret st' → st !! p = Some (File c) →
  ∃ c', st' !! p = Some (File c').
Proof.
  intros (c0 & _ & [[_ ->]|[_ ->]])%copy2_frame Hp.
  - destruct (decide (dst = p)) as [->|Hne].
    + rewrite lookup_insert_eq. by eexists.
    + rewrite lookup_insert_ne by done. by eexists.
  - destruct (decide (Path.join dst (Path.basename src) = p)) as [->|Hne].
    + rewrite lookup_insert_eq. by eexists.
    + rewrite lookup_insert_ne by done. by eexists.
Qed.

(** C7. In the loop over the candidates, once the metadata record is
    written, the iteration completes with the record removed both when the
    source is missing and the copy is skipped, and when the copy is made;
    no completed iteration leaves its record behind. A copy that raises is
    not caught (line 169 is not guarded): the iteration ends there with
    that exception, line 176 is not reached and the record stays. When
    selection and staging of a script file complete, no path of the
    temporary metadata folder is left. *)
Theorem metadata_removed :
  (∀ temp vid i term copied j result w st1,
     let mp := metadata_path temp i j term in
     let dst := destination_path vid i term in
     FS.write_file (files w) mp
       (json_dump E (Metadata term (path result) (start_time result)
                       (end_time result) (score result))) = Ret st1 →
     removable E mp = true →
     (FS.exists_ st1 (path result) = false →
      ∃ w', stage_candidate E temp vid i term copied (j, result) w
            = (Ret copied, w') ∧
            files w' !! mp = None) ∧
     (∀ st2, FS.exists_ st1 (path result) = true →
             FS.copy2 st1 (path result) dst = Ret st2 →
      ∃ w', stage_candidate E temp vid i term copied (j, result) w
            = (Ret (copied ++ [dst]), w') ∧
            files w' !! mp = None) ∧
     (∀ e, FS.exists_ st1 (path result) = true →
           FS.copy2 st1 (path result) dst = Raise e →
      ∃ w' c, stage_candidate E temp vid i term copied (j, result) w
              = (Raise e, w') ∧
              files w' !! mp = Some (File c))) ∧
  (∀ temp vid i term copied jr w copied' w',
     stage_candidate E temp vid i term copied jr w = (Ret copied', w') →
     files w' !! metadata_path temp i jr.1 term = None) ∧
  (∀ input_file output_folder top_n w copied w',
     select_and_stage E input_file output_folder top_n w = (Ret copied, w') →
     let base_name := (Path.splitext (Path.basename input_file)).1 in
     ∀ p, FS.under (Path.join output_folder (base_name +:+ "_temp")) p = true →
          files w' !! p = None).
Proof.
  split; [|split].
  - intros temp vid i term copied j result w st1 mp dst Hwrite Hrm.
    assert (st1 !! mp = Some (File (json_dump E
              (Metadata term (path result) (start_time result)
                 (end_time result) (score result))))) as Hmp.
    { unfold FS.write_file in Hwrite. repeat case_match; try done.
      injection Hwrite as <-. apply lookup_insert_eq. }
    split; [|split].
    + intros Hmiss. rewrite stage_candidate_eq. cbn zeta.
      fold mp dst. rewrite Hwrite, Hmiss. unfold FS.remove.
      rewrite Hmp, Hrm. eexists. split; [done|]. apply lookup_delete_eq.
    + intros st2 Hex Hcopy. rewrite stage_candidate_eq. cbn zeta.
      fold mp dst. rewrite Hwrite, Hex, Hcopy. unfold FS.remove.
      destruct (copy2_keeps_files _ _ _ _ _ _ Hcopy Hmp) as [c' ->].
      rewrite Hrm. eexists. split; [done|]. apply lookup_delete_eq.
    + intros e Hex Hcopy. rewrite stage_candidate_eq. cbn zeta.
      fold mp dst. rewrite Hwrite, Hex, Hcopy. eexists _, _.
      split; [done|]. exact Hmp.
  - intros temp vid i term copied jr w copied' w' H.
    by apply stage_candidate_ret in H as (? & _).
  - intros input_file output_folder top_n w copied w' H base_name p Hp.
    unfold select_and_stage in H. fold base_name in H.
    apply bind_ret_inv in H as (? & w1 & _ & H).
    apply bind_ret_inv in H as (? & w2 & _ & H).
    apply bind_ret_inv in H as (text & w3 & _ & H).
    apply bind_ret_inv in H as (cp & w4 & _ & H).
    apply bind_ret_inv in H as (? & w5 & _ & H).
    apply bind_ret_inv in H as (? & w6 & Hrm & H).
    unfold bind, logging, ret in H. injection H as <- <-.
    unfold fs_update in Hrm.
    destruct (FS.rmtree _ _ _) as [st|e] eqn:Hst; [|done].
    injection Hrm as _ <-. cbn [files add_log set_files].
    by eapply rmtree_under.
Qed.

End Metadata.

(** * Failures stay local *)

Section LocalFailures.

Variable E : collaborators.

Lemma process_term_no_result temp vid top_n i term copied w :
  search_video_by_text E term "" (POSITIVE_THRESHOLD E) (NEGATIVE_THRESHOLD E)
    = [] →
  process_term E temp vid top_n copied (i, term) w =
  (Ret copied,
   add_log (WARNING, NoVideoFor term) (add_log (INFO, Searching i term) w)).
Proof. intros H. unfold process_term, bind at 1, logging at 1. by rewrite H. Qed.

Lemma stage_candidate_missing temp vid i term copied j result w st1 :
  FS.write_file (files w) (metadata_path temp i j term)
    (json_dump E (Metadata term (path result) (start_time result)
                    (end_time result) (score result))) = Ret st1 →
  removable E (metadata_path temp i j term) = true →
  FS.exists_ st1 (path result) = false →
  stage_candidate E temp vid i term copied (j, result) w =
  (Ret copied,
   add_log (INFO, MetadataDeleted (metadata_path temp i j term))
     (set_files (delete (metadata_path temp i j term) (files w))
        (add_log (ERROR, VideoMissing (path result))
           (add_log (INFO, MetadataSaved j (metadata_path temp i j term))
              (set_files st1 w))))).
Proof.
  intros Hwrite Hrm Hmiss. rewrite stage_candidate_eq. cbn zeta.
  rewrite Hwrite, Hmiss.
  assert (∃ c, st1 = <[metadata_path temp i j term := File c]> (files w))
    as [c ->].
  { unfold FS.write_file in Hwrite. repeat case_match; try done.
    injection Hwrite as <-. by eexists. }
  unfold FS.remove. rewrite lookup_insert_eq, Hrm.
  by rewrite delete_insert_eq.
Qed.

Lemma process_single_file_merge_failed input_file output_folder top_n w
    copied w1 w2 :
  select_and_stage E input_file output_folder top_n w = (Ret copied, w1) →
  merge_videos_with_srt E
    (Path.join output_folder (Path.splitext (Path.basename input_file)).1) w1
    = (Ret None, w2) →
  process_single_file E input_file output_folder top_n w
  = (Ret copied, add_log (ERROR, MergeFailedKept) w2).
Proof.
  intros Hsel Hmerge. unfold process_single_file, bind at 1.
  rewrite Hsel. unfold bind at 1. by rewrite Hmerge.
Qed.

(** C8. A search term without results is skipped and the loop goes on to
    the remaining terms; a candidate whose source is missing is skipped,
    nothing of it stays behind, and the loop goes on to the remaining
    candidates of the term; a script file whose merge returns no path is
    counted and the loop over the directory goes on to the remaining
    entries, but a merge that raises is not caught by that loop (lines
    204-209): the exception ends the loop and the remaining entries are
    not processed; an input path that is neither a script file nor a
    directory ends the run with an error, no file touched and no process
    started, while a script file is processed and a directory has each
    listed entry handled in turn. *)
Theorem failures_are_local :
  (∀ temp vid top_n i term rest copied w,
     search_video_by_text E term "" (POSITIVE_THRESHOLD E)
       (NEGATIVE_THRESHOLD E) = [] →
     for_each ((i, term) :: rest) (process_term E temp vid top_n) copied w
     = for_each rest (process_term E temp vid top_n) copied
         (add_log (WARNING, NoVideoFor term)
            (add_log (INFO, Searching i term) w))) ∧
  (∀ temp vid i term copied j result rest w st1,
     FS.write_file (files w) (metadata_path temp i j term)
       (json_dump E (Metadata term (path result) (start_time result)
                       (end_time result) (score result))) = Ret st1 →
     removable E (metadata_path temp i j term) = true →
     FS.exists_ st1 (path result) = false →
     ∃ w', for_each ((j, result) :: rest)
             (stage_candidate E temp vid i term) copied w
           = for_each rest (stage_candidate E temp vid i term) copied w' ∧
           files w' = delete (metadata_path temp i j term) (files w) ∧
           procs w' = procs w) ∧
  (∀ input_path output_folder top_n total filename rest w copied w1 w2,
     PyStr.endswith filename ".txt" = true →
     select_and_stage E (Path.join input_path filename) output_folder top_n
       (add_log (INFO, ProcessingFile (Path.join input_path filename)) w)
       = (Ret copied, w1) →
     merge_videos_with_srt E
       (Path.join output_folder
          (Path.splitext (Path.basename (Path.join input_path filename))).1)
       w1 = (Ret None, w2) →
     for_each (filename :: rest)
       (process_listed E input_path output_folder top_n) total w
     = for_each rest (process_listed E input_path output_folder top_n)
         (total + length copied) (add_log (ERROR, MergeFailedKept) w2)) ∧
  (∀ input_path output_folder top_n total filename rest w copied w1 e w2,
     PyStr.endswith filename ".txt" = true →
     select_and_stage E (Path.join input_path filename) output_folder top_n
       (add_log (INFO, ProcessingFile (Path.join input_path filename)) w)
       = (Ret copied, w1) →
     merge_videos_with_srt E
       (Path.join output_folder
          (Path.splitext (Path.basename (Path.join input_path filename))).1)
       w1 = (Raise e, w2) →
     for_each (filename :: rest)
       (process_listed E input_path output_folder top_n) total w
     = (Raise e, w2)) ∧
  (∀ input_path output_folder top_n w,
     FS.isfile (files w) input_path && PyStr.endswith input_path ".txt"
       = false →
     FS.isdir (files w) input_path = false →
     process_input E input_path output_folder top_n w
     = (Ret 0, add_log (ERROR, InvalidInput input_path) w)) ∧
  (∀ input_path output_folder top_n w,
     FS.isfile (files w) input_path && PyStr.endswith input_path ".txt"
       = true →
     process_input E input_path output_folder top_n w
     = (copied <- process_single_file E input_path output_folder top_n ;;
        ret (0 + length copied))
         (add_log (INFO, ProcessingSingle input_path) w)) ∧
  (∀ input_path output_folder top_n w,
     FS.isfile (files w) input_path && PyStr.endswith input_path ".txt"
       = false →
     FS.isdir (files w) input_path = true →
     process_input E input_path output_folder top_n w
     = for_each (listing E (files w) input_path)
         (process_listed E input_path output_folder top_n) 0 w).
Proof.
  repeat split.
  - intros * Hnone. cbn [for_each]. unfold bind at 1.
    by rewrite process_term_no_result.
  - intros * Hwrite Hrm Hmiss. eexists. split; [|split].
    + cbn [for_each]. unfold bind at 1.
      by rewrite (stage_candidate_missing _ _ _ _ _ _ _ _ _ Hwrite Hrm Hmiss).
    + done.
    + done.
  - intros * Htxt Hsel Hmerge. cbn [for_each]. unfold bind at 1.
    unfold process_listed at 1. rewrite Htxt.
    unfold bind at 1, logging at 1, bind at 1.
    by rewrite (process_single_file_merge_failed _ _ _ _ _ _ _ Hsel Hmerge).
  - intros * Htxt Hsel Hmerge. cbn [for_each]. unfold bind at 1.
    unfold process_listed at 1. rewrite Htxt.
    unfold bind at 1, logging at 1, bind at 1.
    unfold process_single_file, bind at 1. rewrite Hsel.
    unfold bind at 1. by rewrite Hmerge.
  - intros * Hfile Hdir. unfold process_input, bind at 1, fs_test at 1.
    rewrite Hfile. unfold bind at 1, fs_test at 1. by rewrite Hdir.
  - intros * Hfile. unfold process_input, bind at 1, fs_test at 1.
    by rewrite Hfile.
  - intros * Hfile Hdir. unfold process_input, bind at 1, fs_test at 1.
    rewrite Hfile. unfold bind at 1, fs_test at 1. rewrite Hdir.
    unfold bind at 1, listdir. unfold FS.isdir in Hdir.
    destruct (files w !! input_path) as [[c|]|]; done.
Qed.

End LocalFailures.

(** * Companions with an upper-case extension *)

Section UppercaseAudio.

Variable E : collaborators.
Hypothesis listing_perm : listing_ok E.

Lemma split_last_dot_app s r e : Path.split_last_dot s = Some (r, e) → s = r +:+ e.
Proof.
  revert r e. induction s as [|c s IH]; intros r e; cbn; [done|].
  destruct (Path.split_last_dot s) as [[r' e']|].
  - intros [= <- <-]. rewrite app_cons_str. f_equal. by apply IH.
  - destruct (bool_decide (c = "."%char)); [|done]. by intros [= <- <-].
Qed.

Lemma splitext_root_no_sep s :
  Path.has_sep s = false → Path.has_sep (Path.splitext s).1 = false.
Proof.
  intros Hs. unfold Path.splitext. rewrite (split_last_sep_no_sep s Hs).
  destruct (Path.split_last_dot s) as [[r e]|] eqn:Hd; [|done].
  destruct (Path.all_dots r); [done|]. cbn.
  apply split_last_dot_app in Hd. subst s.
  rewrite has_sep_app in Hs. by apply orb_false_iff in Hs as [? _].
Qed.

Lemma base_name_no_sep input_file :
  Path.has_sep (Path.splitext (Path.basename input_file)).1 = false.
Proof. apply splitext_root_no_sep, has_sep_basename. Qed.











End UppercaseAudio.

(** * The concrete collaborators meet the assumptions *)

Section DemoFacts.

Lemma demo_listing_ok sorted locked : listing_ok (Demo.env sorted locked).
Proof.
  intros st d. cbn. destruct sorted; [|done].
  unfold lex_sort. apply merge_sort_Permutation.
Qed.

Lemma demo_encoder_frame sorted locked : encoder_frame (Demo.env sorted locked).
Proof.
  intros cmd st p. cbn. unfold Demo.encoder.
  destruct (is_input cmd (cmd_output cmd)); [by left|]. cbn.
  destruct (decide (p = cmd_output cmd)) as [->|Hne].
  - right. split; [done|]. exists "merged". apply lookup_insert_eq.
  - left. by apply lookup_insert_ne.
Qed.

Lemma demo_encoder_not_in_place sorted locked :
  encoder_not_in_place (Demo.env sorted locked).
Proof.
  intros cmd st Hin. cbn. unfold Demo.encoder. rewrite Hin. by eexists _, _.
Qed.

End DemoFacts.

(** * Values of the path and string primitives *)

Example splitext_txt : Path.splitext "in/clip1.txt" = ("in/clip1", ".txt").
Proof. reflexivity. Qed.
Example splitext_hidden : Path.splitext ".txt" = (".txt", "").
Proof. reflexivity. Qed.
Example basename_ex : Path.basename "out/clip1" = "clip1".
Proof. reflexivity. Qed.
Example dirname_ex : Path.dirname "in/sub/clip1.txt" = "in/sub".
Proof. reflexivity. Qed.
Example dirname_root : Path.dirname "/clip1.txt" = "/".
Proof. reflexivity. Qed.
Example dirname_none : Path.dirname "clip1.txt" = "".
Proof. reflexivity. Qed.
Example join_ex : Path.join "out" "clip1" = "out/clip1".
Proof. reflexivity. Qed.
Example join_abs : Path.join "out" "/tmp/x" = "/tmp/x".
Proof. reflexivity. Qed.
Example join_slash : Path.join "out/" "x" = "out/x".
Proof. reflexivity. Qed.
Example endswith_ex : PyStr.endswith "1_a b.mp4" ".mp4" = true.
Proof. reflexivity. Qed.
Example endswith_case : PyStr.endswith "clip1.MP3" ".mp3" = false.
Proof. reflexivity. Qed.
Example str_ex : PyStr.str 10 = "10".
Proof. reflexivity. Qed.
Example slice_negative : PyStr.slice_to [1; 2; 3] (-1) = [1; 2].
Proof. reflexivity. Qed.
Example ancestors_ex : FS.ancestors "out/clip1/x" = ["out"; "out/clip1"].
Proof. reflexivity. Qed.
Example video_filename_ex :
  video_filename 2 "city traffic at night" = "2_city_traffic_at_night.mp4".
Proof. reflexivity. Qed.
Example pad_sum : PrimFloat.eqb (12.4 + pad) 12.700000000000001 = true.
Proof. reflexivity. Qed.

(** The end-to-end scenario: two lines, one candidate kept per line, the
    companions present. Two segments are counted; the output folder ends
    with the merged file and the two companions; the encoder was asked
    for the duration 12.4 + 0.3. *)
Example end_to_end :
  let r := process_input (Demo.env false []) "in" "out" 1
             (Demo.scenario Demo.two_lines ".mp3") in
  r.1 = Ret 2 ∧
  FS.children (files r.2) "out/clip1"
    ≡ₚ ["clip1_merged.mp4"; "clip1.srt"; "clip1.mp3"] ∧
  files r.2 !! "out/clip1/clip1.mp3" = Some (File "audio") ∧
  files r.2 !! "out/clip1/clip1.srt" = Some (File "subs") ∧
  FS.children (files r.2) "out/clip1_temp" = [] ∧
  (cmd_inputs <$> procs r.2)
  = [[]; ["out/clip1/1_sunset_over_water.mp4";
          "out/clip1/2_city_traffic_at_night.mp4"; "out/clip1/clip1.mp3"]] ∧
  ∃ cmd pre, procs r.2 !! 1 = Some cmd ∧
    cmd = pre ++ ["-t"; "12.700000000000001"; "out/clip1/clip1_merged.mp4"].
Proof.
  vm_compute. repeat split; try reflexivity.
  eexists _, (_ :: _ :: _ :: _ :: _ :: _ :: _ :: _ :: _ :: _ :: _ :: _ :: _
              :: _ :: []).
  split; reflexivity.
Qed.

(** * The claims at concrete inputs *)

(** C1, as stated, fails. The removal loop of lines 116-121 catches the
    refusal of the operating system to unlink a segment and the merge
    still reports success. Here the job folder holds [1_a.mp4], [2_b.mp4],
    [a.mp3] and [a.srt], and [job/1_a.mp4] may not be unlinked: the merge
    returns the output path, and the segment is still there, with an error
    in the log. So it is not true that every merge that returns a path
    leaves none of the segment files. *)
Lemma merge_keeps_locked_segment :
  let E := Demo.env false ["job/1_a.mp4"] in
  let w := Demo.job ["a.srt"] in
  let r := merge_videos_with_srt E "job" w in
  (segments E (files w) "job" = ["job/1_a.mp4"; "job/2_b.mp4"] ∧
   r.1 = Ret (Some "job/job_merged.mp4") ∧
   files r.2 !! "job/job_merged.mp4" = Some (File "merged") ∧
   files r.2 !! "job/1_a.mp4" = Some (File "v1") ∧
   files r.2 !! "job/2_b.mp4" = None ∧
   (ERROR, VideoDeleteFailed "job/1_a.mp4" PermissionError) ∈ logs r.2) ∧
  ¬ (∀ E folder_path w,
       listing_ok E → encoder_frame E → encoder_not_in_place E →
       let r := merge_videos_with_srt E folder_path w in
       ∀ out, r.1 = Ret (Some out) →
         ∀ v, v ∈ segments E (files w) folder_path →
              FS.isfile (files w) v = true → files r.2 !! v = None).
Proof.
  split.
  { vm_compute. repeat split; try reflexivity.
    repeat (first [left | right]). }
  intros H.
  specialize (H (Demo.env false ["job/1_a.mp4"]) "job" (Demo.job ["a.srt"])
                (demo_listing_ok _ _) (demo_encoder_frame _ _)
                (demo_encoder_not_in_place _ _)
                "job/job_merged.mp4" eq_refl "job/1_a.mp4").
  assert ("job/1_a.mp4"
          ∈ segments (Demo.env false ["job/1_a.mp4"])
              (files (Demo.job ["a.srt"])) "job") as Hin.
  { vm_compute. left. }
  specialize (H Hin eq_refl). vm_compute in H. discriminate H.
Qed.

Lemma merge_postcondition_witness :
  let E := Demo.env false ["job/1_a.mp4"] in
  let w := Demo.job ["a.srt"] in
  let r := merge_videos_with_srt E "job" w in
  let segs := segments E (files w) "job" in
  match r.1 with
  | Ret (Some out) =>
      out = output_path "job" ∧
      (∃ c, files r.2 !! out = Some (File c) ∧ 0 < String.length c) ∧
      (∀ v, v ∈ segs →
         (FS.isfile (files r.2) v = false ∧
          (FS.isfile (files w) v = true → files r.2 !! v = None)) ∨
         (removable E v = false ∧
          files r.2 !! v = files w !! v ∧
          (ERROR, VideoDeleteFailed v PermissionError) ∈ logs r.2))
  | Ret None => ∀ v, v ∈ segs → files r.2 !! v = files w !! v
  | Raise _ => True
  end ∧
  (∀ n, n ∈ listing E (files w) "job" → is_video n = false →
     files r.2 !! Path.join "job" n = files w !! Path.join "job" n).
Proof.
  exact (merge_postcondition (Demo.env false ["job/1_a.mp4"])
           (demo_listing_ok _ _) (demo_encoder_frame _ _)
           (demo_encoder_not_in_place _ _) "job" (Demo.job ["a.srt"])).
Defined.

(** C4, as stated, fails. With the two subtitle files [a.srt] and [b.srt]
    in the job folder, next to two segments and the audio file, the merge
    does not fail up front: it runs the probe and the encoder and returns
    the output path. So it is not true that more than one subtitle file
    or audio file makes the merge fail at once. *)
Lemma merge_accepts_two_subtitles :
  let E := Demo.env false [] in
  let w := Demo.job ["a.srt"; "b.srt"] in
  let r := merge_videos_with_srt E "job" w in
  (filter (λ n, is_srt n = true) (listing E (files w) "job")
   = ["a.srt"; "b.srt"] ∧
   r.1 = Ret (Some "job/job_merged.mp4") ∧
   length (procs r.2) = 2) ∧
  ¬ (∀ E folder_path w,
       let names := listing E (files w) folder_path in
       files w !! folder_path = Some Dir →
       1 < length (filter (λ n, is_srt n = true) names) ∨
       1 < length (filter (λ n, is_audio n = true) names) →
       merge_videos_with_srt E folder_path w
       = (Ret None, add_log (ERROR, MergeInputsMissing folder_path) w)).
Proof.
  split.
  { vm_compute. repeat split; reflexivity. }
  intros H.
  specialize (H (Demo.env false []) "job" (Demo.job ["a.srt"; "b.srt"])
                eq_refl).
  assert (1 < length (filter (λ n, is_srt n = true)
                        (listing (Demo.env false [])
                           (files (Demo.job ["a.srt"; "b.srt"])) "job")))
    as Htwo.
  { vm_compute. lia. }
  specialize (H (or_introl Htwo)).
  apply (f_equal fst) in H. vm_compute in H. discriminate H.
Qed.

(** C3 (defect of the code). With [top_n = 2] and two search terms that
    each yield two candidates whose sources exist, four copies are made
    and counted, the sum over the terms of [min(2, candidates)] is four,
    and the job folder holds two segment files before the merge: the
    second copy of a term has replaced the first. *)
Theorem staged_count_top2 :
  let E := Demo.env false [] in
  let w := Demo.scenario Demo.two_lines ".mp3" in
  let r := select_and_stage E "in/clip1.txt" "out" 2 w in
  (∀ term, term ∈ Demo.two_lines →
     ∃ c1 c2, search_video_by_text E term "" (POSITIVE_THRESHOLD E)
                (NEGATIVE_THRESHOLD E) = [c1; c2] ∧
              FS.isfile (files w) (path c1) = true ∧
              FS.isfile (files w) (path c2) = true) ∧
  selected_count E 2 Demo.two_lines = 4 ∧
  r.1 = Ret ["out/clip1/1_sunset_over_water.mp4";
             "out/clip1/1_sunset_over_water.mp4";
             "out/clip1/2_city_traffic_at_night.mp4";
             "out/clip1/2_city_traffic_at_night.mp4"] ∧
  staged_names (files r.2) "out/clip1"
  = ["1_sunset_over_water.mp4"; "2_city_traffic_at_night.mp4"] ∧
  length (staged_names (files r.2) "out/clip1")
  ≠ selected_count E 2 Demo.two_lines ∧
  files r.2 !! "out/clip1/1_sunset_over_water.mp4" = Some (File "alt").
Proof.
  split.
  { intros term Hterm. unfold Demo.two_lines in Hterm.
    apply elem_of_cons in Hterm as [->|Hterm];
      [|apply list_elem_of_singleton in Hterm as ->];
      eexists _, _; repeat split; reflexivity. }
  vm_compute. repeat split; try reflexivity. lia.
Qed.

(** C2 (defect of the code). A script of ten lines, one candidate kept
    per line, a directory listing in lexicographic order. The ten staged
    names sorted lexicographically put the segment of line ten first, not
    last, and the encoder is given the segments in that order: the
    concatenation does not follow the script. *)
Theorem order_lost_at_ten :
  let E := Demo.env true [] in
  let w := Demo.scenario Demo.ten_lines ".mp3" in
  let script_order :=
    (λ it, video_filename it.1 it.2) <$> PyStr.enumerate 1 Demo.ten_lines in
  let staged := select_and_stage E "in/clip1.txt" "out" 1 w in
  let sorted := lex_sort (staged_names (files staged.2) "out/clip1") in
  let r := process_single_file E "in/clip1.txt" "out" 1 w in
  staged.1 = Ret (Path.join "out/clip1" <$> script_order) ∧
  sorted ≡ₚ script_order ∧
  sorted = ["10_j.mp4"; "1_a.mp4"; "2_b.mp4"; "3_c.mp4"; "4_d.mp4";
            "5_e.mp4"; "6_f.mp4"; "7_g.mp4"; "8_h.mp4"; "9_i.mp4"] ∧
  sorted ≠ script_order ∧
  (cmd_inputs <$> procs r.2) !! 1
  = Some ((Path.join "out/clip1" <$> sorted) ++ ["out/clip1/clip1.mp3"]).
Proof.
  vm_compute. split; [reflexivity|]. split.
  { apply Permutation_cons_append. }
  split; [reflexivity|]. split; [discriminate|reflexivity].
Qed.


(** The whole job for a script whose audio companion is [clip1.MP3]: the
    two segments and the companions are staged, the merge finds no audio
    and fails, nothing is merged. *)
Example uppercase_companion_run :
  let r := process_single_file (Demo.env false []) "in/clip1.txt" "out" 1
             (Demo.scenario Demo.two_lines ".MP3") in
  r.1 = Ret ["out/clip1/1_sunset_over_water.mp4";
             "out/clip1/2_city_traffic_at_night.mp4"] ∧
  files r.2 !! "out/clip1/clip1.MP3" = Some (File "audio") ∧
  (ERROR, MergeInputsMissing "out/clip1") ∈ logs r.2 ∧
  procs r.2 = [] ∧
  files r.2 !! "out/clip1/clip1_merged.mp4" = None.
Proof.
  vm_compute. repeat split; try reflexivity.
  repeat (first [left | right]).
Qed.

(** One candidate loop with a missing source between two copies: the
    missing candidate is skipped, the next one is still copied, and no
    metadata file is left. *)
Example missing_source_skipped :
  let E := Demo.env false [] in
  let w := Demo.prepared ["a"] ".mp3" in
  let cands := [Candidate "lib/a.mp4" "" "" 0.9%float;
                Candidate "lib/gone.mp4" "" "" 0.8%float;
                Candidate "lib/alt.mp4" "" "" 0.7%float] in
  let r := for_each (PyStr.enumerate 1 cands)
             (stage_candidate E "out/clip1_temp" "out/clip1" 1 "a") [] w in
  r.1 = Ret ["out/clip1/1_a.mp4"; "out/clip1/1_a.mp4"] ∧
  FS.children (files r.2) "out/clip1_temp" = [] ∧
  FS.children (files r.2) "out/clip1" = ["1_a.mp4"] ∧
  (ERROR, VideoMissing "lib/gone.mp4") ∈ logs r.2.
Proof.
  vm_compute. repeat split; try reflexivity.
  repeat (first [left | right]).
Qed.

(** A directory with two script files of which the first has no audio
    companion: its merge fails, the second file is processed all the
    same, and the copies of both are counted. *)
Example failed_merge_does_not_stop_batch :
  let E := Demo.env true [] in
  let w := set_files
             (<["in/clip0.txt" := File "a"]>
                (<["lib/a.mp4" := File "a"]>
                   (files (Demo.scenario Demo.two_lines ".mp3"))))
             (Demo.scenario Demo.two_lines ".mp3") in
  let r := process_input E "in" "out" 1 w in
  r.1 = Ret 3 ∧
  (ERROR, MergeInputsMissing "out/clip0") ∈ logs r.2 ∧
  (INFO, MergedVideo "out/clip1/clip1_merged.mp4") ∈ logs r.2 ∧
  lex_sort (FS.children (files r.2) "out/clip0") = ["1_a.mp4"] ∧
  lex_sort (FS.children (files r.2) "out/clip1")
  = ["clip1.mp3"; "clip1.srt"; "clip1_merged.mp4"].
Proof.
  vm_compute. repeat split; try reflexivity.
  - repeat (first [left | right]).
  - repeat (first [left | right]).
Qed.

(** * The decimal ordinals in the staged names *)

Section Ordinals.

Lemma all_digits_app a b :
  all_digits (a +:+ b) = all_digits a && all_digits b.
Proof.
  induction a as [|c a IH]; [done|].
  rewrite app_cons_str. cbn. by rewrite IH, andb_assoc.
Qed.

Lemma pretty_N_char_digit x : is_digit (pretty_N_char x) = true.
Proof.
  unfold pretty_N_char. repeat case_match; reflexivity.
Qed.

Lemma pretty_N_go_digits x s :
  ∃ ds, pretty_N_go x s = ds +:+ s ∧ all_digits ds = true ∧
        ((0 < x)%N → ds ≠ "").
Proof.
  revert s. induction (N.lt_wf_0 x) as [x _ IH]; intros s.
  assert (x = 0 ∨ 0 < x)%N as [->|Hx] by lia.
  - exists "". rewrite pretty_N_go_0. split; [done|]. split; [done|]. lia.
  - rewrite pretty_N_go_step by done.
    destruct (IH (x `div` 10)%N (N.div_lt x 10 Hx eq_refl)
                (String (pretty_N_char (x `mod` 10)) s))
      as (ds & Hds & Hall & _).
    exists (ds +:+ String (pretty_N_char (x `mod` 10)) "").
    split; [by rewrite app_assoc_str|]. split.
    + rewrite all_digits_app, Hall. cbn.
      by rewrite pretty_N_char_digit.
    + intros _ H%(f_equal String.length). rewrite length_app_str in H.
      cbn in H. lia.
Qed.

(** [str n] is a non-empty string of digits. *)
Lemma str_digits n : all_digits (PyStr.str n) = true ∧ PyStr.str n ≠ "".
Proof.
  unfold PyStr.str, pretty, pretty_nat, pretty, pretty_N.
  case_decide as Hn; [done|].
  destruct (pretty_N_go_digits (N.of_nat n) "") as (ds & -> & Hall & Hne).
  rewrite app_nil_r_str. split; [done|]. apply Hne. lia.
Qed.

(** A string of digits ends where the first character that is no digit
    stands. *)
Lemma digits_prefix_inj a b c s t :
  all_digits a = true → all_digits b = true → is_digit c = false →
  a +:+ String c s = b +:+ String c t → a = b ∧ s = t.
Proof.
  intros Ha Hb Hc. revert b Hb.
  induction a as [|x a IH]; intros [|y b] Hb H.
  - rewrite !app_nil_l_str in H. by injection H as ->.
  - rewrite app_nil_l_str, app_cons_str in H. injection H as <- _.
    cbn in Hb. by rewrite Hc in Hb.
  - rewrite app_nil_l_str, app_cons_str in H. injection H as -> _.
    cbn in Ha. by rewrite Hc in Ha.
  - rewrite !app_cons_str in H. injection H as -> H.
    cbn in Ha, Hb. apply andb_true_iff in Ha as [_ Ha].
    apply andb_true_iff in Hb as [_ Hb].
    destruct (IH Ha b Hb H) as [-> ->]. done.
Qed.

Lemma str_prefix_inj i j s t :
  PyStr.str i +:+ "_" +:+ s = PyStr.str j +:+ "_" +:+ t → i = j ∧ s = t.
Proof.
  intros H.
  destruct (digits_prefix_inj (PyStr.str i) (PyStr.str j) "_" s t) as [Hij ->];
    [apply str_digits..|done|exact H|].
  split; [|done]. by apply (inj pretty) in Hij.
Qed.

(** A name that starts with an ordinal is a relative path. *)
Lemma str_relative n s : PyStr.startswith (PyStr.str n +:+ s) "/" = false.
Proof.
  destruct (str_digits n) as [Hall Hne].
  destruct (PyStr.str n) as [|c ds]; [done|].
  rewrite app_cons_str. cbn. rewrite andb_true_r.
  apply bool_decide_eq_false_2. intros <-. by cbn in Hall.
Qed.

Lemma join_rel d n :
  PyStr.startswith n "/" = false → Path.join d n = Path.dirprefix d +:+ n.
Proof.
  intros Hn. unfold Path.join, Path.dirprefix. rewrite Hn.
  destruct (bool_decide (d = "") || PyStr.endswith d "/"); [done|].
  by rewrite app_assoc_str.
Qed.

Lemma relative_no_sep n : Path.has_sep n = false → PyStr.startswith n "/" = false.
Proof.
  intros Hn. destruct (PyStr.startswith n "/") eqn:H; [|done].
  apply startswith_sep in H. congruence.
Qed.

Lemma video_filename_relative i term :
  PyStr.startswith (video_filename i term) "/" = false.
Proof. apply str_relative. Qed.

Lemma metadata_filename_relative i j term :
  PyStr.startswith (metadata_filename i j term) "/" = false.
Proof. apply str_relative. Qed.

End Ordinals.

(** X1. The name of a staged segment starts with the number of the script
    line and the name of a metadata record with the numbers of the line
    and of the candidate: two destinations in one folder are the same path
    only for the same line, two metadata paths only for the same line and
    the same candidate rank (with terms that are equal once blanks are
    underscores). Segments of different lines never replace each other. *)
Theorem staged_paths_injective folder :
  (∀ i term j term',
     destination_path folder i term = destination_path folder j term' →
     i = j ∧ PyStr.replace " " "_" term = PyStr.replace " " "_" term') ∧
  (∀ i j term i' j' term',
     metadata_path folder i j term = metadata_path folder i' j' term' →
     i = i' ∧ j = j' ∧
     PyStr.replace " " "_" term = PyStr.replace " " "_" term').
Proof.
  split.
  - intros i term j term'. unfold destination_path.
    rewrite !join_rel by apply video_filename_relative.
    intros H%String.app_inj. unfold video_filename in H.
    apply str_prefix_inj in H as [-> H]. split; [done|].
    by apply app_inv_tail_str in H.
  - intros i j term i' j' term'. unfold metadata_path.
    rewrite !join_rel by apply metadata_filename_relative.
    intros H%String.app_inj. unfold metadata_filename in H.
    apply str_prefix_inj in H as [-> H].
    apply str_prefix_inj in H as [-> H]. split; [done|]. split; [done|].
    by apply app_inv_tail_str in H.
Qed.

(** * Frames: what a run leaves as it was *)

(** ** Paths below a folder *)

Section Under.

Implicit Types d e p s n : string.

Lemma under_refl d : FS.under d d = true.
Proof. unfold FS.under. by rewrite bool_decide_eq_true_2. Qed.

Lemma under_app d s : FS.under d (Path.dirprefix d +:+ s) = true.
Proof. unfold FS.under. rewrite startswith_app. apply orb_true_r. Qed.

Lemma under_join d n :
  Path.has_sep n = false → FS.under d (Path.join d n) = true.
Proof. intros Hn. rewrite join_relative by done. apply under_app. Qed.

Lemma under_inv d p :
  FS.under d p = true → p = d ∨ ∃ s, p = Path.dirprefix d +:+ s.
Proof.
  unfold FS.under. intros [H|H]%orb_true_iff.
  - left. by apply bool_decide_eq_true_1 in H.
  - right. by apply startswith_inv.
Qed.

Lemma dirprefix_extends e : ∃ t, Path.dirprefix e = e +:+ t.
Proof.
  unfold Path.dirprefix. destruct (_ || _).
  - exists "". by rewrite app_nil_r_str.
  - by exists "/".
Qed.

Lemma under_trans d e p :
  FS.under d e = true → FS.under e p = true → FS.under d p = true.
Proof.
  intros Hde Hep. apply under_inv in Hep as [->|[s ->]]; [done|].
  apply under_inv in Hde as [->|[r ->]]; [apply under_app|].
  destruct (dirprefix_extends (Path.dirprefix d +:+ r)) as [t ->].
  rewrite !app_assoc_str. apply under_app.
Qed.

Lemma not_under_trans d e p :
  FS.under d e = true → FS.under d p = false → FS.under e p = false.
Proof.
  intros Hde Hp. destruct (FS.under e p) eqn:Hep; [|done].
  by rewrite (under_trans d e p) in Hp.
Qed.

Lemma not_under_ne d p q :
  FS.under d p = true → FS.under d q = false → q ≠ p.
Proof. intros Hp Hq ->. by rewrite Hp in Hq. Qed.

End Under.

(** ** File-system operations that write below a folder *)

Section Kept.

Implicit Types st : gmap string node.
Implicit Types d p q src dst : string.

Lemma kept_outside_refl d st : kept_outside d st st.
Proof. by intros p x _ H. Qed.

Lemma kept_outside_trans d st1 st2 st3 :
  kept_outside d st1 st2 → kept_outside d st2 st3 → kept_outside d st1 st3.
Proof. intros H1 H2 p x Hp Hx. apply H2; [done|]. by apply H1. Qed.

Lemma kept_insert d st p x :
  FS.under d p = true → kept_outside d st (<[p := x]> st).
Proof.
  intros Hp q y Hq Hy. rewrite lookup_insert_ne; [done|].
  intros ->. by rewrite Hp in Hq.
Qed.

Lemma kept_delete d st p :
  FS.under d p = true → kept_outside d st (delete p st).
Proof.
  intros Hp q y Hq Hy. rewrite lookup_delete_ne; [done|].
  intros ->. by rewrite Hp in Hq.
Qed.

Lemma write_file_kept d st p c st' :
  FS.write_file st p c = Ret st' → FS.under d p = true →
  kept_outside d st st'.
Proof.
  unfold FS.write_file. destruct (FS.isdir st p); [done|].
  destruct (FS.parent_ok st p); [|done]. intros [= <-] Hp.
  by apply kept_insert.
Qed.

Lemma copy2_kept d st src dst st' :
  FS.copy2 st src dst = Ret st' → FS.under d dst = true →
  kept_outside d st st'.
Proof.
  intros (c & _ & [[_ ->]|[_ ->]])%copy2_frame Hd.
  - by apply kept_insert.
  - apply kept_insert. eapply under_trans; [done|].
    apply under_join, has_sep_basename.
Qed.

Lemma remove_kept d allowed st p st' :
  FS.remove allowed st p = Ret st' → FS.under d p = true →
  kept_outside d st st'.
Proof.
  unfold FS.remove. destruct (st !! p) as [[c|]|]; [|done..].
  destruct (allowed p); [|done]. intros [= <-] Hp. by apply kept_delete.
Qed.

Lemma rmtree_kept d allowed st p st' :
  FS.rmtree allowed st p = Ret st' → FS.under d p = true →
  kept_outside d st st'.
Proof.
  unfold FS.rmtree. destruct (st !! p) as [[c|]|]; [done| |done].
  destruct (forallb _ _); [|done]. intros [= <-] Hp q y Hq Hy.
  apply map_lookup_filter_Some. split; [done|]. cbn.
  by eapply not_under_trans.
Qed.

Lemma mkdir_all_keeps st (l : list string) q x :
  (∀ d, d ∈ l → FS.isfile st d = false) → st !! q = Some x →
  foldr (λ d m, <[d := Dir]> m) st l !! q = Some x.
Proof.
  intros Hl Hq. induction l as [|d l IH]; [done|]. cbn [foldr].
  destruct (decide (d = q)) as [->|Hne].
  - rewrite lookup_insert_eq.
    specialize (Hl q (list_elem_of_here _ _)). unfold FS.isfile in Hl.
    rewrite Hq in Hl. by destruct x.
  - rewrite lookup_insert_ne by done. apply IH. intros d' Hd'.
    apply Hl. by apply list_elem_of_further.
Qed.

(** [os.makedirs] leaves every node that is there as it is. *)
Lemma makedirs_keeps st p st' q x :
  FS.makedirs st p = Ret st' → st !! q = Some x → st' !! q = Some x.
Proof.
  unfold FS.makedirs. destruct (FS.isdir st p); [by intros [= <-]|].
  destruct (FS.isfile st p) eqn:Hf; [done|].
  destruct (existsb _ _) eqn:Hex; [done|]. intros [= <-] Hq.
  apply (mkdir_all_keeps st (p :: FS.ancestors p)); [|done].
  intros d [->|Hd]%elem_of_cons; [done|].
  destruct (FS.isfile st d) eqn:Hfd; [|done].
  assert (existsb (FS.isfile st) (FS.ancestors p) = true) as Hex'.
  { apply existsb_exists. exists d. split; [|done].
    by apply list_elem_of_In. }
  by rewrite Hex in Hex'.
Qed.

Lemma makedirs_kept d st p st' :
  FS.makedirs st p = Ret st' → kept_outside d st st'.
Proof. intros H q x _ Hq. by eapply makedirs_keeps. Qed.

End Kept.

(** ** Relations that every step of a computation preserves *)

Section Respects.

Context (R : relation world) `{!PreOrder R}.

Lemma respects_ret {A} (a : A) : respects R (ret a).
Proof. by intros w. Qed.

Lemma respects_raise {A} e : respects R (raise e : M A).
Proof. by intros w. Qed.

Lemma respects_bind_post {A B} (P : A → Prop) (m : M A) (k : A → M B) :
  respects R m →
  (∀ w a w', m w = (Ret a, w') → P a) →
  (∀ a, P a → respects R (k a)) →
  respects R (bind m k).
Proof.
  intros Hm HP Hk w. unfold bind. specialize (Hm w). specialize (HP w).
  destruct (m w) as [[a|e] w1]; [|done]. cbn in Hm.
  etrans; [done|]. apply Hk. by eapply HP.
Qed.

Lemma respects_bind {A B} (m : M A) (k : A → M B) :
  respects R m → (∀ a, respects R (k a)) → respects R (bind m k).
Proof.
  intros Hm Hk. apply (respects_bind_post (λ _, True)); [done|done|].
  intros a _. apply Hk.
Qed.

Lemma respects_try {A} (body : M A) catches handler :
  respects R body → (∀ e, respects R (handler e)) →
  respects R (try_except body catches handler).
Proof.
  intros Hb Hh w. unfold try_except. specialize (Hb w).
  destruct (body w) as [[a|e] w1]; [done|]. cbn in Hb.
  destruct (catches e); [|done]. etrans; [done|]. apply Hh.
Qed.

Lemma respects_for_each {A S} (l : list A) (body : S → A → M S) s :
  (∀ s x, x ∈ l → respects R (body s x)) → respects R (for_each l body s).
Proof.
  revert s. induction l as [|x l IH]; intros s Hb; cbn [for_each].
  - apply respects_ret.
  - apply respects_bind.
    + apply Hb. left.
    + intros s'. apply IH. intros s'' y Hy. apply Hb. by right.
Qed.

Lemma respects_fs_test f : respects R (fs_test f).
Proof. by intros w. Qed.

Lemma respects_fs_query {A} (f : gmap string node → outcome A) :
  respects R (fs_query f).
Proof. by intros w. Qed.

End Respects.

(** * Nothing outside the output folder is touched *)

Section Confined.

Variable E : collaborators.
Hypothesis listing_perm : listing_ok E.
Hypothesis frame : encoder_frame E.

Variable d : string.

#[local] Instance outside_kept_preorder : PreOrder (outside_kept d).
Proof.
  split.
  - intros w. apply kept_outside_refl.
  - intros w1 w2 w3. apply kept_outside_trans.
Qed.

Lemma logging_kept lv m : respects (outside_kept d) (logging lv m).
Proof. intros w. apply kept_outside_refl. Qed.

Lemma fs_update_kept f :
  (∀ st st', f st = Ret st' → kept_outside d st st') →
  respects (outside_kept d) (fs_update f).
Proof.
  intros Hf w. unfold fs_update. specialize (Hf (files w)).
  destruct (f (files w)) as [st|e]; [|apply kept_outside_refl].
  by apply Hf.
Qed.

Lemma listdir_kept folder : respects (outside_kept d) (listdir E folder).
Proof.
  intros w. unfold listdir.
  destruct (files w !! folder) as [[c|]|]; apply kept_outside_refl.
Qed.

Lemma listdir_simple folder w names w' :
  listdir E folder w = (Ret names, w') →
  ∀ n, n ∈ names → Path.simple_name n = true.
Proof.
  unfold listdir. destruct (files w !! folder) as [[c|]|]; [done| |done].
  intros [= <- <-] n. by apply listing_simple.
Qed.

Lemma read_text_kept p : respects (outside_kept d) (read_text E p).
Proof.
  apply respects_bind; [tc_solve|apply respects_fs_query; tc_solve|].
  intros bytes. destruct (decode_utf8 E bytes); by intros w.
Qed.

Lemma run_ffprobe_kept cmd : respects (outside_kept d) (run_ffprobe E cmd).
Proof.
  intros w. unfold run_ffprobe.
  destruct (ffprobe E cmd (files w)); apply kept_outside_refl.
Qed.

Lemma run_ffmpeg_kept cmd :
  FS.under d (cmd_output cmd) = true →
  respects (outside_kept d) (run_ffmpeg E cmd).
Proof.
  intros Hout w. unfold run_ffmpeg.
  assert (kept_outside d (files w) (ffmpeg E cmd (files w)).2) as Hk.
  { intros p x Hp Hx. destruct (frame cmd (files w) p) as [->|[-> _]]; [done|].
    by rewrite Hout in Hp. }
  destruct (ffmpeg E cmd (files w)) as [[[] out err|] st];
    first [exact Hk | apply kept_outside_refl].
Qed.

Lemma copy_audio_kept input_dir base_name output_folder exts :
  FS.under d output_folder = true →
  respects (outside_kept d) (copy_audio input_dir base_name output_folder exts).
Proof.
  intros Hd. induction exts as [|ext exts IH]; cbn [copy_audio].
  - apply logging_kept.
  - apply respects_bind; [tc_solve|apply respects_fs_test; tc_solve|].
    intros []; [|done].
    apply respects_bind; [tc_solve| |intros; apply logging_kept].
    apply fs_update_kept. intros st st' H. eapply copy2_kept; [done|].
    eapply under_trans; [done|]. apply under_join, has_sep_basename.
Qed.

Lemma copy_companions_kept input_file output_folder :
  FS.under d output_folder = true →
  respects (outside_kept d) (copy_audio_and_srt_files input_file output_folder).
Proof.
  intros Hd. unfold copy_audio_and_srt_files.
  apply respects_bind; [tc_solve|by apply copy_audio_kept|]. intros _.
  apply respects_bind; [tc_solve|apply respects_fs_test; tc_solve|].
  intros []; [|apply logging_kept].
  apply respects_bind; [tc_solve| |intros; apply logging_kept].
  apply fs_update_kept. intros st st' H. eapply copy2_kept; [done|].
  eapply under_trans; [done|]. apply under_join, has_sep_basename.
Qed.

Lemma delete_videos_kept videos :
  (∀ v, v ∈ videos → FS.under d v = true) →
  respects (outside_kept d) (delete_videos E videos).
Proof.
  intros Hv. unfold delete_videos. apply respects_for_each; [tc_solve|].
  intros _ v Hin. apply respects_try; [tc_solve| |intros; apply logging_kept].
  apply respects_bind; [tc_solve| |intros; apply logging_kept].
  apply fs_update_kept. intros st st' H. eapply remove_kept; [done|].
  by apply Hv.
Qed.

Lemma encode_and_clean_kept cmd videos output_file :
  cmd_output cmd = output_file → FS.under d output_file = true →
  (∀ v, v ∈ videos → FS.under d v = true) →
  respects (outside_kept d) (encode_and_clean E cmd videos output_file).
Proof.
  intros Hcmd Hout Hv. unfold encode_and_clean. apply respects_try; [tc_solve| |].
  - apply respects_bind; [tc_solve|apply run_ffmpeg_kept; by rewrite Hcmd|].
    intros stdout. apply respects_bind; [tc_solve|apply logging_kept|].
    intros _. apply respects_bind; [tc_solve|apply respects_fs_test; tc_solve|].
    intros present. apply respects_bind; [tc_solve| |].
    + destruct present; [|by intros w].
      apply respects_bind; [tc_solve|apply respects_fs_query; tc_solve|].
      by intros size w.
    + intros [].
      * apply respects_bind; [tc_solve|apply logging_kept|]. intros _.
        apply respects_bind; [tc_solve|by apply delete_videos_kept|].
        by intros _ w.
      * apply respects_bind; [tc_solve|apply logging_kept|]. by intros _ w.
  - intros e. apply respects_bind; [tc_solve|apply logging_kept|]. intros _.
    apply respects_bind; [tc_solve|apply logging_kept|]. by intros _ w.
Qed.

Lemma output_path_under folder_path :
  FS.under folder_path (output_path folder_path) = true.
Proof.
  apply under_join, simple_name_no_sep, output_name_simple.
Qed.

Lemma merge_kept folder_path :
  FS.under d folder_path = true →
  respects (outside_kept d) (merge_videos_with_srt E folder_path).
Proof.
  intros Hd. unfold merge_videos_with_srt.
  apply (respects_bind_post _
           (λ names, ∀ n, n ∈ names → Path.simple_name n = true));
    [apply listdir_kept|apply listdir_simple|].
  intros names Hnames.
  pose proof (scan_folder_spec folder_path names) as Hscan.
  destruct (scan_folder folder_path names) as [[srt videos] audio].
  injection Hscan as _ Hvid _.
  assert (∀ v, v ∈ videos → FS.under d v = true) as Hv.
  { intros v. rewrite Hvid.
    intros (n & -> & [_ Hn]%list_elem_of_filter)%list_elem_of_fmap.
    eapply under_trans; [done|].
    by apply under_join, simple_name_no_sep, Hnames. }
  clear Hvid.
  destruct srt as [srt|]; [|apply respects_bind;
    [tc_solve|apply logging_kept|by intros _ w]].
  destruct videos as [|video videos]; [apply respects_bind;
    [tc_solve|apply logging_kept|by intros _ w]|].
  destruct audio as [audio|]; [|apply respects_bind;
    [tc_solve|apply logging_kept|by intros _ w]].
  apply respects_bind; [tc_solve|apply read_text_kept|]. intros _.
  apply respects_bind; [tc_solve|apply run_ffprobe_kept|]. intros stdout.
  destruct (float_of_str E stdout) as [D|]; [|by intros w].
  apply respects_bind; [tc_solve|apply logging_kept|]. intros _.
  apply encode_and_clean_kept; [apply cmd_output_ffmpeg_command| |done].
  eapply under_trans; [done|]. apply output_path_under.
Qed.

Lemma stage_candidate_kept temp vid i term copied jr :
  FS.under d temp = true → FS.under d vid = true →
  respects (outside_kept d) (stage_candidate E temp vid i term copied jr).
Proof.
  intros Ht Hv. destruct jr as [j result]. unfold stage_candidate.
  assert (FS.under d (Path.join temp (metadata_filename i j term)) = true)
    as Hmp.
  { apply (under_trans d temp); [done|]. rewrite join_rel
      by apply metadata_filename_relative. apply under_app. }
  apply respects_bind; [tc_solve| |]. 
  { apply fs_update_kept. intros st st' H. by eapply write_file_kept. }
  intros _. apply respects_bind; [tc_solve|apply logging_kept|]. intros _.
  apply respects_bind; [tc_solve|apply respects_fs_test; tc_solve|].
  intros found. apply respects_bind; [tc_solve| |].
  - destruct found.
    + apply respects_bind; [tc_solve| |].
      * apply fs_update_kept. intros st st' H. eapply copy2_kept; [done|].
        apply (under_trans d vid); [done|]. rewrite join_rel
          by apply video_filename_relative. apply under_app.
      * intros _. apply respects_bind; [tc_solve|apply logging_kept|].
        by intros _ w.
    + apply respects_bind; [tc_solve|apply logging_kept|]. by intros _ w.
  - intros copied'. apply respects_bind; [tc_solve| |].
    { apply fs_update_kept. intros st st' H. by eapply remove_kept. }
    intros _. apply respects_bind; [tc_solve|apply logging_kept|].
    by intros _ w.
Qed.

Lemma process_term_kept temp vid top_n copied it :
  FS.under d temp = true → FS.under d vid = true →
  respects (outside_kept d) (process_term E temp vid top_n copied it).
Proof.
  intros Ht Hv. destruct it as [i term]. unfold process_term.
  apply respects_bind; [tc_solve|apply logging_kept|]. intros _.
  destruct (search_video_by_text E term "" _ _) as [|c results].
  - apply respects_bind; [tc_solve|apply logging_kept|]. by intros _ w.
  - apply respects_for_each; [tc_solve|]. intros copied' jr _.
    by apply stage_candidate_kept.
Qed.

Lemma base_name_under output_folder input_file suffix :
  Path.has_sep suffix = false →
  FS.under output_folder
    (Path.join output_folder
       ((Path.splitext (Path.basename input_file)).1 +:+ suffix)) = true.
Proof.
  intros Hs. apply under_join. rewrite has_sep_app, base_name_no_sep.
  by rewrite Hs.
Qed.

Lemma video_folder_under output_folder input_file :
  FS.under output_folder
    (Path.join output_folder (Path.splitext (Path.basename input_file)).1)
  = true.
Proof. apply under_join, base_name_no_sep. Qed.

Lemma select_and_stage_kept input_file top_n :
  respects (outside_kept d) (select_and_stage E input_file d top_n).
Proof.
  unfold select_and_stage.
  pose proof (base_name_under d input_file "_temp" eq_refl) as Ht.
  pose proof (video_folder_under d input_file) as Hv.
  apply respects_bind; [tc_solve| |].
  { apply fs_update_kept. intros st st'. apply makedirs_kept. }
  intros _. apply respects_bind; [tc_solve| |].
  { apply fs_update_kept. intros st st'. apply makedirs_kept. }
  intros _. apply respects_bind; [tc_solve|apply read_text_kept|].
  intros text. apply respects_bind; [tc_solve| |].
  { apply respects_for_each; [tc_solve|]. intros copied it _.
    by apply process_term_kept. }
  intros copied. apply respects_bind; [tc_solve|by apply copy_companions_kept|].
  intros _. apply respects_bind; [tc_solve| |].
  { apply fs_update_kept. intros st st' H. by eapply rmtree_kept. }
  intros _. apply respects_bind; [tc_solve|apply logging_kept|].
  by intros _ w.
Qed.

Lemma process_single_file_kept input_file top_n :
  respects (outside_kept d) (process_single_file E input_file d top_n).
Proof.
  unfold process_single_file.
  apply respects_bind; [tc_solve|apply select_and_stage_kept|].
  intros copied. apply respects_bind; [tc_solve| |].
  { apply merge_kept, video_folder_under. }
  intros merged. apply respects_bind; [tc_solve| |by intros _ w].
  destruct merged; apply logging_kept.
Qed.

Lemma process_input_kept input_path top_n :
  respects (outside_kept d) (process_input E input_path d top_n).
Proof.
  unfold process_input.
  apply respects_bind; [tc_solve|apply respects_fs_test; tc_solve|].
  intros is_file. destruct (is_file && _).
  - apply respects_bind; [tc_solve|apply logging_kept|]. intros _.
    apply respects_bind; [tc_solve|apply process_single_file_kept|].
    by intros copied w.
  - apply respects_bind; [tc_solve|apply respects_fs_test; tc_solve|].
    intros [].
    + apply respects_bind; [tc_solve|apply listdir_kept|]. intros names.
      apply respects_for_each; [tc_solve|]. intros total filename _.
      unfold process_listed. destruct (PyStr.endswith filename ".txt");
        [|by intros w].
      apply respects_bind; [tc_solve|apply logging_kept|]. intros _.
      apply respects_bind; [tc_solve|apply process_single_file_kept|].
      by intros copied w.
    + apply respects_bind; [tc_solve|apply logging_kept|]. by intros _ w.
Qed.

End Confined.

(** X2. Whatever the input and however the run ends (a count returned or
    an exception raised), [process_input] leaves every file and directory
    that exists outside [output_folder] as it was: nothing there is
    rewritten or removed. Paths are taken as the strings they are, a
    component [..] is not resolved. It is proved for a directory listing
    that returns the names in the directory and an encoder that writes
    nothing but its output file. *)
Theorem output_folder_confines E input_path output_folder top_n w p x :
  listing_ok E → encoder_frame E →
  FS.under output_folder p = false →
  files w !! p = Some x →
  files (process_input E input_path output_folder top_n w).2 !! p = Some x.
Proof.
  intros Hl Hf Hp Hx.
  by apply (process_input_kept E Hl Hf output_folder input_path top_n w).
Qed.

Lemma output_folder_confines_witness :
  let E := Demo.env false [] in
  let w := Demo.scenario Demo.two_lines ".mp3" in
  files (process_input E "in" "out" 1 w).2 !! "lib/alt.mp4"
  = Some (File "alt").
Proof.
  apply (output_folder_confines (Demo.env false []) "in" "out" 1
           (Demo.scenario Demo.two_lines ".mp3") "lib/alt.mp4" (File "alt")
           (demo_listing_ok false []) (demo_encoder_frame false [])).
  - vm_compute. reflexivity.
  - vm_compute. reflexivity.
Defined.

(** * The returned count and the log *)

Section Counted.

Variable E : collaborators.

#[local] Instance logs_no_copy_preorder : PreOrder logs_no_copy.
Proof.
  split.
  - intros w. exists []. by rewrite app_nil_r.
  - intros w1 w2 w3 (l1 & H1 & Hc1) (l2 & H2 & Hc2). exists (l1 ++ l2).
    rewrite H2, H1, <-app_assoc, logged_copies_app, Hc1, Hc2. done.
Qed.

Lemma same_logs_no_copy w w' : logs w' = logs w → logs_no_copy w w'.
Proof. intros H. exists []. by rewrite app_nil_r. Qed.

Lemma logging_quiet lv m :
  (∀ dst, m ≠ VideoCopied dst) → respects logs_no_copy (logging lv m).
Proof.
  intros Hm w. exists [(lv, m)]. split; [done|]. cbn.
  destruct m; try done. exfalso. by eapply Hm.
Qed.

Lemma fs_update_quiet f : respects logs_no_copy (fs_update f).
Proof.
  intros w. apply same_logs_no_copy. unfold fs_update.
  by destruct (f (files w)).
Qed.

Lemma listdir_quiet folder : respects logs_no_copy (listdir E folder).
Proof.
  intros w. apply same_logs_no_copy. unfold listdir.
  by destruct (files w !! folder) as [[c|]|].
Qed.

Lemma read_text_quiet p : respects logs_no_copy (read_text E p).
Proof.
  apply respects_bind; [tc_solve|apply respects_fs_query; tc_solve|].
  intros bytes. destruct (decode_utf8 E bytes); by intros w.
Qed.

Lemma run_ffprobe_quiet cmd : respects logs_no_copy (run_ffprobe E cmd).
Proof.
  intros w. apply same_logs_no_copy. unfold run_ffprobe.
  by destruct (ffprobe E cmd (files w)).
Qed.

Lemma run_ffmpeg_quiet cmd : respects logs_no_copy (run_ffmpeg E cmd).
Proof.
  intros w. apply same_logs_no_copy. unfold run_ffmpeg.
  by destruct (ffmpeg E cmd (files w)) as [[[] out err|] st].
Qed.

Ltac quiet :=
  repeat first
    [ apply logging_quiet; done
    | apply fs_update_quiet
    | apply listdir_quiet
    | apply read_text_quiet
    | apply run_ffprobe_quiet
    | apply run_ffmpeg_quiet
    | apply respects_fs_test; tc_solve
    | apply respects_fs_query; tc_solve
    | apply respects_ret; tc_solve
    | apply respects_raise; tc_solve
    | apply respects_bind; [tc_solve| |intros ?]
    | apply respects_try; [tc_solve| |intros ?]
    | apply respects_for_each; [tc_solve|intros ? ? _] ].

Lemma copy_audio_quiet input_dir base_name output_folder exts :
  respects logs_no_copy (copy_audio input_dir base_name output_folder exts).
Proof.
  induction exts as [|ext exts IH]; cbn [copy_audio]; [quiet|].
  apply respects_bind; [tc_solve|quiet|]. intros []; [quiet|done].
Qed.

Lemma copy_companions_quiet input_file output_folder :
  respects logs_no_copy (copy_audio_and_srt_files input_file output_folder).
Proof.
  unfold copy_audio_and_srt_files.
  apply respects_bind; [tc_solve|apply copy_audio_quiet|]. intros _.
  apply respects_bind; [tc_solve|quiet|]. intros []; quiet.
Qed.

Lemma delete_videos_quiet videos :
  respects logs_no_copy (delete_videos E videos).
Proof. unfold delete_videos. quiet. Qed.

Lemma encode_and_clean_quiet cmd videos output_file :
  respects logs_no_copy (encode_and_clean E cmd videos output_file).
Proof.
  unfold encode_and_clean. apply respects_try; [tc_solve| |intros e; quiet].
  apply respects_bind; [tc_solve|quiet|]. intros stdout.
  apply respects_bind; [tc_solve|quiet|]. intros _.
  apply respects_bind; [tc_solve|quiet|]. intros present.
  apply respects_bind; [tc_solve|destruct present; quiet|].
  intros []; [|quiet].
  apply respects_bind; [tc_solve|quiet|]. intros _.
  apply respects_bind; [tc_solve|apply delete_videos_quiet|]. intros _. quiet.
Qed.

Lemma merge_quiet folder_path :
  respects logs_no_copy (merge_videos_with_srt E folder_path).
Proof.
  unfold merge_videos_with_srt. apply respects_bind; [tc_solve|quiet|].
  intros names.
  destruct (scan_folder folder_path names) as [[[srt|] [|video videos]] [audio|]];
    try quiet.
  destruct (float_of_str E _) as [D|]; [|quiet].
  apply respects_bind; [tc_solve|quiet|]. intros _.
  apply encode_and_clean_quiet.
Qed.

Lemma quiet_step {A} (m : M A) w r w' :
  respects logs_no_copy m → m w = (r, w') → logs_no_copy w w'.
Proof. intros Hm H. specialize (Hm w). by rewrite H in Hm. Qed.

(** The copies a computation returns are the ones it has logged. *)
Lemma select_and_stage_logged input_file output_folder top_n w copied w' :
  select_and_stage E input_file output_folder top_n w = (Ret copied, w') →
  ∃ l, logs w' = logs w ++ l ∧ copied = logged_copies l.
Proof.
  unfold select_and_stage.
  intros ([] & w1 & H1 & H)%bind_ret_inv.
  apply bind_ret_inv in H as ([] & w2 & H2 & H).
  apply bind_ret_inv in H as (text & w3 & H3 & H).
  apply bind_ret_inv in H as (c & w4 & H4 & H).
  apply bind_ret_inv in H as ([] & w5 & H5 & H).
  apply bind_ret_inv in H as ([] & w6 & H6 & H).
  apply bind_ret_inv in H as ([] & w7 & H7 & [= <- <-]).
  pose proof (quiet_step _ _ _ _ (fs_update_quiet _) H1) as Q1.
  pose proof (quiet_step _ _ _ _ (fs_update_quiet _) H2) as Q2.
  pose proof (quiet_step _ _ _ _ (read_text_quiet _) H3) as Q3.
  apply stage_terms_staged in H4 as (_ & (l4 & Hl4 & Hc & _) & _).
  pose proof (quiet_step _ _ _ _ (copy_companions_quiet _ _) H5) as Q5.
  pose proof (quiet_step _ _ _ _ (fs_update_quiet _) H6) as Q6.
  assert (logs_no_copy w6 w7) as Q7
    by (injection H7 as <-; by eexists [_]).
  assert (logs_no_copy w w3) as (la & Ha & Hca)
    by (etrans; [exact Q1|]; etrans; [exact Q2|exact Q3]).
  assert (logs_no_copy w4 w7) as (lb & Hb & Hcb)
    by (etrans; [exact Q5|]; etrans; [exact Q6|exact Q7]).
  exists (la ++ l4 ++ lb).
  rewrite Hb, Hl4, Ha, <-!app_assoc, !logged_copies_app, Hca, Hcb, Hc.
  by rewrite app_nil_r.
Qed.

Lemma process_single_file_logged input_file output_folder top_n w copied w' :
  process_single_file E input_file output_folder top_n w = (Ret copied, w') →
  ∃ l, logs w' = logs w ++ l ∧ copied = logged_copies l.
Proof.
  unfold process_single_file.
  intros (c & w1 & H1 & H)%bind_ret_inv.
  apply bind_ret_inv in H as (merged & w2 & H2 & H).
  apply bind_ret_inv in H as ([] & w3 & H3 & [= <- <-]).
  apply select_and_stage_logged in H1 as (l1 & Hl1 & ->).
  pose proof (quiet_step _ _ _ _ (merge_quiet _) H2) as Q2.
  assert (logs_no_copy w2 w3) as Q3.
  { destruct merged; injection H3 as <-; by eexists [_]. }
  assert (logs_no_copy w1 w3) as (lb & Hb & Hcb) by (etrans; done).
  exists (l1 ++ lb). rewrite Hb, Hl1, <-app_assoc, logged_copies_app, Hcb.
  by rewrite app_nil_r.
Qed.

Lemma process_listed_logged input_path output_folder top_n names :
  ∀ total w total' w',
    for_each names (process_listed E input_path output_folder top_n) total w
      = (Ret total', w') →
    ∃ l, logs w' = logs w ++ l ∧ total' = total + length (logged_copies l).
Proof.
  induction names as [|filename names IH]; intros total w total' w'.
  - intros [= <- <-]. exists []. by rewrite app_nil_r, Nat.add_0_r.
  - cbn [for_each]. intros (t1 & w1 & H1 & H)%bind_ret_inv.
    apply IH in H as (l2 & Hl2 & ->). unfold process_listed in H1.
    destruct (PyStr.endswith filename ".txt").
    + apply bind_ret_inv in H1 as ([] & w0 & [= <-] & H1).
      apply bind_ret_inv in H1 as (copied & w1' & H1 & [= <- <-]).
      apply process_single_file_logged in H1 as (l1 & Hl1 & ->).
      exists ((INFO, ProcessingFile (Path.join input_path filename))
              :: l1 ++ l2).
      rewrite Hl2, Hl1. cbn [logs add_log]. rewrite <-!app_assoc. cbn.
      split; [done|]. rewrite logged_copies_app, length_app. lia.
    + injection H1 as <- <-. by exists l2.
Qed.

End Counted.

(** X3. When [process_input] returns, the number it returns is the number
    of "video copied" entries the run has added to the log: every copy
    counted was logged with its destination and every logged copy is
    counted, for a single script as for a directory of scripts. *)
Theorem returned_count_is_logged E input_path output_folder top_n w total w' :
  process_input E input_path output_folder top_n w = (Ret total, w') →
  ∃ l, logs w' = logs w ++ l ∧ total = length (logged_copies l).
Proof.
  unfold process_input. intros (is_file & w0 & [= <- <-] & H)%bind_ret_inv.
  destruct (FS.isfile (files w) input_path && _).
  - apply bind_ret_inv in H as ([] & w1 & [= <-] & H).
    apply bind_ret_inv in H as (copied & w2 & H & [= <- <-]).
    apply process_single_file_logged in H as (l & Hl & ->).
    exists ((INFO, ProcessingSingle input_path) :: l). rewrite Hl.
    cbn [logs add_log]. by rewrite <-app_assoc.
  - apply bind_ret_inv in H as (is_dir & w1 & [= <- <-] & H).
    destruct (FS.isdir (files w) input_path).
    + apply bind_ret_inv in H as (names & w2 & Hn & H).
      assert (w2 = w) as ->.
      { unfold listdir in Hn.
        by destruct (files w !! input_path) as [[c|]|]; simplify_eq. }
      apply process_listed_logged in H as (l & Hl & ->). by exists l.
    + apply bind_ret_inv in H as ([] & w2 & [= <-] & [= <- <-]).
      by exists [(ERROR, InvalidInput input_path)].
Qed.

Lemma returned_count_is_logged_witness :
  let E := Demo.env false [] in
  let w := Demo.scenario Demo.two_lines ".mp3" in
  ∃ l, logs (process_input E "in" "out" 1 w).2 = logs w ++ l ∧
       2 = length (logged_copies l).
Proof.
  apply (returned_count_is_logged (Demo.env false []) "in" "out" 1
           (Demo.scenario Demo.two_lines ".mp3") 2).
  vm_compute. reflexivity.
Defined.

(** * More on the merge: its footprint, its log, a second run *)

Section MergeMore.

Variable E : collaborators.

Lemma merge_footprint folder_path w r w' p :
  encoder_frame E →
  merge_result E folder_path w r w' →
  p ∉ segments E (files w) folder_path →
  p ≠ output_path folder_path →
  files w' !! p = files w !! p.
Proof.
  intros frame H Hseg Hout.
  assert (∀ pl res st,
            ffmpeg E (plan_command E folder_path pl) (files w) = (res, st) →
            st !! p = files w !! p) as Henc.
  { intros pl res st Hrun.
    pose proof (frame (plan_command E folder_path pl) (files w) p) as F.
    rewrite Hrun in F. destruct F as [F|[F _]]; [done|].
    unfold plan_command in F. by rewrite cmd_output_ffmpeg_command in F. }
  inversion H as
    [ e Hdir | srt vs au Hdir Hscan Hmiss | e | au | pl w0 Hpl Hfiles Hprocs
    | pl so se st w0 Hpl Hrun Hfiles Hprocs
    | pl so se st w0 Hpl Hrun Hgood Hfiles Hprocs
    | pl so se st w0 Hpl Hrun Hgood Hfiles Hleft Hprocs ]; subst; try done.
  - by rewrite Hfiles.
  - by eapply Henc.
  - by eapply Henc.
  - destruct (Hfiles p) as [->|(Hin & _)]; [by eapply Henc|].
    by rewrite (planned_videos E _ _ _ Hpl) in Hin.
Qed.

Lemma merge_blocked folder_path w r w' :
  listing_ok E → encoder_not_in_place E →
  is_Some (files w !! output_path folder_path) →
  merge_result E folder_path w r w' →
  (∀ out, r ≠ Ret (Some out)) ∧ files w' = files w.
Proof.
  intros listing_perm not_in_place Hout H.
  assert (∀ pl, planned E folder_path w pl →
            ∃ out err,
              ffmpeg E (plan_command E folder_path pl) (files w)
              = (Exited false out err, files w)) as Href.
  { intros pl Hpl. apply encoder_refuses_segment_output; [done|].
    rewrite (planned_videos E _ _ _ Hpl). by apply output_is_segment. }
  inversion H as
    [ e Hdir | srt vs au Hdir Hscan Hmiss | e | au | pl w0 Hpl Hfiles Hprocs
    | pl so se st w0 Hpl Hrun Hfiles Hprocs
    | pl so se st w0 Hpl Hrun Hgood Hfiles Hprocs
    | pl so se st w0 Hpl Hrun Hgood Hfiles Hleft Hprocs ]; subst;
    try (destruct (Href pl Hpl) as (out' & err' & Hrun'); rewrite Hrun in Hrun';
         simplify_eq);
    done.
Qed.

Lemma merge_success_output folder_path w out w' :
  encoder_not_in_place E →
  merge_result E folder_path w (Ret (Some out)) w' →
  is_Some (files w' !! output_path folder_path).
Proof.
  intros not_in_place H.
  inversion H as
    [ | | | | | |
    | pl so se st w0 Hpl Hrun Hgood Hfiles Hleft Hprocs ]; subst.
  pose proof (success_output_fresh E not_in_place _ _ _ _ _ _ Hrun) as Hfresh.
  destruct (Hfiles (output_path folder_path)) as [->|(Hin & _)]; [|done].
  unfold output_good in Hgood.
  by destruct (st !! output_path folder_path).
Qed.

Lemma merge_logs_of folder_path w r w' :
  merge_videos_with_srt E folder_path w = (r, w') →
  match r with
  | Ret None => ∃ m, last (logs w') = Some (ERROR, m)
  | Ret (Some out) =>
      out = output_path folder_path ∧
      (INFO, MergeSucceeded out) ∈ logs w'
  | Raise _ => ∃ l, logs w' = logs w ++ l ∧ ∀ m, (ERROR, m) ∉ l
  end.
Proof.
  assert (∀ w0 : world, logs w0 = logs w →
            ∃ l, logs w0 = logs w ++ l ∧ ∀ m, (ERROR, m) ∉ l) as Hsame.
  { intros w0 ->. exists []. split; [by rewrite app_nil_r|].
    intros m. apply not_elem_of_nil. }
  unfold merge_videos_with_srt, bind at 1, listdir.
  destruct (files w !! folder_path) as [[c|]|] eqn:Hdir;
    [intros [= <- <-]; by apply Hsame| |intros [= <- <-]; by apply Hsame].
  destruct (scan_folder folder_path (listing E (files w) folder_path))
    as [[srt videos] audio] eqn:Hscan.
  assert (∀ w0 m, last (logs (add_log (ERROR, m) w0)) = Some (ERROR, m))
    as Hlast by (intros; apply last_snoc).
  destruct srt as [srt|]; [|intros [= <- <-]; by eexists].
  destruct videos as [|video videos]; [intros [= <- <-]; by eexists|].
  destruct audio as [audio|]; [|intros [= <- <-]; by eexists].
  unfold bind at 1, read_text, bind at 1, fs_query.
  destruct (FS.read_file (files w) srt) as [bytes|e];
    [|intros [= <- <-]; by apply Hsame].
  destruct (decode_utf8 E bytes) as [text|];
    [|intros [= <- <-]; by apply Hsame].
  unfold ret at 1, bind at 1, run_ffprobe.
  destruct (ffprobe E (ffprobe_command audio) (files w))
    as [ok so se|]; [|intros [= <- <-]; by apply Hsame].
  destruct (float_of_str E so) as [D|];
    [|intros [= <- <-]; by apply Hsame].
  unfold bind at 1, logging at 1.
  rewrite encode_and_clean_eq. cbn [files add_log add_proc].
  destruct (ffmpeg E _ (files w)) as [[[] so' se'|] st].
  - cbn zeta. destruct (output_good st (output_path folder_path)).
    + match goal with |- context [delete_videos E ?vs ?w0] =>
        destruct (delete_videos_spec E vs w0) as (w2 & Hrun & _ & [l Hl] & _)
      end.
      rewrite Hrun. cbn [fst snd]. intros [= <- <-]. split; [done|].
      rewrite Hl. cbn [logs add_log]. apply elem_of_app. left.
      apply elem_of_app. right. left.
    + intros [= <- <-]. by eexists.
  - intros [= <- <-]. by eexists.
  - intros [= <- <-]. cbn [logs]. eexists. split; [done|].
    intros m [=]%list_elem_of_singleton.
Qed.

End MergeMore.

(** X4. A merge rewrites or removes nothing but the video segments of its
    folder and its output file: however it ends, every other path of the
    file system (the audio and subtitle files of the folder, and every
    path outside it) holds what it held before. It is proved for an
    encoder that writes nothing but its output file. *)
Theorem merge_touches_only_segments E folder_path w p :
  encoder_frame E →
  p ∉ segments E (files w) folder_path →
  p ≠ output_path folder_path →
  files (merge_videos_with_srt E folder_path w).2 !! p = files w !! p.
Proof.
  intros frame Hseg Hout.
  by eapply merge_footprint; [|apply merge_cases| |].
Qed.

Lemma merge_touches_only_segments_witness :
  let E := Demo.env false [] in
  let w := Demo.job ["a.srt"] in
  files (merge_videos_with_srt E "job" w).2 !! "job/a.mp3"
  = files w !! "job/a.mp3".
Proof.
  apply (merge_touches_only_segments (Demo.env false []) "job"
           (Demo.job ["a.srt"]) "job/a.mp3" (demo_encoder_frame false [])).
  - vm_compute. intros H. repeat (apply elem_of_cons in H as [H|H]; [done|]).
    by apply elem_of_nil in H.
  - vm_compute. done.
Defined.

(** X5. A merge cannot be repeated. When the output file
    [<folder>/<folder name>_merged.mp4] is already there, it is listed as
    one more segment and so is an input of the encoder, which refuses to
    write onto it: the merge never returns a path and leaves every file
    as it is. In particular, after a merge that returned a path, a second
    merge of the same folder fails and changes no file. It is proved for
    a directory listing that returns the names in the directory and an
    encoder that refuses an output path that is one of its inputs. *)
Theorem merge_not_repeatable E folder_path w :
  listing_ok E → encoder_not_in_place E →
  let blocked w0 :=
    (∀ out, (merge_videos_with_srt E folder_path w0).1 ≠ Ret (Some out)) ∧
    files (merge_videos_with_srt E folder_path w0).2 = files w0 in
  (is_Some (files w !! output_path folder_path) → blocked w) ∧
  (∀ out, (merge_videos_with_srt E folder_path w).1 = Ret (Some out) →
          blocked (merge_videos_with_srt E folder_path w).2).
Proof.
  intros listing_perm not_in_place blocked.
  assert (∀ w0, is_Some (files w0 !! output_path folder_path) → blocked w0)
    as Hblocked.
  { intros w0 Hout.
    by eapply merge_blocked; [| | |apply merge_cases]. }
  split; [apply Hblocked|]. intros out Hret. apply Hblocked.
  pose proof (merge_cases E folder_path w) as H. rewrite Hret in H.
  by eapply merge_success_output.
Qed.

Lemma merge_not_repeatable_witness :
  let E := Demo.env false [] in
  let w := Demo.job ["a.srt"] in
  let blocked w0 :=
    (∀ out, (merge_videos_with_srt E "job" w0).1 ≠ Ret (Some out)) ∧
    files (merge_videos_with_srt E "job" w0).2 = files w0 in
  (is_Some (files w !! output_path "job") → blocked w) ∧
  (∀ out, (merge_videos_with_srt E "job" w).1 = Ret (Some out) →
          blocked (merge_videos_with_srt E "job" w).2).
Proof.
  exact (merge_not_repeatable (Demo.env false []) "job" (Demo.job ["a.srt"])
           (demo_listing_ok false []) (demo_encoder_not_in_place false [])).
Defined.

(** A first merge of the demo job succeeds, a second one on what it left
    takes the merged file as a segment, is refused by the encoder and
    returns nothing. *)
Example second_merge_refused :
  let E := Demo.env false [] in
  let r1 := merge_videos_with_srt E "job" (Demo.job ["a.srt"]) in
  let r2 := merge_videos_with_srt E "job" r1.2 in
  r1.1 = Ret (Some "job/job_merged.mp4") ∧
  r2.1 = Ret None ∧
  files r2.2 = files r1.2 ∧
  cmd_inputs <$> procs r2.2
  = [[]; ["job/1_a.mp4"; "job/2_b.mp4"; "job/a.mp3"];
     []; ["job/job_merged.mp4"; "job/a.mp3"]].
Proof. vm_compute. repeat split; reflexivity. Qed.

(** X6. The log tells how a merge ended. When it returns no path, the
    last entry of the log is an error; when it returns a path, this is
    the output path of the folder and the log holds the success entry for
    it; when it raises, it has logged no error. *)
Theorem merge_verdict_logged E folder_path w :
  let r := merge_videos_with_srt E folder_path w in
  match r.1 with
  | Ret None => ∃ m, last (logs r.2) = Some (ERROR, m)
  | Ret (Some out) =>
      out = output_path folder_path ∧
      (INFO, MergeSucceeded out) ∈ logs r.2
  | Raise _ => ∃ l, logs r.2 = logs w ++ l ∧ ∀ m, (ERROR, m) ∉ l
  end.
Proof.
  intros r. apply (merge_logs_of E folder_path w). subst r.
  by destruct (merge_videos_with_srt _ _ _).
Qed.

(** * The script file, the candidates taken and the audio companion *)

Section Scripts.

Variable E : collaborators.

Lemma mkdir_all_file (st : gmap string node) (l : list string) q c :
  foldr (λ d m, <[d := Dir]> m) st l !! q = Some (File c) →
  st !! q = Some (File c).
Proof.
  induction l as [|d l IH]; [done|]. cbn [foldr].
  destruct (decide (d = q)) as [->|Hne].
  - by rewrite lookup_insert_eq.
  - by rewrite lookup_insert_ne.
Qed.

(** [os.makedirs] creates directories only. *)
Lemma makedirs_file st p st' q c :
  FS.makedirs st p = Ret st' → st' !! q = Some (File c) →
  st !! q = Some (File c).
Proof.
  unfold FS.makedirs. destruct (FS.isdir st p); [by intros [= <-]|].
  destruct (FS.isfile st p); [done|]. destruct (existsb _ _); [done|].
  intros [= <-]. apply (mkdir_all_file st (p :: FS.ancestors p)).
Qed.

Lemma makedirs_isfile st p st' q :
  FS.makedirs st p = Ret st' → FS.isfile st' q = FS.isfile st q.
Proof.
  intros H. unfold FS.isfile.
  destruct (st' !! q) as [[c|]|] eqn:H'.
  - by rewrite (makedirs_file _ _ _ _ _ H H').
  - destruct (st !! q) as [[c|]|] eqn:Hq; [|done..].
    by rewrite (makedirs_keeps _ _ _ _ _ H Hq) in H'.
  - destruct (st !! q) as [[c|]|] eqn:Hq; [|done..].
    by rewrite (makedirs_keeps _ _ _ _ _ H Hq) in H'.
Qed.

Lemma read_text_not_file input_file w :
  FS.isfile (files w) input_file = false →
  ∃ e, read_text E input_file w = (Raise e, w).
Proof.
  unfold FS.isfile, read_text, bind, fs_query, FS.read_file.
  destruct (files w !! input_file) as [[c|]|]; [done|by eexists..].
Qed.

Lemma select_and_stage_unreadable input_file output_folder top_n w :
  FS.isfile (files w) input_file = false →
  ∃ e w', select_and_stage E input_file output_folder top_n w = (Raise e, w') ∧
    logs w' = logs w ∧ procs w' = procs w ∧
    ∀ p, FS.isfile (files w') p = FS.isfile (files w) p.
Proof.
  intros Hf. unfold select_and_stage, bind at 1, fs_update at 1.
  destruct (FS.makedirs (files w) _) as [st1|e] eqn:H1; [|by exists e, w].
  unfold bind at 1, fs_update at 1. cbn [files set_files].
  destruct (FS.makedirs st1 _) as [st2|e] eqn:H2.
  - unfold bind at 1.
    destruct (read_text_not_file input_file (set_files st2 (set_files st1 w)))
      as [e ->].
    { cbn. by rewrite (makedirs_isfile _ _ _ _ H2), (makedirs_isfile _ _ _ _ H1). }
    eexists _, _. split; [done|]. split; [done|]. split; [done|].
    intros p. cbn.
    by rewrite (makedirs_isfile _ _ _ _ H2), (makedirs_isfile _ _ _ _ H1).
  - eexists _, _. split; [done|]. split; [done|]. split; [done|].
    intros p. cbn. by rewrite (makedirs_isfile _ _ _ _ H1).
Qed.

Lemma process_single_file_unreadable input_file output_folder top_n w :
  FS.isfile (files w) input_file = false →
  ∃ e w',
    process_single_file E input_file output_folder top_n w = (Raise e, w') ∧
    logs w' = logs w ∧ procs w' = procs w ∧
    ∀ p, FS.isfile (files w') p = FS.isfile (files w) p.
Proof.
  intros Hf.
  destruct (select_and_stage_unreadable input_file output_folder top_n w Hf)
    as (e & w' & H & Hrest).
  exists e, w'. split; [|done]. unfold process_single_file, bind at 1.
  by rewrite H.
Qed.

(** ** The number of candidates taken *)

Lemma length_slice_to {A} (l : list A) (n : Z) :
  length (PyStr.slice_to l n) =
  if decide (0 ≤ n)%Z then Z.to_nat n `min` length l
  else length l - Z.to_nat (- n).
Proof.
  unfold PyStr.slice_to. destruct (decide (0 ≤ n)%Z); rewrite length_take; lia.
Qed.

Lemma slice_count_top_n top_n terms :
  (0 ≤ top_n)%Z →
  slice_count E top_n terms = selected_count E (Z.to_nat top_n) terms.
Proof.
  intros Hn. unfold slice_count, selected_count. f_equal.
  apply list_fmap_ext. intros _ term _. rewrite length_slice_to.
  by rewrite decide_True.
Qed.

Lemma slice_count_cons top_n term terms :
  slice_count E top_n (term :: terms) =
  length (PyStr.slice_to
            (search_video_by_text E term "" (POSITIVE_THRESHOLD E)
               (NEGATIVE_THRESHOLD E)) top_n)
  + slice_count E top_n terms.
Proof. done. Qed.

Lemma candidates_bound temp vid i term l :
  ∀ copied w copied' w',
    for_each l (stage_candidate E temp vid i term) copied w = (Ret copied', w') →
    (length copied' ≤ length copied + length l)%nat.
Proof.
  induction l as [|[j result] l IH]; intros copied w copied' w'.
  - intros [= <- <-]. lia.
  - cbn [for_each]. intros (c1 & w1 & H1 & H)%bind_ret_inv.
    apply IH in H. rewrite stage_candidate_eq in H1. cbn zeta in H1.
    assert (length c1 ≤ length copied + 1)%nat; [|cbn [length]; lia].
    destruct (FS.write_file _ _ _); [|done].
    destruct (FS.exists_ _ _).
    + destruct (FS.copy2 _ _ _); [|done]. destruct (FS.remove _ _ _); [|done].
      injection H1 as <- _. rewrite length_app. cbn. lia.
    + destruct (FS.remove _ _ _); [|done]. injection H1 as <- _. lia.
Qed.

Lemma terms_bound temp vid top_n its :
  ∀ copied w copied' w',
    for_each its (process_term E temp vid top_n) copied w = (Ret copied', w') →
    (length copied' ≤ length copied + slice_count E top_n its.*2)%nat.
Proof.
  induction its as [|[i term] its IH]; intros copied w copied' w'.
  - intros [= <- <-]. cbn. lia.
  - cbn [for_each]. intros (c1 & w1 & H1 & H)%bind_ret_inv.
    apply IH in H. rewrite fmap_cons, slice_count_cons. cbn [snd].
    assert (length c1 ≤ length copied +
              length (PyStr.slice_to
                        (search_video_by_text E term "" (POSITIVE_THRESHOLD E)
                           (NEGATIVE_THRESHOLD E)) top_n))%nat; [|lia].
    unfold process_term in H1.
    apply bind_ret_inv in H1 as ([] & w0 & _ & H1).
    destruct (search_video_by_text E term "" _ _) as [|c results] eqn:Hres.
    + apply bind_ret_inv in H1 as ([] & w2 & _ & [= <- _]). lia.
    + apply candidates_bound in H1. by rewrite length_enumerate in H1.
Qed.

Lemma snd_enumerate {A} start (l : list A) : (PyStr.enumerate start l).*2 = l.
Proof.
  unfold PyStr.enumerate. apply snd_zip. by rewrite length_seq.
Qed.

Lemma slice_count_zero terms : slice_count E 0 terms = 0.
Proof.
  unfold slice_count. induction terms as [|term terms IH]; [done|].
  cbn. by rewrite IH.
Qed.

Lemma select_and_stage_reads input_file output_folder top_n w copied w' :
  select_and_stage E input_file output_folder top_n w = (Ret copied, w') →
  ∃ bytes text,
    files w !! input_file = Some (File bytes) ∧
    decode_utf8 E bytes = Some text ∧
    (length copied ≤ slice_count E top_n (splitlines E text))%nat.
Proof.
  unfold select_and_stage.
  intros ([] & w1 & H1 & H)%bind_ret_inv.
  apply bind_ret_inv in H as ([] & w2 & H2 & H).
  apply bind_ret_inv in H as (text & w3 & H3 & H).
  apply bind_ret_inv in H as (c & w4 & H4 & H).
  apply bind_ret_inv in H as ([] & w5 & H5 & H).
  apply bind_ret_inv in H as ([] & w6 & H6 & H).
  apply bind_ret_inv in H as ([] & w7 & H7 & [= <- <-]).
  unfold fs_update in H1, H2.
  destruct (FS.makedirs (files w) _) as [st1|] eqn:M1; [|done].
  injection H1 as <-. cbn [files set_files] in H2.
  destruct (FS.makedirs st1 _) as [st2|] eqn:M2; [|done].
  injection H2 as <-.
  unfold read_text, bind, fs_query, FS.read_file in H3.
  cbn [files set_files] in H3.
  destruct (st2 !! input_file) as [[bytes|]|] eqn:Hin; [|done..].
  destruct (decode_utf8 E bytes) as [text'|] eqn:Hdec; [|done].
  injection H3 as <- <-. exists bytes, text'.
  split; [|split; [done|]].
  - eapply makedirs_file; [exact M1|]. by eapply makedirs_file.
  - apply terms_bound in H4. rewrite snd_enumerate in H4. cbn in H4. lia.
Qed.

(** ** The audio companion *)

Lemma copy_audio_skips input_dir base_name output_folder exts1 exts2 w :
  (∀ e, e ∈ exts1 →
        FS.exists_ (files w) (Path.join input_dir (base_name +:+ e)) = false) →
  copy_audio input_dir base_name output_folder (exts1 ++ exts2) w
  = copy_audio input_dir base_name output_folder exts2 w.
Proof.
  induction exts1 as [|e exts1 IH]; intros Hno; [done|].
  cbn [app copy_audio]. unfold bind at 1, fs_test at 1.
  rewrite (Hno e) by left. apply IH. intros e' He'. apply Hno. by right.
Qed.

End Scripts.

(** X7. A script path that is not a regular file (missing, or a
    directory) makes [process_single_file] raise: it never returns, it
    logs nothing, starts no process and creates no file, only its two
    folders at most. In a batch over a directory, an entry whose name
    ends in [.txt] and that is not a regular file therefore stops the
    loop with that exception: the entries after it are not processed. *)
Theorem script_must_be_regular_file E input_file output_folder top_n w :
  FS.isfile (files w) input_file = false →
  let r := process_single_file E input_file output_folder top_n w in
  ((∃ e, r.1 = Raise e) ∧ logs r.2 = logs w ∧ procs r.2 = procs w ∧
   ∀ p, FS.isfile (files r.2) p = FS.isfile (files w) p) ∧
  (∀ input_path filename names total,
     input_file = Path.join input_path filename →
     PyStr.endswith filename ".txt" = true →
     ∃ e, (for_each (filename :: names)
             (process_listed E input_path output_folder top_n) total w).1
          = Raise e).
Proof.
  intros Hf r. split.
  - destruct (process_single_file_unreadable E input_file output_folder
                top_n w Hf) as (e & w' & H & Hl & Hp & Hfiles).
    subst r. rewrite H. cbn. split; [by exists e|done].
  - intros input_path filename names total -> Htxt. cbn [for_each].
    unfold bind at 1, process_listed at 1. rewrite Htxt.
    unfold bind at 1, logging at 1. unfold bind at 1.
    destruct (process_single_file_unreadable E (Path.join input_path filename)
                output_folder top_n
                (add_log (INFO, ProcessingFile (Path.join input_path filename)) w)
                Hf) as (e & w' & -> & _).
    by exists e.
Qed.

Lemma script_must_be_regular_file_witness :
  let E := Demo.env false [] in
  let w := Demo.scenario Demo.two_lines ".mp3" in
  let r := process_single_file E "in/none.txt" "out" 1 w in
  ((∃ e, r.1 = Raise e) ∧ logs r.2 = logs w ∧ procs r.2 = procs w ∧
   ∀ p, FS.isfile (files r.2) p = FS.isfile (files w) p) ∧
  (∀ input_path filename names total,
     "in/none.txt" = Path.join input_path filename →
     PyStr.endswith filename ".txt" = true →
     ∃ e, (for_each (filename :: names)
             (process_listed E input_path "out" 1) total w).1
          = Raise e).
Proof.
  apply (script_must_be_regular_file (Demo.env false []) "in/none.txt" "out" 1
           (Demo.scenario Demo.two_lines ".mp3")).
  vm_compute. reflexivity.
Defined.

(** A directory named like a script stops the batch: [in/a.txt] is a
    directory, the run raises [IsADirectoryError] and [in/clip1.txt],
    listed after it, is not processed. *)
Example directory_named_txt_stops_batch :
  let E := Demo.env true [] in
  let w := set_files (<["in/a.txt" := Dir]>
                        (files (Demo.scenario Demo.two_lines ".mp3")))
             (Demo.scenario Demo.two_lines ".mp3") in
  let r := process_input E "in" "out" 1 w in
  r.1 = Raise IsADirectoryError ∧
  logs r.2 = [(INFO, ProcessingFile "in/a.txt")] ∧
  files r.2 !! "out/clip1" = None ∧
  files r.2 !! "out/a_temp" = Some Dir.
Proof. vm_compute. repeat split; reflexivity. Qed.

(** X8. When [process_single_file] returns, the script was a regular file
    with decodable content, and the number of copies it returns is at
    most the number of candidates taken, [len(results[:top_n])] summed
    over the lines of the script: for [top_n >= 0] that is the sum of
    [min(top_n, candidates)], and for [top_n = 0] nothing is copied (the
    folders are made and the merge is tried all the same). *)
Theorem copies_bounded_by_top_n E input_file output_folder top_n w copied w' :
  process_single_file E input_file output_folder top_n w = (Ret copied, w') →
  ∃ bytes text,
    files w !! input_file = Some (File bytes) ∧
    decode_utf8 E bytes = Some text ∧
    (length copied ≤ slice_count E top_n (splitlines E text))%nat ∧
    ((0 ≤ top_n)%Z →
     slice_count E top_n (splitlines E text)
     = selected_count E (Z.to_nat top_n) (splitlines E text)) ∧
    (top_n = 0%Z → copied = []).
Proof.
  unfold process_single_file. intros (c & w1 & H1 & H)%bind_ret_inv.
  apply bind_ret_inv in H as (merged & w2 & _ & H).
  apply bind_ret_inv in H as ([] & w3 & _ & [= <- <-]).
  apply select_and_stage_reads in H1 as (bytes & text & Hin & Hdec & Hlen).
  exists bytes, text. split; [done|]. split; [done|]. split; [done|].
  split; [apply slice_count_top_n|]. intros ->.
  rewrite slice_count_zero in Hlen. destruct c; [done|cbn in Hlen; lia].
Qed.

Lemma copies_bounded_by_top_n_witness :
  let E := Demo.env false [] in
  let w := Demo.scenario Demo.two_lines ".mp3" in
  let copied := ["out/clip1/1_sunset_over_water.mp4";
                 "out/clip1/2_city_traffic_at_night.mp4"] in
  ∃ bytes text,
    files w !! "in/clip1.txt" = Some (File bytes) ∧
    decode_utf8 E bytes = Some text ∧
    (length copied ≤ slice_count E 1 (splitlines E text))%nat ∧
    ((0 ≤ 1)%Z →
     slice_count E 1 (splitlines E text)
     = selected_count E (Z.to_nat 1) (splitlines E text)) ∧
    ((1 = 0)%Z → copied = []).
Proof.
  apply (copies_bounded_by_top_n (Demo.env false []) "in/clip1.txt" "out" 1
           (Demo.scenario Demo.two_lines ".mp3")
           ["out/clip1/1_sunset_over_water.mp4";
            "out/clip1/2_city_traffic_at_night.mp4"]
           (process_single_file (Demo.env false []) "in/clip1.txt" "out" 1
              (Demo.scenario Demo.two_lines ".mp3")).2).
  vm_compute. reflexivity.
Defined.

(** A negative [top_n] is a slice from the end: with [top_n = -1] the
    last candidate of every term is left out, so one of the two
    candidates of each line is copied. *)
Example negative_top_n :
  let E := Demo.env false [] in
  let r := process_single_file E "in/clip1.txt" "out" (-1)
             (Demo.scenario Demo.two_lines ".mp3") in
  slice_count E (-1) Demo.two_lines = 2 ∧
  r.1 = Ret ["out/clip1/1_sunset_over_water.mp4";
             "out/clip1/2_city_traffic_at_night.mp4"].
Proof. vm_compute. split; reflexivity. Qed.

(** X9. Of the audio companions [<base>.mp3], [<base>.MP3], [<base>.wav],
    [<base>.WAV] beside the script, the first one that exists, in this
    order, is the one copied, and only that one: the loop stops there and
    does not look at the later extensions. When none exists, nothing is
    copied and a warning is logged. *)
Theorem first_audio_extension_wins input_dir base_name output_folder w :
  (∀ exts1 ext exts2,
     audio_exts = exts1 ++ ext :: exts2 →
     (∀ e, e ∈ exts1 →
        FS.exists_ (files w) (Path.join input_dir (base_name +:+ e)) = false) →
     FS.exists_ (files w) (Path.join input_dir (base_name +:+ ext)) = true →
     let audio_file := Path.join input_dir (base_name +:+ ext) in
     let destination := Path.join output_folder (Path.basename audio_file) in
     copy_audio input_dir base_name output_folder audio_exts w
     = (fs_update (λ st, FS.copy2 st audio_file destination) ;;
        logging INFO (AudioCopied destination)) w) ∧
  ((∀ e, e ∈ audio_exts →
      FS.exists_ (files w) (Path.join input_dir (base_name +:+ e)) = false) →
   copy_audio input_dir base_name output_folder audio_exts w
   = (Ret tt, add_log (WARNING, AudioNotFound base_name) w)).
Proof.
  split.
  - intros exts1 ext exts2 -> Hno Hyes audio_file destination.
    rewrite copy_audio_skips by done. cbn [copy_audio].
    unfold bind at 1, fs_test at 1. subst audio_file. by rewrite Hyes.
  - intros Hno.
    rewrite <-(app_nil_r audio_exts), copy_audio_skips by done. done.
Qed.

(** With both [clip1.mp3] and [clip1.wav] beside the script, only the
    first is copied. *)
Example mp3_before_wav :
  let w := set_files (<["in/clip1.wav" := File "wave"]>
                        (files (Demo.prepared Demo.two_lines ".mp3")))
             (Demo.prepared Demo.two_lines ".mp3") in
  let r := copy_audio_and_srt_files "in/clip1.txt" "out/clip1" w in
  r.1 = Ret tt ∧
  files r.2 !! "out/clip1/clip1.mp3" = Some (File "audio") ∧
  files r.2 !! "out/clip1/clip1.wav" = None.
Proof. vm_compute. repeat split; reflexivity. Qed.

(** * [time_to_seconds] *)

Section Time.

Implicit Types s p h m : string.

Lemma split_nonempty c s : split c s ≠ [].
Proof.
  destruct s as [|a s]; [done|]. cbn [split].
  destruct (bool_decide (a = c)); [done|]. by destruct (split c s).
Qed.

Lemma join_cons_cons sep p q ps :
  PyStr.join sep (p :: q :: ps) = p +:+ sep +:+ PyStr.join sep (q :: ps).
Proof. done. Qed.

(** Joining the fields with the separator gives the string back. *)
Lemma join_split c s : PyStr.join (String c "") (split c s) = s.
Proof.
  induction s as [|a s IH]; [done|]. cbn [split].
  destruct (bool_decide (a = c)) eqn:Hac.
  - apply bool_decide_eq_true_1 in Hac as ->.
    pose proof (split_nonempty c s) as Hne.
    destruct (split c s) as [|q ps]; [done|].
    rewrite join_cons_cons, IH. by rewrite app_nil_l_str, app_cons_str,
      app_nil_l_str.
  - pose proof (split_nonempty c s) as Hne.
    destruct (split c s) as [|q ps]; [done|]. destruct ps as [|q' ps].
    + cbn in IH. cbn. by rewrite IH.
    + rewrite join_cons_cons in *. by rewrite app_cons_str, IH.
Qed.

(** No field holds the separator. *)
Lemma split_free c s p : p ∈ split c s → free_of c p = true.
Proof.
  revert p. induction s as [|a s IH]; intros p.
  - by intros ->%list_elem_of_singleton.
  - cbn [split]. destruct (bool_decide (a = c)) eqn:Hac.
    + intros [->|Hp]%elem_of_cons; [done|]. by apply IH.
    + pose proof (split_nonempty c s) as Hne.
      destruct (split c s) as [|q ps]; [done|].
      intros [->|Hp]%elem_of_cons.
      * cbn. rewrite Hac. apply IH. left.
      * apply IH. by right.
Qed.

Lemma split_free_whole c p : free_of c p = true → split c p = [p].
Proof.
  induction p as [|a p IH]; [done|]. cbn.
  intros [Hac Hp]%andb_true_iff. apply negb_true_iff in Hac. rewrite Hac.
  by rewrite IH.
Qed.

Lemma split_app_free c p rest :
  free_of c p = true →
  split c (p +:+ String c rest) = p :: split c rest.
Proof.
  induction p as [|a p IH].
  - intros _. rewrite app_nil_l_str. cbn [split].
    by rewrite bool_decide_eq_true_2.
  - cbn [free_of]. intros [Hac Hp]%andb_true_iff. apply negb_true_iff in Hac.
    rewrite app_cons_str. cbn [split]. rewrite Hac. by rewrite IH.
Qed.

Lemma split_three h m s :
  free_of ":" h = true → free_of ":" m = true → free_of ":" s = true →
  split ":" (h +:+ ":" +:+ m +:+ ":" +:+ s) = [h; m; s].
Proof.
  intros Hh Hm Hs.
  change (":" +:+ m +:+ ":" +:+ s) with (String ":" (m +:+ ":" +:+ s)).
  rewrite split_app_free by done.
  change (":" +:+ s) with (String ":" s).
  rewrite split_app_free by done. by rewrite split_free_whole.
Qed.

End Time.

(** X10. [time_to_seconds] returns a number exactly for a string of three
    fields separated by two colons, [h:m:s], whose first two fields are
    accepted by [int] and whose third by [float] (and whose integer part
    converts to a float); the number is [float(3600*h + 60*m) + s]. Every
    other string, with fewer or more colons or a field that does not
    parse, raises. *)
Theorem time_to_seconds_spec E int_of_str float_of_int time_str v :
  time_to_seconds E int_of_str float_of_int time_str = inr v ↔
  ∃ h m s h' m' s' hm,
    time_str = h +:+ ":" +:+ m +:+ ":" +:+ s ∧
    free_of ":" h = true ∧ free_of ":" m = true ∧ free_of ":" s = true ∧
    int_of_str h = Some h' ∧ int_of_str m = Some m' ∧
    float_of_str E s = Some s' ∧
    float_of_int (h' * 3600 + m' * 60)%Z = Some hm ∧
    v = (hm + s')%float.
Proof.
  unfold time_to_seconds. split.
  - pose proof (join_split ":" time_str) as Hjoin.
    pose proof (split_free ":" time_str) as Hfree.
    destruct (split ":" time_str) as [|h [|m [|s [|x xs]]]]; try done.
    destruct (int_of_str h) as [h'|] eqn:Hh; [|done].
    destruct (int_of_str m) as [m'|] eqn:Hm; [|done].
    destruct (float_of_str E s) as [s'|] eqn:Hs; [|done].
    destruct (float_of_int _) as [hm|] eqn:Hhm; [|done].
    intros [= <-]. exists h, m, s, h', m', s', hm.
    split; [by rewrite <-Hjoin|].
    split; [apply Hfree; left|].
    split; [apply Hfree; right; left|].
    split; [apply Hfree; right; right; left|done].
  - intros (h & m & s & h' & m' & s' & hm & -> & Hh & Hm & Hs
            & Hih & Him & Hfs & Hhm & ->).
    rewrite split_three by done. by rewrite Hih, Him, Hfs, Hhm.
Qed.

(** One colon too few and one too many. *)
Example time_to_seconds_fields E int_of_str float_of_int :
  time_to_seconds E int_of_str float_of_int "01:30" = inl TimeValueError ∧
  time_to_seconds E int_of_str float_of_int "1:01:30:00" = inl TimeValueError ∧
  split ":" "00:01:30.5" = ["00"; "01"; "30.5"].
Proof. done. Qed.

(** * What an exception leaves behind *)

Section Leftovers.

Variable E : collaborators.

#[local] Instance dirs_kept_preorder : PreOrder dirs_kept.
Proof.
  split.
  - by intros w p.
  - intros w1 w2 w3 H1 H2 p Hp. by apply H2, H1.
Qed.

Lemma same_files_dirs_kept w w' : files w' = files w → dirs_kept w w'.
Proof. intros H p. by rewrite H. Qed.

Lemma insert_dirs_kept (st : gmap string node) p x q :
  FS.isdir st p = false → st !! q = Some Dir → <[p := x]> st !! q = Some Dir.
Proof.
  intros Hp Hq. rewrite lookup_insert_ne; [done|]. intros ->.
  unfold FS.isdir in Hp. by rewrite Hq in Hp.
Qed.

Lemma fs_update_dirs f :
  (∀ st st' q, f st = Ret st' → st !! q = Some Dir → st' !! q = Some Dir) →
  respects dirs_kept (fs_update f).
Proof.
  intros Hf w. unfold fs_update. specialize (Hf (files w)).
  destruct (f (files w)) as [st|e]; [|done]. intros q. by apply Hf.
Qed.

Lemma write_file_dirs p c : respects dirs_kept (fs_update (λ st, FS.write_file st p c)).
Proof.
  apply fs_update_dirs. intros st st' q. unfold FS.write_file.
  destruct (FS.isdir st p) eqn:Hp; [done|].
  destruct (FS.parent_ok st p); [|done]. intros [= <-].
  by apply insert_dirs_kept.
Qed.

Lemma copy2_dirs src dst : respects dirs_kept (fs_update (λ st, FS.copy2 st src dst)).
Proof.
  apply fs_update_dirs. intros st st' q. unfold FS.copy2.
  destruct (st !! src) as [[c|]|]; [|done..].
  destruct (bool_decide _); [done|].
  destruct (FS.isdir st (if FS.isdir st dst then _ else _)) eqn:Hd; [done|].
  destruct (FS.parent_ok _ _); [|done]. intros [= <-].
  by apply insert_dirs_kept.
Qed.

Lemma remove_dirs p :
  respects dirs_kept (fs_update (λ st, FS.remove (removable E) st p)).
Proof.
  apply fs_update_dirs. intros st st' q. unfold FS.remove.
  destruct (st !! p) as [[c|]|] eqn:Hp; [|done..].
  destruct (removable E p); [|done]. intros [= <-] Hq.
  rewrite lookup_delete_ne; [done|]. intros ->. by rewrite Hq in Hp.
Qed.

Lemma makedirs_dirs p : respects dirs_kept (fs_update (λ st, FS.makedirs st p)).
Proof.
  apply fs_update_dirs. intros st st' q H. by apply (makedirs_keeps st p).
Qed.

Lemma logging_dirs lv m : respects dirs_kept (logging lv m).
Proof. intros w. by apply same_files_dirs_kept. Qed.

Lemma read_text_dirs p : respects dirs_kept (read_text E p).
Proof.
  apply respects_bind; [tc_solve|apply respects_fs_query; tc_solve|].
  intros bytes.
  destruct (decode_utf8 E bytes);
    [apply respects_ret|apply respects_raise]; tc_solve.
Qed.

Ltac dirs :=
  repeat first
    [ apply logging_dirs
    | apply write_file_dirs
    | apply copy2_dirs
    | apply remove_dirs
    | apply makedirs_dirs
    | apply read_text_dirs
    | apply respects_fs_test; tc_solve
    | apply respects_ret; tc_solve
    | apply respects_bind; [tc_solve| |intros ?]
    | apply respects_for_each; [tc_solve|intros ? ? _] ].

Lemma copy_audio_dirs input_dir base_name output_folder exts :
  respects dirs_kept (copy_audio input_dir base_name output_folder exts).
Proof.
  induction exts as [|ext exts IH]; cbn [copy_audio]; [dirs|].
  apply respects_bind; [tc_solve|dirs|]. intros []; [dirs|done].
Qed.

Lemma copy_companions_dirs input_file output_folder :
  respects dirs_kept (copy_audio_and_srt_files input_file output_folder).
Proof.
  unfold copy_audio_and_srt_files.
  apply respects_bind; [tc_solve|apply copy_audio_dirs|]. intros _.
  apply respects_bind; [tc_solve|dirs|]. intros []; dirs.
Qed.

Lemma stage_candidate_dirs temp vid i term copied jr :
  respects dirs_kept (stage_candidate E temp vid i term copied jr).
Proof.
  destruct jr as [j result]. unfold stage_candidate.
  apply respects_bind; [tc_solve|dirs|]. intros _.
  apply respects_bind; [tc_solve|dirs|]. intros _.
  apply respects_bind; [tc_solve|dirs|]. intros found.
  apply respects_bind; [tc_solve|destruct found; dirs|]. intros copied'. dirs.
Qed.

Lemma stage_terms_dirs temp vid top_n terms :
  respects dirs_kept (stage_terms E temp vid top_n terms).
Proof.
  unfold stage_terms. apply respects_for_each; [tc_solve|].
  intros copied [i term] _. unfold process_term.
  apply respects_bind; [tc_solve|dirs|]. intros _.
  destruct (search_video_by_text E term "" _ _); [dirs|].
  apply respects_for_each; [tc_solve|]. intros copied' jr _.
  apply stage_candidate_dirs.
Qed.

Lemma bind_raise_inv {A B} (m : M A) (k : A → M B) w e w' :
  bind m k w = (Raise e, w') →
  m w = (Raise e, w') ∨ ∃ a w1, m w = (Ret a, w1) ∧ k a w1 = (Raise e, w').
Proof.
  unfold bind. destruct (m w) as [[a|e'] w1]; [|intros [= -> ->]; by left].
  intros H. right. by exists a, w1.
Qed.

(** A step that respects [R] followed by steps that do so when they
    raise. *)
Lemma raise_after {A B} (R : relation world) `{!PreOrder R}
    (m : M A) (k : A → M B) w e w' :
  respects R m →
  (∀ a w1, k a w1 = (Raise e, w') → R w1 w') →
  bind m k w = (Raise e, w') → R w w'.
Proof.
  intros Hm Hk [H|(a & w1 & H & Hrest)]%bind_raise_inv.
  - specialize (Hm w). by rewrite H in Hm.
  - specialize (Hm w). rewrite H in Hm. etrans; [exact Hm|]. by eapply Hk.
Qed.

Lemma makedirs_creates st p st' :
  FS.makedirs st p = Ret st' → st' !! p = Some Dir.
Proof.
  unfold FS.makedirs. destruct (FS.isdir st p) eqn:Hd.
  - intros [= <-]. unfold FS.isdir in Hd. by destruct (st !! p) as [[c|]|].
  - destruct (FS.isfile st p); [done|]. destruct (existsb _ _); [done|].
    intros [= <-]. cbn [foldr]. by rewrite lookup_insert_eq.
Qed.

Lemma stage_candidate_leaves_metadata temp vid i term copied j result w e w' :
  let mp := metadata_path temp i j term in
  let json := json_dump E (Metadata term (path result) (start_time result)
                             (end_time result) (score result)) in
  stage_candidate E temp vid i term copied (j, result) w = (Raise e, w') →
  (FS.write_file (files w) mp json = Raise e ∧ w' = w) ∨
  ∃ c, files w' !! mp = Some (File c).
Proof.
  intros mp json. rewrite stage_candidate_eq. cbn zeta. fold mp json.
  destruct (FS.write_file (files w) mp json) as [st1|e1] eqn:Hw;
    [|intros [= <- <-]; by left].
  assert (st1 !! mp = Some (File json)) as H1.
  { unfold FS.write_file in Hw. destruct (FS.isdir _ _); [done|].
    destruct (FS.parent_ok _ _); [|done]. injection Hw as <-.
    by rewrite lookup_insert_eq. }
  intros H. right. destruct (FS.exists_ st1 (path result)).
  - destruct (FS.copy2 st1 (path result) _) as [st2|e2] eqn:Hc.
    + destruct (copy2_keeps_files _ _ _ _ _ _ Hc H1) as [c2 H2].
      destruct (FS.remove _ _ _); [done|]. injection H as _ <-.
      by exists c2.
    + injection H as _ <-. by exists json.
  - destruct (FS.remove _ _ _); [done|]. injection H as _ <-. by exists json.
Qed.

Lemma select_and_stage_leaves_temp input_file output_folder top_n w e w' :
  let temp :=
    Path.join output_folder
      ((Path.splitext (Path.basename input_file)).1 +:+ "_temp") in
  select_and_stage E input_file output_folder top_n w = (Raise e, w') →
  (FS.makedirs (files w) temp = Raise e ∧ w' = w) ∨
  files w' !! temp = Some Dir.
Proof.
  intros temp. unfold select_and_stage. fold temp.
  intros [H|([] & w1 & H1 & H)]%bind_raise_inv.
  - left. unfold fs_update in H.
    destruct (FS.makedirs (files w) temp); [done|]. by injection H as <- <-.
  - right. assert (files w1 !! temp = Some Dir) as Ht.
    { unfold fs_update in H1.
      destruct (FS.makedirs (files w) temp) as [st1|] eqn:Hm; [|done].
      injection H1 as <-. by apply makedirs_creates in Hm. }
    cut (dirs_kept w1 w'); [intros Hk; by apply Hk|].
    revert H. apply raise_after; [tc_solve|dirs|]. intros [] w2.
    apply raise_after; [tc_solve|dirs|]. intros text w3.
    apply raise_after; [tc_solve|apply stage_terms_dirs|]. intros copied w4.
    apply raise_after; [tc_solve|apply copy_companions_dirs|]. intros [] w5.
    intros [H|([] & w6 & _ & H)]%bind_raise_inv.
    + unfold fs_update in H. destruct (FS.rmtree _ _ _); [done|].
      by injection H as _ <-.
    + by apply bind_raise_inv in H as [H|([] & w7 & _ & H)].
Qed.

End Leftovers.

(** X11. Nothing cleans up after an exception. When the selection of a
    script is interrupted by an exception raised after line 136 (an
    unreadable script, a copy that fails, a removal that is refused),
    the temporary folder [<base>_temp] is left in the output folder; and
    when the processing of a candidate raises after its metadata record
    was written (lines 160-176), the record is left in that folder. *)
Theorem exception_leaves_leftovers E :
  (∀ input_file output_folder top_n w e w',
     let temp :=
       Path.join output_folder
         ((Path.splitext (Path.basename input_file)).1 +:+ "_temp") in
     select_and_stage E input_file output_folder top_n w = (Raise e, w') →
     (FS.makedirs (files w) temp = Raise e ∧ w' = w) ∨
     files w' !! temp = Some Dir) ∧
  (∀ temp vid i term copied j result w e w',
     let mp := metadata_path temp i j term in
     let json := json_dump E (Metadata term (path result) (start_time result)
                                (end_time result) (score result)) in
     stage_candidate E temp vid i term copied (j, result) w = (Raise e, w') →
     (FS.write_file (files w) mp json = Raise e ∧ w' = w) ∨
     ∃ c, files w' !! mp = Some (File c)).
Proof.
  split.
  - intros *. apply select_and_stage_leaves_temp.
  - intros *. apply stage_candidate_leaves_metadata.
Qed.

(** A candidate whose source path is a directory: [os.path.exists] holds,
    [shutil.copy2] raises, the run stops and both the temporary folder
    and the metadata record stay. *)
Example failing_copy_leaves_metadata :
  let E := Demo.env false [] in
  let w := set_files (<["lib/a.mp4" := Dir]>
                        (files (Demo.scenario ["a"] ".mp3")))
             (Demo.scenario ["a"] ".mp3") in
  let r := process_input E "in" "out" 1 w in
  r.1 = Raise IsADirectoryError ∧
  files r.2 !! "out/clip1_temp" = Some Dir ∧
  files r.2 !! "out/clip1_temp/1_1_a_metadata.json"
  = Some (File "{lib/a.mp4}") ∧
  procs r.2 = [].
Proof. vm_compute. repeat split; reflexivity. Qed.

(** * The staged copies are there when the merge starts *)

Section Survive.

Variable E : collaborators.

#[local] Instance nodes_kept_preorder : PreOrder nodes_kept.
Proof.
  split.
  - by intros w p.
  - intros w1 w2 w3 H1 H2 p Hp. by apply H2, H1.
Qed.

Lemma copy2_keeps_some st src dst st' p :
  FS.copy2 st src dst = Ret st' → is_Some (st !! p) → is_Some (st' !! p).
Proof.
  intros (c & _ & [[_ ->]|[_ ->]])%copy2_frame Hp;
    (match goal with |- is_Some (<[?k := _]> _ !! _) =>
       destruct (decide (k = p)) as [->|Hne] end;
     [by rewrite lookup_insert_eq|by rewrite lookup_insert_ne]).
Qed.

Lemma copy2_nodes src dst :
  respects nodes_kept (fs_update (λ st, FS.copy2 st src dst)).
Proof.
  intros w p. unfold fs_update.
  destruct (FS.copy2 (files w) src dst) as [st|e] eqn:H; [|done].
  by apply copy2_keeps_some with src dst.
Qed.

Lemma logging_nodes lv m : respects nodes_kept (logging lv m).
Proof. by intros w p. Qed.

Lemma copy_audio_nodes input_dir base_name output_folder exts :
  respects nodes_kept (copy_audio input_dir base_name output_folder exts).
Proof.
  induction exts as [|ext exts IH]; cbn [copy_audio]; [apply logging_nodes|].
  apply respects_bind; [tc_solve|apply respects_fs_test; tc_solve|].
  intros []; [|done].
  apply respects_bind; [tc_solve|apply copy2_nodes|]. intros _.
  apply logging_nodes.
Qed.

Lemma copy_companions_nodes input_file output_folder :
  respects nodes_kept (copy_audio_and_srt_files input_file output_folder).
Proof.
  unfold copy_audio_and_srt_files.
  apply respects_bind; [tc_solve|apply copy_audio_nodes|]. intros _.
  apply respects_bind; [tc_solve|apply respects_fs_test; tc_solve|].
  intros []; [|apply logging_nodes].
  apply respects_bind; [tc_solve|apply copy2_nodes|]. intros _.
  apply logging_nodes.
Qed.

Lemma for_each_inv {A S} (I : S → world → Prop) (l : list A)
    (body : S → A → M S) :
  (∀ s x w s' w', x ∈ l → I s w → body s x w = (Ret s', w') → I s' w') →
  ∀ s w s' w', I s w → for_each l body s w = (Ret s', w') → I s' w'.
Proof.
  induction l as [|x l IH]; intros Hb s w s' w' HI.
  - by intros [= <- <-].
  - cbn [for_each]. intros (s1 & w1 & H1 & H)%bind_ret_inv.
    eapply IH; [|eapply Hb; [left|done..]|done].
    intros s0 y w0 s0' w0' Hy. apply Hb. by right.
Qed.

Lemma destination_is_video vid i term :
  PyStr.endswith (destination_path vid i term) ".mp4" = true.
Proof.
  unfold destination_path. rewrite join_rel by apply video_filename_relative.
  unfold video_filename. rewrite <-!app_assoc_str. apply endswith_app.
Qed.

Lemma metadata_not_video temp i j term :
  PyStr.endswith (metadata_path temp i j term) ".mp4" = false.
Proof.
  apply (endswith_excl _ "json"); [done|done|].
  unfold metadata_path. rewrite join_rel by apply metadata_filename_relative.
  unfold metadata_filename. apply endswith_trans with "_metadata.json"; [|done].
  rewrite <-!app_assoc_str. apply endswith_app.
Qed.

Lemma stage_candidate_present temp vid i term copied jr w copied' w' :
  copies_present copied w →
  stage_candidate E temp vid i term copied jr w = (Ret copied', w') →
  copies_present copied' w'.
Proof.
  destruct jr as [j result]. intros HI. rewrite stage_candidate_eq. cbn zeta.
  set (mp := metadata_path temp i j term).
  set (dst := destination_path vid i term).
  assert (∀ d, PyStr.endswith d ".mp4" = true → d ≠ mp) as Hmp.
  { intros d Hd ->. unfold mp in Hd. by rewrite metadata_not_video in Hd. }
  destruct (FS.write_file (files w) mp _) as [st1|] eqn:Hw; [|done].
  assert (∀ d, is_Some (files w !! d) → is_Some (st1 !! d)) as H1.
  { intros d Hd. unfold FS.write_file in Hw.
    destruct (FS.isdir _ _); [done|]. destruct (FS.parent_ok _ _); [|done].
    injection Hw as <-. destruct (decide (mp = d)) as [->|Hne].
    - by rewrite lookup_insert_eq.
    - by rewrite lookup_insert_ne. }
  assert (∀ st st3 d, FS.remove (removable E) st mp = Ret st3 →
            PyStr.endswith d ".mp4" = true →
            is_Some (st !! d) → is_Some (st3 !! d)) as H3.
  { intros st st3 d Hr Hd Hs. unfold FS.remove in Hr.
    destruct (st !! mp) as [[c|]|]; [|done..].
    destruct (removable E mp); [|done]. injection Hr as <-.
    rewrite lookup_delete_ne; [done|]. intros ->. by eapply Hmp. }
  destruct (FS.exists_ st1 (path result)).
  - destruct (FS.copy2 st1 (path result) dst) as [st2|] eqn:Hc; [|done].
    destruct (FS.remove (removable E) st2 mp) as [st3|] eqn:Hr; [|done].
    intros [= <- <-] d [Hd|Hd]%elem_of_app.
    + destruct (HI d Hd) as [Hv Hs]. split; [done|]. cbn.
      eapply H3; [done..|]. eapply copy2_keeps_some; [done|]. by apply H1.
    + apply list_elem_of_singleton in Hd as ->.
      split; [apply destination_is_video|]. cbn.
      eapply H3; [done|apply destination_is_video|].
      apply copy2_frame in Hc as (c & _ & [[_ ->]|[Hdir ->]]).
      * by rewrite lookup_insert_eq.
      * destruct (decide (Path.join dst (Path.basename (path result)) = dst))
          as [->|Hne]; [by rewrite lookup_insert_eq|].
        rewrite lookup_insert_ne by done. unfold FS.isdir in Hdir.
        by destruct (st1 !! dst).
  - destruct (FS.remove (removable E) st1 mp) as [st3|] eqn:Hr; [|done].
    intros [= <- <-] d Hd. destruct (HI d Hd) as [Hv Hs]. split; [done|].
    cbn. eapply H3; [done..|]. by apply H1.
Qed.

Lemma stage_terms_present temp vid top_n terms w copied w' :
  stage_terms E temp vid top_n terms w = (Ret copied, w') →
  copies_present copied w'.
Proof.
  unfold stage_terms. apply (for_each_inv copies_present).
  - intros c [i term] w0 c' w0' _ HI. unfold process_term.
    intros ([] & w1 & [= <-] & H)%bind_ret_inv.
    destruct (search_video_by_text E term "" _ _).
    + apply bind_ret_inv in H as ([] & w2 & [= <-] & [= <- <-]). exact HI.
    + revert H. apply (for_each_inv copies_present); [|exact HI].
      intros c1 jr w2 c2 w3 _. apply stage_candidate_present.
  - by intros d Hd%elem_of_nil.
Qed.

Lemma startswith_app_both a s t :
  PyStr.startswith (a +:+ s) (a +:+ t) = PyStr.startswith s t.
Proof.
  induction a as [|c a IH]; [by rewrite !app_nil_l_str|].
  rewrite !app_cons_str. cbn [PyStr.startswith].
  by rewrite bool_decide_eq_true_2.
Qed.

Lemma dirprefix_cases e :
  Path.dirprefix e = e ∨ Path.dirprefix e = e +:+ "/".
Proof. unfold Path.dirprefix. destruct (_ || _); [by left|by right]. Qed.

Lemma str_head n : ∃ c s, PyStr.str n = String c s ∧ is_digit c = true.
Proof.
  destruct (str_digits n) as [Hd Hne].
  destruct (PyStr.str n) as [|c s]; [done|]. exists c, s. split; [done|].
  cbn in Hd. by apply andb_true_iff in Hd as [? _].
Qed.

(** A destination in the video folder is not in the temporary folder. *)
Lemma destination_not_in_temp output_folder base_name i term :
  Path.has_sep base_name = false →
  FS.under (Path.join output_folder (base_name +:+ "_temp"))
    (destination_path (Path.join output_folder base_name) i term) = false.
Proof.
  intros Hb. unfold destination_path.
  rewrite (join_rel _ (video_filename i term))
    by apply video_filename_relative.
  rewrite !join_relative by (by rewrite ?has_sep_app, ?Hb).
  set (O := Path.dirprefix output_folder).
  assert (∃ c x, Path.dirprefix (O +:+ base_name) +:+ video_filename i term
                 = O +:+ base_name +:+ String c x ∧ c ≠ "_"%char)
    as (c & x & -> & Hc).
  { destruct (str_head i) as (c & s & Hs & Hd). unfold video_filename.
    rewrite Hs. destruct (dirprefix_cases (O +:+ base_name)) as [-> | ->].
    - exists c. eexists. rewrite !app_assoc_str, app_cons_str.
      split; [reflexivity|]. by intros ->.
    - exists "/"%char. eexists. rewrite !app_assoc_str.
      split; [reflexivity|done]. }
  unfold FS.under. apply orb_false_iff. split.
  - apply bool_decide_eq_false_2. rewrite <-!app_assoc_str.
    rewrite !app_assoc_str. intros H. do 2 apply String.app_inj in H.
    injection H as ->. done.
  - destruct (dirprefix_extends (O +:+ base_name +:+ "_temp")) as [t ->].
    rewrite !app_assoc_str, !startswith_app_both.
    rewrite app_cons_str. cbn [PyStr.startswith].
    by rewrite bool_decide_eq_false_2.
Qed.

End Survive.

(** X12. The copies the selection step returns are there when the merge
    starts: when [select_and_stage] returns, every returned path names a
    segment [<i>_<term>.mp4] of the video folder and still holds a node.
    Neither the removal of the metadata records nor the removal of the
    temporary folder takes a staged segment away. *)
Theorem staged_copies_survive E input_file output_folder top_n w copied w' :
  select_and_stage E input_file output_folder top_n w = (Ret copied, w') →
  ∀ d, d ∈ copied →
    is_Some (files w' !! d) ∧
    ∃ i term,
      d = destination_path
            (Path.join output_folder
               (Path.splitext (Path.basename input_file)).1) i term.
Proof.
  unfold select_and_stage.
  intros ([] & w1 & H1 & H)%bind_ret_inv.
  apply bind_ret_inv in H as ([] & w2 & H2 & H).
  apply bind_ret_inv in H as (text & w3 & H3 & H).
  apply bind_ret_inv in H as (c & w4 & H4 & H).
  apply bind_ret_inv in H as ([] & w5 & H5 & H).
  apply bind_ret_inv in H as ([] & w6 & H6 & H).
  apply bind_ret_inv in H as ([] & w7 & [= <-] & [= <- <-]).
  intros d Hd.
  pose proof (stage_terms_present E _ _ _ _ _ _ _ H4 d Hd) as [_ Hs].
  apply stage_terms_staged in H4 as (_ & (l & _ & Hc & Hdst) & _).
  cbn in Hc. subst c. destruct (Hdst d Hd) as (i & term & _ & ->).
  split; [|by exists i, term]. cbn.
  pose proof (copy_companions_nodes input_file
                (Path.join output_folder
                   (Path.splitext (Path.basename input_file)).1) w4) as Hs5.
  rewrite H5 in Hs5. apply Hs5 in Hs. clear Hs5. rename Hs into Hs5.
  cbn in Hs5. unfold fs_update in H6.
  destruct (FS.rmtree _ _ _) as [st6|] eqn:Hrm; [|done].
  injection H6 as <-. cbn. unfold FS.rmtree in Hrm.
  destruct (files w5 !! _) as [[x|]|]; [done| |done].
  destruct (forallb _ _); [|done]. injection Hrm as <-.
  destruct Hs5 as [x Hx]. exists x. apply map_lookup_filter_Some.
  split; [done|]. cbn. apply destination_not_in_temp, base_name_no_sep.
Qed.

Lemma staged_copies_survive_witness :
  let E := Demo.env false [] in
  let w := Demo.scenario Demo.two_lines ".mp3" in
  let w' := (select_and_stage E "in/clip1.txt" "out" 2 w).2 in
  is_Some (files w' !! "out/clip1/2_city_traffic_at_night.mp4") ∧
  ∃ i term,
    "out/clip1/2_city_traffic_at_night.mp4"
    = destination_path
        (Path.join "out" (Path.splitext (Path.basename "in/clip1.txt")).1)
        i term.
Proof.
  apply (staged_copies_survive (Demo.env false []) "in/clip1.txt" "out" 2
           (Demo.scenario Demo.two_lines ".mp3")
           ["out/clip1/1_sunset_over_water.mp4";
            "out/clip1/1_sunset_over_water.mp4";
            "out/clip1/2_city_traffic_at_night.mp4";
            "out/clip1/2_city_traffic_at_night.mp4"]).
  - vm_compute. reflexivity.
  - right. right. left.
Defined.

(** * The processes a job starts *)

Section Processes.

Variable E : collaborators.

#[local] Instance procs_same_preorder : PreOrder procs_same.
Proof.
  split.
  - by intros w.
  - intros w1 w2 w3 H1 H2. unfold procs_same in *. by rewrite H2.
Qed.

Lemma fs_update_procs f : respects procs_same (fs_update f).
Proof. intros w. unfold fs_update. by destruct (f (files w)). Qed.

Lemma logging_procs lv m : respects procs_same (logging lv m).
Proof. by intros w. Qed.

Lemma read_text_procs p : respects procs_same (read_text E p).
Proof.
  apply respects_bind; [tc_solve|apply respects_fs_query; tc_solve|].
  intros bytes.
  destruct (decode_utf8 E bytes);
    [apply respects_ret|apply respects_raise]; tc_solve.
Qed.

Ltac silent :=
  repeat first
    [ apply logging_procs
    | apply fs_update_procs
    | apply read_text_procs
    | apply respects_fs_test; tc_solve
    | apply respects_ret; tc_solve
    | apply respects_bind; [tc_solve| |intros ?]
    | apply respects_for_each; [tc_solve|intros ? ? _] ].

Lemma copy_audio_procs input_dir base_name output_folder exts :
  respects procs_same (copy_audio input_dir base_name output_folder exts).
Proof.
  induction exts as [|ext exts IH]; cbn [copy_audio]; [silent|].
  apply respects_bind; [tc_solve|silent|]. intros []; [silent|done].
Qed.

Lemma stage_candidate_procs temp vid i term copied jr :
  respects procs_same (stage_candidate E temp vid i term copied jr).
Proof.
  destruct jr as [j result]. unfold stage_candidate.
  apply respects_bind; [tc_solve|silent|]. intros _.
  apply respects_bind; [tc_solve|silent|]. intros _.
  apply respects_bind; [tc_solve|silent|]. intros found.
  apply respects_bind; [tc_solve|destruct found; silent|]. intros copied'.
  silent.
Qed.

Lemma select_and_stage_procs input_file output_folder top_n :
  respects procs_same (select_and_stage E input_file output_folder top_n).
Proof.
  unfold select_and_stage.
  apply respects_bind; [tc_solve|silent|]. intros _.
  apply respects_bind; [tc_solve|silent|]. intros _.
  apply respects_bind; [tc_solve|silent|]. intros text.
  apply respects_bind; [tc_solve| |].
  { apply respects_for_each; [tc_solve|]. intros copied [i term] _.
    unfold process_term. apply respects_bind; [tc_solve|silent|]. intros _.
    destruct (search_video_by_text E term "" _ _); [silent|].
    apply respects_for_each; [tc_solve|]. intros copied' jr _.
    apply stage_candidate_procs. }
  intros copied. apply respects_bind; [tc_solve| |intros _; silent].
  unfold copy_audio_and_srt_files.
  apply respects_bind; [tc_solve|apply copy_audio_procs|]. intros _.
  apply respects_bind; [tc_solve|silent|]. intros []; silent.
Qed.

(** ** The inputs of the encoder *)

Implicit Types cmd rest videos : list string.
Implicit Types a b x v : string.

Lemma is_input_step a b rest x :
  a ≠ "-i" ∨ b ≠ x → is_input (a :: b :: rest) x = is_input (b :: rest) x.
Proof.
  intros H. cbn [is_input].
  destruct H as [H|H]; [rewrite (bool_decide_eq_false_2 (a = "-i")) by done
                       |rewrite (bool_decide_eq_false_2 (b = x)) by done];
    by rewrite ?andb_false_r.
Qed.

Lemma is_input_skip a rest x :
  a ≠ "-i" → is_input (a :: rest) x = is_input rest x.
Proof.
  intros H. destruct rest as [|b rest]; [done|].
  apply is_input_step. by left.
Qed.

Lemma is_input_segments videos rest x :
  (∀ v, v ∈ videos → v ≠ x) → x ≠ "-i" →
  is_input (flat_map (λ video, ["-i"; video]) videos ++ "-i" :: rest) x
  = is_input ("-i" :: rest) x.
Proof.
  intros Hv Hx. induction videos as [|v videos IH]; [done|].
  cbn [flat_map app]. rewrite is_input_step by (right; apply Hv; left).
  rewrite <-IH by (intros v' Hv'; apply Hv; by right).
  destruct videos as [|v' videos]; cbn [flat_map app];
    apply is_input_step; right; by intros <-.
Qed.

Lemma join_suffix d n : ∃ x, Path.join d n = x +:+ n.
Proof.
  unfold Path.join. destruct (PyStr.startswith n "/"); [by exists ""|].
  destruct (_ || _); [by exists d|]. exists (d +:+ "/").
  by rewrite app_assoc_str.
Qed.

Lemma endswith_join_any d n suf :
  PyStr.endswith n suf = true → PyStr.endswith (Path.join d n) suf = true.
Proof.
  intros [a ->]%endswith_inv. destruct (join_suffix d (a +:+ suf)) as [x ->].
  rewrite <-app_assoc_str. apply endswith_app.
Qed.

Lemma srt_not_input videos audio_file total output_file x :
  PyStr.endswith x ".srt" = true →
  (∀ v, v ∈ videos → PyStr.endswith v ".mp4" = true) →
  PyStr.endswith audio_file ".mp3" || PyStr.endswith audio_file ".wav" = true →
  PyStr.endswith output_file ".mp4" = true →
  is_input (ffmpeg_command E videos audio_file total output_file) x = false.
Proof.
  intros Hx Hv Ha Ho.
  assert (∀ s, PyStr.endswith s ".srt" = false → s ≠ x) as Hne.
  { intros s Hs ->. by rewrite Hx in Hs. }
  assert (∀ s, PyStr.endswith s ".mp4" = true → s ≠ x) as Hmp4.
  { intros s Hs. apply Hne. by apply (endswith_excl _ ".mp4"). }
  unfold ffmpeg_command. cbn [app].
  rewrite !is_input_skip by done.
  rewrite is_input_segments;
    [|intros v Hin; by apply Hmp4, Hv|symmetry; by apply Hne].
  rewrite is_input_step; cycle 1.
  { right. apply Hne. apply orb_true_iff in Ha as [Ha|Ha].
    - by apply (endswith_excl _ ".mp3").
    - by apply (endswith_excl _ ".wav"). }
  rewrite is_input_step by (right; by apply Hne).
  rewrite is_input_step by (by left).
  rewrite is_input_step by (right; by apply Hne).
  rewrite !is_input_step by (by left).
  rewrite is_input_step by (right; by apply Hmp4).
  done.
Qed.

Lemma last_fmap_filter_elem (f : string → string) (kind : string → bool)
    (names : list string) y :
  last (f <$> filter (λ n, kind n = true) names) = Some y →
  ∃ n, y = f n ∧ kind n = true.
Proof.
  intros H%last_Some_elem_of.
  apply list_elem_of_fmap in H as (n & -> & [Hk _]%list_elem_of_filter).
  by exists n.
Qed.

Lemma planned_shapes folder_path w pl :
  planned E folder_path w pl →
  (∀ v, v ∈ plan_videos pl → PyStr.endswith v ".mp4" = true) ∧
  PyStr.endswith (plan_audio pl) ".mp3"
  || PyStr.endswith (plan_audio pl) ".wav" = true.
Proof.
  intros (_ & Hscan & _). rewrite scan_folder_spec in Hscan.
  injection Hscan as _ Hv Ha. split.
  - intros v. rewrite <-Hv.
    intros (n & -> & [Hn _]%list_elem_of_filter)%list_elem_of_fmap.
    by apply endswith_join_any.
  - apply last_fmap_filter_elem in Ha as (n & -> & Hn).
    unfold is_audio in Hn. apply orb_true_iff in Hn as [Hn|Hn].
    + by rewrite (endswith_join_any _ _ _ Hn).
    + rewrite (endswith_join_any _ _ _ Hn). apply orb_true_r.
Qed.

Lemma output_path_video folder_path :
  PyStr.endswith (output_path folder_path) ".mp4" = true.
Proof.
  unfold output_path. apply endswith_join_any.
  apply endswith_trans with "_merged.mp4"; [apply endswith_app|done].
Qed.

End Processes.

(** X13. One job starts at most two processes, in this order: the probe
    of the audio file and then the encoder, whose last argument is the
    output path of the job's folder. Selection, staging and the copy of
    the companions start no process, so a job that stops before the merge
    has started none, and the encoder is never started without the probe
    having run. *)
Theorem job_processes E input_file output_folder top_n w :
  let vid :=
    Path.join output_folder (Path.splitext (Path.basename input_file)).1 in
  ∃ l, procs (process_single_file E input_file output_folder top_n w).2
       = procs w ++ l ∧
    (l = [] ∨ (∃ audio_file, l = [ffprobe_command audio_file]) ∨
     ∃ audio_file cmd,
       l = [ffprobe_command audio_file; cmd] ∧
       head cmd = Some "ffmpeg" ∧ cmd_output cmd = output_path vid).
Proof.
  intros vid. unfold process_single_file, bind at 1.
  pose proof (select_and_stage_procs E input_file output_folder top_n w) as H1.
  unfold procs_same in H1.
  destruct (select_and_stage E input_file output_folder top_n w)
    as [[copied|e] w1]; cbn [snd] in *;
    [|exists []; split; [by rewrite app_nil_r|by left]].
  unfold bind at 1. fold vid.
  destruct (merge_trace E vid w1) as (l & Hl & Hcases).
  exists l. split.
  - rewrite <-H1, <-Hl.
    destruct (merge_videos_with_srt E vid w1) as [[[merged|]|e] w2]; done.
  - destruct Hcases as [->|[Hp|(pl & _ & ->)]]; [by left|by right; left|].
    right. right. exists (plan_audio pl), (plan_command E vid pl).
    split; [done|]. split; [done|]. apply cmd_output_ffmpeg_command.
Qed.

(** X14. The subtitle file is not merged into the video: no path that
    ends in [.srt] is an input of an encoder command a merge starts (the
    inputs are the segments and the audio file). The file is read all the
    same: when it cannot be read or decoded, the merge raises that
    exception before any process is started, and leaves the world as it
    was. *)
Theorem subtitles_not_encoded E folder_path w :
  (∃ l, procs (merge_videos_with_srt E folder_path w).2 = procs w ++ l ∧
     ∀ cmd x, cmd ∈ l → head cmd = Some "ffmpeg" →
       PyStr.endswith x ".srt" = true → is_input cmd x = false) ∧
  (∀ srt_file video videos audio_file e,
     files w !! folder_path = Some Dir →
     scan_folder folder_path (listing E (files w) folder_path)
     = (Some srt_file, video :: videos, Some audio_file) →
     (read_text E srt_file w).1 = Raise e →
     merge_videos_with_srt E folder_path w = (Raise e, w)).
Proof.
  split.
  - destruct (merge_trace E folder_path w) as (l & Hl & Hcases).
    exists l. split; [done|]. intros cmd x Hcmd Hhead Hx.
    destruct Hcases as [->|[[audio ->]|(pl & Hpl & ->)]].
    + by apply elem_of_nil in Hcmd.
    + by apply list_elem_of_singleton in Hcmd as ->.
    + apply elem_of_cons in Hcmd as [->|Hcmd]; [done|].
      apply list_elem_of_singleton in Hcmd as ->.
      destruct (planned_shapes E _ _ _ Hpl) as [Hv Ha].
      apply srt_not_input; [done..|apply output_path_video].
  - intros srt_file video videos audio_file e Hdir Hscan Hread.
    unfold merge_videos_with_srt, bind at 1, listdir. rewrite Hdir, Hscan.
    unfold bind at 1. unfold read_text, bind, fs_query in *.
    destruct (FS.read_file (files w) srt_file) as [bytes|e'];
      [|by injection Hread as ->].
    destruct (decode_utf8 E bytes); [done|]. by injection Hread as ->.
Qed.

(** A subtitle entry that cannot be read: [job/a.srt] is a directory
    here, the merge raises and starts nothing. *)
Example unreadable_subtitles :
  let E := Demo.env false [] in
  let w := set_files (<["job/a.srt" := Dir]> (files (Demo.job [])))
             (Demo.job []) in
  merge_videos_with_srt E "job" w = (Raise IsADirectoryError, w).
Proof. vm_compute. reflexivity. Qed.

(** * All the copies of a term go to one file *)

Section Overwrite.

Variable E : collaborators.
Variables temp vid : string.
Variable i : nat.
Variable term : string.
Variable all : list (nat * candidate).
Variable st0 : gmap string node.
Hypothesis can : can_stage E temp vid i term st0 all = true.

Local Abbreviation dst := (destination_path vid i term).
Local Abbreviation mp j := (metadata_path temp i j term).
Local Abbreviation state := (staging_state temp vid i term all st0).

Lemma can_stage_dst : FS.isdir st0 dst = false ∧ FS.parent_ok st0 dst = true.
Proof.
  unfold can_stage in can.
  apply andb_true_iff in can as [[H1 H2]%andb_true_iff _].
  by apply negb_true_iff in H1.
Qed.

Lemma can_stage_cand jr :
  jr ∈ all →
  FS.parent_ok st0 (mp jr.1) = true ∧ FS.isdir st0 (mp jr.1) = false ∧
  removable E (mp jr.1) = true ∧ FS.isfile st0 (path jr.2) = true ∧
  path jr.2 ≠ dst ∧ ∀ jr', jr' ∈ all → path jr.2 ≠ mp jr'.1.
Proof.
  intros Hin. unfold can_stage in can.
  apply andb_true_iff in can as [_ H]. rewrite forallb_forall in H.
  specialize (H jr (proj1 (list_elem_of_In _ _) Hin)). cbn zeta in H.
  repeat (apply andb_true_iff in H as [H ?]).
  repeat match goal with
         | H : negb _ = true |- _ => apply negb_true_iff in H
         | H : bool_decide _ = false |- _ => apply bool_decide_eq_false_1 in H
         end.
  repeat split; try done.
  intros jr' Hin'.
  match goal with H : forallb _ all = true |- _ =>
    rewrite forallb_forall in H;
    specialize (H jr' (proj1 (list_elem_of_In _ _) Hin')) end.
  match goal with H : negb _ = true |- _ =>
    apply negb_true_iff in H; by apply bool_decide_eq_false_1 in H end.
Qed.

Lemma record_not_destination j : mp j ≠ dst.
Proof.
  intros H. pose proof (metadata_not_video temp i j term) as Hm.
  by rewrite H, destination_is_video in Hm.
Qed.

Lemma state_initial : state st0.
Proof. split; [done|]. split; [by right|by left]. Qed.

Lemma state_not_dir_dst st : state st → FS.isdir st dst = false.
Proof.
  intros (_ & _ & [H|[c H]]); unfold FS.isdir; rewrite H; [|done].
  apply can_stage_dst.
Qed.

Lemma state_not_dir_record st jr :
  state st → jr ∈ all → FS.isdir st (mp jr.1) = false.
Proof.
  intros (_ & Hm & _) Hin. unfold FS.isdir.
  destruct (Hm jr Hin) as [H|H]; rewrite H; [done|].
  by destruct (can_stage_cand jr Hin) as (_ & ? & _).
Qed.

Lemma state_dir_kept st q :
  state st → FS.isdir st0 q = true → st !! q = st0 !! q.
Proof.
  intros (Hf & _) Hq. apply Hf.
  - intros ->. destruct can_stage_dst as [H _]. by rewrite H in Hq.
  - intros jr Hin ->.
    destruct (can_stage_cand jr Hin) as (_ & H & _). by rewrite H in Hq.
Qed.

Lemma state_parent_ok st p :
  state st → FS.parent_ok st0 p = true → FS.parent_ok st p = true.
Proof.
  intros HS. unfold FS.parent_ok.
  intros [H|H]%orb_true_iff; [by rewrite H|].
  apply orb_true_iff. right. unfold FS.isdir.
  by rewrite (state_dir_kept st _ HS H).
Qed.

Lemma state_source st jr :
  state st → jr ∈ all → st !! path jr.2 = st0 !! path jr.2.
Proof.
  intros (Hf & _) Hin.
  destruct (can_stage_cand jr Hin) as (_ & _ & _ & _ & Hd & Hm).
  by apply Hf.
Qed.

Lemma parent_ok_insert_file (st : gmap string node) p q c :
  FS.parent_ok st p = true → FS.isdir st q = false →
  FS.parent_ok (<[q := File c]> st) p = true.
Proof.
  unfold FS.parent_ok. intros [H|H]%orb_true_iff Hq; [by rewrite H|].
  apply orb_true_iff. right. unfold FS.isdir. rewrite lookup_insert_ne; [done|].
  intros ->. by rewrite H in Hq.
Qed.

Lemma copy2_onto_file (st : gmap string node) src d c :
  st !! src = Some (File c) → FS.isdir st d = false → src ≠ d →
  FS.parent_ok st d = true →
  FS.copy2 st src d = Ret (<[d := File c]> st).
Proof.
  intros Hsrc Hd Hne Hp. unfold FS.copy2. rewrite Hsrc, Hd. cbn zeta iota.
  rewrite bool_decide_eq_false_2 by done. by rewrite Hd, Hp.
Qed.

(** One candidate: the record is written, the source is copied onto the
    destination whatever was there, the record is removed. *)
Lemma stage_candidate_copies copied j result w :
  (j, result) ∈ all → state (files w) →
  ∃ w', stage_candidate E temp vid i term copied (j, result) w
        = (Ret (copied ++ [dst]), w') ∧
    state (files w') ∧
    files w' !! dst = st0 !! path result ∧
    procs w' = procs w ∧
    logs w' = logs w ++ [(INFO, MetadataSaved j (mp j));
                         (INFO, VideoCopied dst);
                         (INFO, MetadataDeleted (mp j))].
Proof.
  intros Hin HS.
  destruct (can_stage_cand _ Hin) as (Hpo & Hnd & Hrm & Hfile & Hsd & Hsm).
  cbn [fst snd] in *.
  pose proof (record_not_destination j) as Hne.
  pose proof (state_not_dir_record _ _ HS Hin) as Hnd'. cbn [fst] in Hnd'.
  pose proof (state_parent_ok _ _ HS Hpo) as Hpo'.
  pose proof (state_not_dir_dst _ HS) as Hdd.
  pose proof (state_parent_ok _ _ HS (proj2 can_stage_dst)) as Hdp.
  pose proof (state_source _ _ HS Hin) as Hsrc. cbn [snd] in Hsrc.
  assert (∃ c, st0 !! path result = Some (File c)) as [c Hc].
  { unfold FS.isfile in Hfile. destruct (st0 !! path result) as [[c|]|];
      [by exists c|done..]. }
  rewrite Hc in Hsrc.
  rewrite stage_candidate_eq. cbn zeta.
  unfold FS.write_file. rewrite Hnd', Hpo'.
  set (json := json_dump E _).
  set (st1 := <[mp j := File json]> (files w)).
  assert (st1 !! path result = Some (File c)) as Hsrc1.
  { unfold st1. rewrite lookup_insert_ne; [done|]. intros H.
    by apply (Hsm (j, result) Hin). }
  assert (FS.isdir st1 dst = false) as Hdd1.
  { unfold FS.isdir, st1. rewrite lookup_insert_ne by done. exact Hdd. }
  assert (FS.exists_ st1 (path result) = true) as ->
    by (unfold FS.exists_; by rewrite Hsrc1).
  rewrite (copy2_onto_file st1 (path result) dst c Hsrc1 Hdd1 Hsd
             (parent_ok_insert_file _ _ _ _ Hdp Hnd')).
  unfold FS.remove.
  rewrite (lookup_insert_ne _ dst (mp j)) by done.
  unfold st1 at 1. rewrite lookup_insert_eq, Hrm.
  eexists. split; [done|]. cbn [files procs logs add_log set_files].
  split; [|split; [|split; [done|by rewrite <-!app_assoc]]].
  - destruct HS as (Hf & Hm & Hd). split; [|split].
    + intros p Hp Hps. rewrite lookup_delete_ne, lookup_insert_ne by
        (try done; intros <-; by apply (Hps (j, result) Hin)).
      unfold st1. rewrite lookup_insert_ne
        by (intros <-; by apply (Hps (j, result) Hin)).
      by apply Hf.
    + intros jr Hjr. destruct (decide (mp jr.1 = mp j)) as [->|Hne'].
      * left. apply lookup_delete_eq.
      * rewrite lookup_delete_ne by done.
        rewrite lookup_insert_ne by (intros H; by apply (record_not_destination jr.1)).
        unfold st1. rewrite lookup_insert_ne by done. by apply Hm.
    + right. exists c. rewrite lookup_delete_ne by done.
      apply lookup_insert_eq.
  - rewrite lookup_delete_ne by done. by rewrite lookup_insert_eq.
Qed.

Lemma candidates_all_copied l :
  (∀ jr, jr ∈ l → jr ∈ all) →
  ∀ copied w, state (files w) →
  ∃ w', for_each l (stage_candidate E temp vid i term) copied w
        = (Ret (copied ++ replicate (length l) dst), w') ∧
    state (files w') ∧
    procs w' = procs w ∧
    (∃ lg, logs w' = logs w ++ lg ∧
           logged_copies lg = replicate (length l) dst) ∧
    match last l with
    | Some jr => files w' !! dst = st0 !! path jr.2
    | None => files w' = files w
    end.
Proof.
  induction l as [|[j result] l IH]; intros Hl copied w HS.
  - exists w. cbn. rewrite app_nil_r.
    split; [done|]. split; [done|]. split; [done|]. split; [|done].
    exists []. by rewrite app_nil_r.
  - destruct (stage_candidate_copies copied j result w) as
      (w1 & H1 & HS1 & Hd1 & Hp1 & Hl1); [apply Hl; left|done|].
    destruct (IH (λ jr Hjr, Hl jr (list_elem_of_further _ _ _ Hjr))
                (copied ++ [dst]) w1 HS1)
      as (w' & H & HS' & Hp & (lg & Hlg & Hcp) & Hlast).
    exists w'. cbn [for_each]. unfold bind at 1. rewrite H1, H.
    split; [by rewrite <-app_assoc|]. split; [done|].
    split; [by rewrite Hp|]. split.
    + eexists. rewrite Hlg, Hl1, <-app_assoc. split; [done|].
      rewrite logged_copies_app, Hcp. done.
    + destruct l as [|jr l]; [cbn in *; by rewrite Hlast|].
      change (last ((j, result) :: jr :: l)) with (last (jr :: l)).
      destruct (last (jr :: l)) eqn:Hlst; [done|].
      by apply last_None in Hlst.
Qed.

End Overwrite.

(** ** All the terms of a script *)

Section Job.

Variable E : collaborators.
Variables temp vid : string.
Variable top_n : Z.
Variable its : list (nat * string).
Variable st0 : gmap string node.
Hypothesis can_all : can_stage_all E temp vid top_n st0 its = true.
Hypothesis ordinals : NoDup its.*1.

Local Abbreviation sel it := (term_selected E top_n it.2).
Local Abbreviation dest it := (destination_path vid it.1 it.2).
Local Abbreviation jstate := (job_state E temp vid top_n its st0).

Lemma can_all_term it :
  it ∈ its → can_stage E temp vid it.1 it.2 st0 (sel it) = true.
Proof.
  intros Hin. unfold can_stage_all in can_all.
  rewrite forallb_forall in can_all.
  specialize (can_all it (proj1 (list_elem_of_In _ _) Hin)).
  by apply andb_true_iff in can_all as [? _].
Qed.

Lemma can_all_source it jr it' :
  it ∈ its → jr ∈ sel it → it' ∈ its →
  path jr.2 ≠ dest it' ∧
  ∀ jr', jr' ∈ sel it' → path jr.2 ≠ metadata_path temp it'.1 jr'.1 it'.2.
Proof.
  intros Hin Hjr Hin'. unfold can_stage_all in can_all.
  rewrite forallb_forall in can_all.
  specialize (can_all it (proj1 (list_elem_of_In _ _) Hin)).
  apply andb_true_iff in can_all as [_ H]. rewrite forallb_forall in H.
  specialize (H jr (proj1 (list_elem_of_In _ _) Hjr)).
  rewrite forallb_forall in H.
  specialize (H it' (proj1 (list_elem_of_In _ _) Hin')).
  apply andb_true_iff in H as [H1 H2]. apply negb_true_iff in H1.
  apply bool_decide_eq_false_1 in H1. split; [done|]. intros jr' Hjr'.
  rewrite forallb_forall in H2.
  specialize (H2 jr' (proj1 (list_elem_of_In _ _) Hjr')).
  apply negb_true_iff in H2. by apply bool_decide_eq_false_1 in H2.
Qed.

Lemma record_not_any_destination j i t i' t' :
  metadata_path temp i j t ≠ destination_path vid i' t'.
Proof.
  intros H. pose proof (metadata_not_video temp i j t) as Hm.
  by rewrite H, destination_is_video in Hm.
Qed.

Lemma destination_ordinal i t j u :
  destination_path vid i t = destination_path vid j u → i = j.
Proof.
  unfold destination_path. rewrite !join_rel by apply video_filename_relative.
  intros H%String.app_inj. unfold video_filename in H.
  by apply str_prefix_inj in H as [-> _].
Qed.

Lemma job_state_initial : jstate st0.
Proof.
  split; [done|]. split; [intros it jr _ _; by right|intros it _; by left].
Qed.

Lemma job_dir_kept st q :
  jstate st → FS.isdir st0 q = true → st !! q = st0 !! q.
Proof.
  intros (Hf & _) Hq. apply Hf.
  - intros it Hin ->.
    destruct (can_stage_dst _ _ _ _ _ _ _ (can_all_term it Hin)) as [H _].
    by rewrite H in Hq.
  - intros it jr Hin Hjr ->.
    destruct (can_stage_cand _ _ _ _ _ _ _ (can_all_term it Hin) jr Hjr)
      as (_ & H & _).
    by rewrite H in Hq.
Qed.

Lemma job_parent_ok st p :
  jstate st → FS.parent_ok st0 p = true → FS.parent_ok st p = true.
Proof.
  intros HS. unfold FS.parent_ok.
  intros [H|H]%orb_true_iff; [by rewrite H|].
  apply orb_true_iff. right. unfold FS.isdir.
  by rewrite (job_dir_kept st _ HS H).
Qed.

Lemma job_source st it jr :
  jstate st → it ∈ its → jr ∈ sel it → st !! path jr.2 = st0 !! path jr.2.
Proof.
  intros (Hf & _) Hin Hjr. apply Hf.
  - intros it' Hin'. by destruct (can_all_source it jr it' Hin Hjr Hin').
  - intros it' jr' Hin' Hjr'.
    destruct (can_all_source it jr it' Hin Hjr Hin') as [_ H]. by apply H.
Qed.

(** While the terms are staged, each term is still in the situation to be
    staged. *)
Lemma job_can_stage st it :
  jstate st → it ∈ its → can_stage E temp vid it.1 it.2 st (sel it) = true.
Proof.
  intros HS Hin. pose proof (can_all_term it Hin) as Hcan.
  destruct (can_stage_dst _ _ _ _ _ _ _ Hcan) as [Hd Hp].
  unfold can_stage. apply andb_true_intro. split.
  - apply andb_true_intro. split; [|by apply job_parent_ok].
    apply negb_true_iff. unfold FS.isdir.
    destruct HS as (_ & _ & Hdst). destruct (Hdst it Hin) as [->|[c ->]];
      [exact Hd|done].
  - apply forallb_forall. intros jr Hjr%list_elem_of_In.
    destruct (can_stage_cand _ _ _ _ _ _ _ Hcan jr Hjr)
      as (Hpo & Hnd & Hrm & Hfile & Hsd & Hsm).
    cbn zeta. repeat (apply andb_true_intro; split).
    + by apply job_parent_ok.
    + apply negb_true_iff. unfold FS.isdir.
      destruct HS as (_ & Hm & _). destruct (Hm it jr Hin Hjr) as [->| ->];
        [done|exact Hnd].
    + done.
    + unfold FS.isfile. by rewrite (job_source st it jr HS Hin Hjr).
    + apply negb_true_iff. by apply bool_decide_eq_false_2.
    + apply forallb_forall. intros jr' Hjr'%list_elem_of_In.
      apply negb_true_iff, bool_decide_eq_false_2. by apply Hsm.
Qed.

Lemma job_compose st st' it :
  jstate st → it ∈ its →
  staging_state temp vid it.1 it.2 (sel it) st st' → jstate st'.
Proof.
  intros (Hf & Hm & Hd) Hin (Hf' & Hm' & Hd'). split; [|split].
  - intros p Hp Hps. rewrite Hf'; [by apply Hf|by apply Hp|].
    intros jr Hjr. by apply Hps.
  - intros it' jr' Hin' Hjr'.
    set (p := metadata_path temp it'.1 jr'.1 it'.2).
    destruct (decide (Exists (λ jr, p = metadata_path temp it.1 jr.1 it.2)
                        (sel it))) as [Hex|Hno].
    + apply Exists_exists in Hex as (jr & Hjr & Hp).
      destruct (Hm' jr Hjr) as [H|H]; rewrite <-Hp in H; [by left|].
      rewrite H. by apply Hm.
    + rewrite Hf'; [by apply Hm|apply record_not_any_destination|].
      intros jr Hjr Hp. apply Hno. apply Exists_exists. by exists jr.
  - intros it' Hin'.
    destruct (decide (dest it' = dest it)) as [Heq|Hne].
    + rewrite Heq. destruct Hd' as [->|H]; [|by right].
      rewrite <-Heq. by apply Hd.
    + rewrite Hf'; [by apply Hd|done|].
      intros jr Hjr H. symmetry in H. by apply record_not_any_destination in H.
Qed.

Lemma job_other_destination st st' it it' :
  it'.1 ≠ it.1 →
  staging_state temp vid it.1 it.2 (sel it) st st' →
  st' !! dest it' = st !! dest it'.
Proof.
  intros Hne (Hf' & _). apply Hf'.
  - intros H. by apply destination_ordinal in H.
  - intros jr Hjr H. symmetry in H. by apply record_not_any_destination in H.
Qed.

Lemma slice_to_nil {A} (n : Z) : PyStr.slice_to (@nil A) n = [].
Proof. unfold PyStr.slice_to. destruct (decide _); apply take_nil. Qed.

(** One term: every selected candidate is copied onto the destination. *)
Lemma process_term_all_copied i term copied w :
  can_stage E temp vid i term (files w) (term_selected E top_n term) = true →
  ∃ w', process_term E temp vid top_n copied (i, term) w
        = (Ret (copied ++ replicate (length (term_selected E top_n term))
                            (destination_path vid i term)), w') ∧
    staging_state temp vid i term (term_selected E top_n term)
      (files w) (files w') ∧
    procs w' = procs w ∧
    (∃ lg, logs w' = logs w ++ lg ∧
           logged_copies lg
           = replicate (length (term_selected E top_n term))
               (destination_path vid i term)) ∧
    match last (term_selected E top_n term) with
    | Some jr => files w' !! destination_path vid i term
                 = files w !! path jr.2
    | None => files w' = files w
    end.
Proof.
  intros Hcan. unfold term_selected in *.
  unfold process_term, bind at 1, logging at 1.
  destruct (search_video_by_text E term "" (POSITIVE_THRESHOLD E)
              (NEGATIVE_THRESHOLD E)) as [|c rs].
  - rewrite slice_to_nil. cbn. eexists. split; [by rewrite app_nil_r|].
    split; [apply (state_initial temp vid i term [])|]. split; [done|].
    split; [|done].
    exists [(INFO, Searching i term); (WARNING, NoVideoFor term)].
    cbn [logs add_log]. by rewrite <-app_assoc.
  - set (selected := PyStr.enumerate 1 (PyStr.slice_to (c :: rs) top_n)) in *.
    destruct (candidates_all_copied E temp vid i term selected (files w)
                Hcan selected (λ _ H, H) copied
                (add_log (INFO, Searching i term) w))
      as (w' & Hrun & HS & Hp & (lg & Hlg & Hcp) & Hlast).
    { apply state_initial. }
    exists w'. split; [done|]. split; [done|]. split; [done|]. split; [|done].
    exists ((INFO, Searching i term) :: lg). rewrite Hlg.
    cbn [logs add_log]. by rewrite <-app_assoc.
Qed.

Lemma terms_all_copied l :
  ∀ done, its = done ++ l →
  ∀ copied w, jstate (files w) →
    (∀ it jr, it ∈ done → last (sel it) = Some jr →
              files w !! dest it = st0 !! path jr.2) →
  ∃ w', for_each l (process_term E temp vid top_n) copied w
        = (Ret (copied ++ all_copies E vid top_n l), w') ∧
    jstate (files w') ∧
    (∀ it jr, it ∈ its → last (sel it) = Some jr →
              files w' !! dest it = st0 !! path jr.2) ∧
    procs w' = procs w ∧
    ∃ lg, logs w' = logs w ++ lg ∧
          logged_copies lg = all_copies E vid top_n l.
Proof.
  induction l as [|[i term] l IH]; intros done Hits copied w HS Hdone.
  - exists w. cbn. rewrite app_nil_r in *. subst done.
    split; [done|]. split; [done|]. split; [done|]. split; [done|].
    exists []. by rewrite app_nil_r.
  - assert ((i, term) ∈ its) as Hin
      by (rewrite Hits; apply elem_of_app; right; left).
    destruct (process_term_all_copied i term copied w
                (job_can_stage _ _ HS Hin))
      as (w1 & H1 & HS1 & Hp1 & (lg1 & Hlg1 & Hcp1) & Hlast1).
    pose proof (job_compose _ _ _ HS Hin HS1) as HJ1.
    assert (its = (done ++ [(i, term)]) ++ l) as Hits'
      by (by rewrite <-app_assoc).
    destruct (IH (done ++ [(i, term)]) Hits'
                (copied ++ replicate (length (term_selected E top_n term))
                             (destination_path vid i term)) w1 HJ1)
      as (w' & H & HJ & Hc & Hp & (lg & Hlg & Hcp)).
    { intros it jr [Hit|Hit]%elem_of_app Hl.
      - rewrite (job_other_destination (files w) (files w1) (i, term) it);
          [by apply Hdone| |done].
        cbn [fst]. intros Heq. rewrite Hits in ordinals.
        rewrite fmap_app, fmap_cons in ordinals.
        apply NoDup_app in ordinals as (_ & Hno & _).
        apply (Hno it.1); [by apply list_elem_of_fmap_2|]. rewrite Heq. left.
      - apply list_elem_of_singleton in Hit as ->. cbn [fst snd] in *.
        rewrite Hl in Hlast1. rewrite Hlast1.
        apply (job_source _ (i, term) jr HS Hin).
        by apply last_Some_elem_of. }
    exists w'. cbn [for_each]. unfold bind at 1. rewrite H1, H.
    split; [unfold all_copies; cbn; by rewrite <-app_assoc|].
    split; [done|]. split; [done|]. split; [by rewrite Hp|].
    exists (lg1 ++ lg). rewrite Hlg, Hlg1, <-app_assoc. split; [done|].
    rewrite logged_copies_app, Hcp1, Hcp. done.
Qed.

End Job.

Section OverwriteClaim.

Variable E : collaborators.

Lemma process_term_summary temp vid top_n i term copied w copied' w' :
  process_term E temp vid top_n copied (i, term) w = (Ret copied', w') →
  ∃ k,
    (k ≤ length (PyStr.slice_to
                   (search_video_by_text E term "" (POSITIVE_THRESHOLD E)
                      (NEGATIVE_THRESHOLD E)) top_n))%nat ∧
    copied' = copied ++ replicate k (destination_path vid i term) ∧
    (∃ l, logs w' = logs w ++ l ∧
          logged_copies l = replicate k (destination_path vid i term)) ∧
    ∀ p, files w' !! p = files w !! p ∨ files w' !! p = None ∨
         term_footprint vid i term p.
Proof.
  intros H.
  pose proof (process_term_copies E _ _ _ _ _ _ _ _ _ H) as [k ->].
  pose proof (process_term_staged E _ _ _ _ _ _ _ _ _ H)
    as (_ & (l & Hl & Hc & _) & Hf).
  apply app_inv_head in Hc.
  exists k. split; [|split; [done|split; [by exists l|done]]].
  unfold process_term in H.
  apply bind_ret_inv in H as ([] & w0 & _ & H).
  destruct (search_video_by_text E term "" _ _) as [|c results].
  - apply bind_ret_inv in H as ([] & w1 & _ & [= Heq _]).
    apply (f_equal length) in Heq. rewrite length_app, length_replicate in Heq.
    lia.
  - apply candidates_bound in H.
    rewrite length_enumerate, length_app, length_replicate in H. lia.
Qed.

(** C10. The destination of a copy has the ordinal of the search term in
    its name and not the rank of the candidate, so all the copies made
    for a term go to one path. When every selected candidate of every
    term of a script can be staged (its source is a regular file outside
    the job, the folders are there), staging returns, for each term in
    turn, the destination of the term once per selected candidate, and
    has logged one copy per entry: every copy is counted. Each later copy
    has overwritten the earlier one: the destination of a term ends up
    holding the content of the last selected candidate of the term, and
    no path that is not the destination of a term holds anything new, so
    there is at most one segment file per term however many candidates
    were copied. In every run of a term that completes, with missing
    sources or not, the copies are all to the destination of the term, at
    most one per selected candidate, each counted and logged, and no path
    but the destination (or, where the destination is a directory, an
    entry directly below it) holds anything new; over a whole script the
    returned list is the list of logged copies and holds at most as many
    different paths as there are terms. *)
Theorem staging_overwrites temp vid top_n :
  (∀ terms w,
     let its := PyStr.enumerate 1 terms in
     let r := stage_terms E temp vid top_n terms w in
     can_stage_all E temp vid top_n (files w) its = true →
     r.1 = Ret (all_copies E vid top_n its) ∧
     (∃ l, logs r.2 = logs w ++ l ∧
           logged_copies l = all_copies E vid top_n its) ∧
     (∀ i term j result,
        (i, term) ∈ its →
        last (term_selected E top_n term) = Some (j, result) →
        FS.isfile (files w) (path result) = true ∧
        files r.2 !! destination_path vid i term = files w !! path result) ∧
     (∀ p, (∀ i term, (i, term) ∈ its → p ≠ destination_path vid i term) →
           files r.2 !! p = files w !! p ∨ files r.2 !! p = None)) ∧
  (∀ i term copied w copied' w',
     process_term E temp vid top_n copied (i, term) w = (Ret copied', w') →
     ∃ k, (k ≤ length (term_selected E top_n term))%nat ∧
       copied' = copied ++ replicate k (destination_path vid i term) ∧
       (∃ l, logs w' = logs w ++ l ∧
             logged_copies l = replicate k (destination_path vid i term)) ∧
       ∀ p, files w' !! p = files w !! p ∨ files w' !! p = None ∨
            term_footprint vid i term p) ∧
  (∀ terms w copied w',
     stage_terms E temp vid top_n terms w = (Ret copied, w') →
     (∃ ks, length ks = length terms ∧
            copied = copies_per_term vid ks (PyStr.enumerate 1 terms)) ∧
     (∃ l, logs w' = logs w ++ l ∧ copied = logged_copies l) ∧
     (length (remove_dups copied) ≤ length terms)%nat).
Proof.
  split; [|split].
  - intros terms w its r Hcan.
    assert (NoDup its.*1) as Hnd.
    { unfold its, PyStr.enumerate. rewrite fst_zip by (by rewrite length_seq).
      apply NoDup_seq. }
    destruct (terms_all_copied E temp vid top_n its (files w) Hcan Hnd its []
                eq_refl [] w)
      as (w' & Hrun & HJ & Hc & Hp & (lg & Hlg & Hcp)).
    { apply job_state_initial. }
    { by intros it jr Hit%elem_of_nil. }
    subst r. unfold stage_terms. fold its. rewrite Hrun. cbn [fst snd app].
    split; [done|]. split; [by exists lg|]. split.
    + intros i term j result Hin Hl. split.
      * apply last_Some_elem_of in Hl.
        by destruct (can_stage_cand _ _ _ _ _ _ _
                       (can_all_term E temp vid top_n its (files w) Hcan
                          (i, term) Hin) _ Hl) as (_ & _ & _ & ? & _).
      * by apply (Hc (i, term) (j, result)).
    + intros p Hp'. destruct HJ as (Hf & Hm & _).
      destruct (decide (Exists (λ it,
                  Exists (λ jr, p = metadata_path temp it.1 jr.1 it.2)
                    (term_selected E top_n it.2)) its)) as [Hex|Hno].
      * apply Exists_exists in Hex as (it & Hit & Hex).
        apply Exists_exists in Hex as (jr & Hjr & ->).
        destruct (Hm it jr Hit Hjr) as [H|H]; [by right|by left].
      * left. apply Hf.
        -- intros [i term] Hit. by apply Hp'.
        -- intros it jr Hit Hjr ->. apply Hno. apply Exists_exists.
           exists it. split; [done|]. apply Exists_exists. by exists jr.
  - intros i term copied w copied' w' H.
    destruct (process_term_summary _ _ _ _ _ _ _ _ _ H)
      as (k & Hk & -> & Hl & Hf).
    exists k. unfold term_selected. rewrite length_enumerate. done.
  - intros terms w copied w' H.
    destruct (stage_terms_summary E _ _ _ _ _ _ _ H) as (H1 & H2 & H3 & _).
    done.
Qed.

End OverwriteClaim.

Lemma staging_overwrites_witness :
  let E := Demo.env false [] in
  let w := Demo.prepared Demo.two_lines ".mp3" in
  let its := PyStr.enumerate 1 Demo.two_lines in
  let r := stage_terms E "out/clip1_temp" "out/clip1" 2 Demo.two_lines w in
  r.1 = Ret (all_copies E "out/clip1" 2 its) ∧
  (∃ l, logs r.2 = logs w ++ l ∧
        logged_copies l = all_copies E "out/clip1" 2 its) ∧
  (∀ i term j result,
     (i, term) ∈ its →
     last (term_selected E 2 term) = Some (j, result) →
     FS.isfile (files w) (path result) = true ∧
     files r.2 !! destination_path "out/clip1" i term
     = files w !! path result) ∧
  (∀ p, (∀ i term, (i, term) ∈ its →
                   p ≠ destination_path "out/clip1" i term) →
        files r.2 !! p = files w !! p ∨ files r.2 !! p = None).
Proof.
  apply (proj1 (staging_overwrites (Demo.env false [])
                  "out/clip1_temp" "out/clip1" 2)
           Demo.two_lines (Demo.prepared Demo.two_lines ".mp3")).
  vm_compute. reflexivity.
Defined.

(** The copies of the two lines at [top_n = 2]: four entries, two
    paths. *)
Example all_copies_top2 :
  all_copies (Demo.env false []) "out/clip1" 2
    (PyStr.enumerate 1 Demo.two_lines)
  = ["out/clip1/1_sunset_over_water.mp4";
     "out/clip1/1_sunset_over_water.mp4";
     "out/clip1/2_city_traffic_at_night.mp4";
     "out/clip1/2_city_traffic_at_night.mp4"].
Proof. vm_compute. reflexivity. Qed.

(** With [top_n = 2] the two candidates of the first line are both
    copied and counted, and the one file of the line holds the second
    candidate. *)
Example second_candidate_overwrites_first :
  let E := Demo.env false [] in
  let w := Demo.prepared Demo.two_lines ".mp3" in
  let r := process_term E "out/clip1_temp" "out/clip1" 2 []
             (1, "sunset over water") w in
  r.1 = Ret ["out/clip1/1_sunset_over_water.mp4";
             "out/clip1/1_sunset_over_water.mp4"] ∧
  files w !! "lib/sunset over water.mp4" = Some (File "sunset over water") ∧
  files w !! "lib/alt.mp4" = Some (File "alt") ∧
  files r.2 !! "out/clip1/1_sunset_over_water.mp4" = Some (File "alt") ∧
  FS.children (files r.2) "out/clip1" = ["1_sunset_over_water.mp4"].
Proof. vm_compute. repeat split; reflexivity. Qed.

(** * More of the claims at concrete inputs *)

(** The filter graph for two segments, as the encoder reads it. *)
Example filter_graph_two_segments :
  PyStr.join ";" (render <$> graph_spec 2)
  = "[0:v]setpts=PTS-STARTPTS[v0];[1:v]setpts=PTS-STARTPTS[v1];"
    +:+ "[v0][v1]concat=n=2:v=1:a=0[outv];"
    +:+ "[outv][2:a]concat=n=1:v=1:a=1[outv][outa]".
Proof. vm_compute. reflexivity. Qed.

Lemma demo_job_planned :
  planned (Demo.env false []) "job" (Demo.job ["a.srt"])
    (MergePlan "job/a.srt" ["job/1_a.mp4"; "job/2_b.mp4"] "job/a.mp3"
       12.4%float).
Proof.
  split; [vm_compute; reflexivity|]. split; [vm_compute; reflexivity|].
  split; [done|]. exists true, "12.4", "". split; vm_compute; reflexivity.
Qed.

Lemma merge_filter_graph_witness :
  let E := Demo.env false [] in
  let w := Demo.job ["a.srt"] in
  let pl := MergePlan "job/a.srt" ["job/1_a.mp4"; "job/2_b.mp4"] "job/a.mp3"
              12.4%float in
  let segs := segments E (files w) "job" in
  let N := length segs in
  let r := merge_videos_with_srt E "job" w in
  let cmd :=
    ["ffmpeg"; "-y"]
    ++ flat_map (λ video, ["-i"; video]) segs
    ++ ["-i"; plan_audio pl;
        "-filter_complex"; PyStr.join ";" (render <$> graph_spec N);
        "-map"; "[outv]"; "-map"; "[outa]";
        "-t"; str_of_float E (plan_duration pl + pad)%float;
        output_path "job"] in
  (0 < N)%nat ∧
  (∃ l, logs r.2 = logs w ++ (INFO, RunningFfmpeg cmd) :: l) ∧
  ((ffmpeg E cmd (files w)).1 ≠ NotStarted →
   procs r.2 = procs w ++ [ffprobe_command (plan_audio pl); cmd]).
Proof.
  apply (proj1 (merge_filter_graph (Demo.env false []) "job"
                  (Demo.job ["a.srt"]))
           (MergePlan "job/a.srt" ["job/1_a.mp4"; "job/2_b.mp4"] "job/a.mp3"
              12.4%float) "subs" "subs").
  - apply demo_job_planned.
  - vm_compute. reflexivity.
  - reflexivity.
Defined.

Lemma merge_trim_duration_witness :
  let E := Demo.env false [] in
  let w := Demo.job ["a.srt"] in
  let pl := MergePlan "job/a.srt" ["job/1_a.mp4"; "job/2_b.mp4"] "job/a.mp3"
              12.4%float in
  let r := merge_videos_with_srt E "job" w in
  let D := plan_duration pl in
  probe_reports E (files w) (plan_audio pl) D ∧
  ∃ pre,
    let cmd := "ffmpeg" :: pre ++
               ["-t"; str_of_float E (D + 0.3)%float; output_path "job"] in
    (∃ l, logs r.2 = logs w ++ (INFO, RunningFfmpeg cmd) :: l) ∧
    ((ffmpeg E cmd (files w)).1 ≠ NotStarted →
     procs r.2 = procs w ++ [ffprobe_command (plan_audio pl); cmd]).
Proof.
  apply (proj1 (merge_trim_duration (Demo.env false []) "job"
                  (Demo.job ["a.srt"]))
           (MergePlan "job/a.srt" ["job/1_a.mp4"; "job/2_b.mp4"] "job/a.mp3"
              12.4%float) "subs" "subs").
  - apply demo_job_planned.
  - vm_compute. reflexivity.
  - reflexivity.
Defined.

(** The merge of the demo job: the probe reports 12.4 seconds, and the
    encoder is started with the three inputs, the graph for two segments
    and the trim duration 12.700000000000001. *)
Example merge_command_run :
  let E := Demo.env false [] in
  let r := merge_videos_with_srt E "job" (Demo.job ["a.srt"]) in
  r.1 = Ret (Some "job/job_merged.mp4") ∧
  procs r.2
  = [["ffprobe"; "-v"; "error"; "-show_entries"; "format=duration"; "-of";
      "default=noprint_wrappers=1:nokey=1"; "job/a.mp3"];
     ["ffmpeg"; "-y"; "-i"; "job/1_a.mp4"; "-i"; "job/2_b.mp4";
      "-i"; "job/a.mp3"; "-filter_complex";
      "[0:v]setpts=PTS-STARTPTS[v0];[1:v]setpts=PTS-STARTPTS[v1];"
      +:+ "[v0][v1]concat=n=2:v=1:a=0[outv];"
      +:+ "[outv][2:a]concat=n=1:v=1:a=1[outv][outa]";
      "-map"; "[outv]"; "-map"; "[outa]";
      "-t"; "12.700000000000001"; "job/job_merged.mp4"]].
Proof. vm_compute. split; reflexivity. Qed.

(** C7, as stated, fails. The first candidate of the line [a] has a
    source path that exists and cannot be copied (it is a directory):
    the record is written and may be unlinked, the copy at line 169
    raises, and the record is still there when the iteration ends. So it
    is not true that the record is removed after the copy was attempted
    whether the copy succeeded or not. *)
Theorem metadata_kept_by_failing_copy :
  let E := Demo.env false [] in
  let w := set_files (<["lib/a.mp4" := Dir]>
                        (files (Demo.prepared ["a"] ".mp3")))
             (Demo.prepared ["a"] ".mp3") in
  let result := Candidate "lib/a.mp4" "00:00:01" "00:00:05" 0.9%float in
  let mp := metadata_path "out/clip1_temp" 1 1 "a" in
  let json := json_dump E (Metadata "a" (path result) (start_time result)
                             (end_time result) (score result)) in
  let r := stage_candidate E "out/clip1_temp" "out/clip1" 1 "a" []
             (1, result) w in
  (Demo.search "a" !! 0 = Some result ∧
   FS.write_file (files w) mp json = Ret (<[mp := File json]> (files w)) ∧
   removable E mp = true ∧
   FS.exists_ (<[mp := File json]> (files w)) (path result) = true ∧
   r.1 = Raise IsADirectoryError ∧
   files r.2 !! mp = Some (File json)) ∧
  ¬ (∀ E temp vid i term copied j result w st1,
       let mp := metadata_path temp i j term in
       FS.write_file (files w) mp
         (json_dump E (Metadata term (path result) (start_time result)
                         (end_time result) (score result))) = Ret st1 →
       removable E mp = true →
       files (stage_candidate E temp vid i term copied (j, result) w).2 !! mp
       = None).
Proof.
  split.
  - vm_compute. repeat split; reflexivity.
  - intros H.
    specialize (H (Demo.env false []) "out/clip1_temp" "out/clip1" 1 "a" [] 1
                  (Candidate "lib/a.mp4" "00:00:01" "00:00:05" 0.9%float)
                  (set_files (<["lib/a.mp4" := Dir]>
                                (files (Demo.prepared ["a"] ".mp3")))
                     (Demo.prepared ["a"] ".mp3"))
                  _ eq_refl eq_refl).
    vm_compute in H. discriminate H.
Qed.

(** C8, as stated, fails. The directory [in] holds the scripts
    [clip0.txt] and [clip1.txt], each with its companions, and the audio
    companion of the first is not audio the probe can read: the probe
    prints nothing, [float] raises at line 102, nothing catches the
    exception and the run ends there; [clip1.txt] is not processed. With
    a probe that reads the file the same batch returns 3. So it is not
    true that a failed merge for one script leaves the loop over the
    directory going. *)
Theorem merge_exception_stops_batch :
  let E := Demo.env_corrupt ["out/clip0/clip0.mp3"] in
  let w := set_files
             (<["in/clip0.txt" := File "a"]>
                (<["in/clip0.mp3" := File "junk"]>
                   (<["in/clip0.srt" := File "subs"]>
                      (<["lib/a.mp4" := File "a"]>
                         (files (Demo.scenario Demo.two_lines ".mp3"))))))
             (Demo.scenario Demo.two_lines ".mp3") in
  let r := process_input E "in" "out" 1 w in
  (listing E (files w) "in"
   = ["clip0.mp3"; "clip0.srt"; "clip0.txt";
      "clip1.mp3"; "clip1.srt"; "clip1.txt"] ∧
   r.1 = Raise ValueError ∧
   files r.2 !! "out/clip0/1_a.mp4" = Some (File "a") ∧
   files r.2 !! "out/clip1" = None ∧
   (process_input (Demo.env true []) "in" "out" 1 w).1 = Ret 3) ∧
  ¬ (∀ E input_path output_folder top_n total filename rest w copied w1 m w2,
       PyStr.endswith filename ".txt" = true →
       select_and_stage E (Path.join input_path filename) output_folder top_n
         (add_log (INFO, ProcessingFile (Path.join input_path filename)) w)
         = (Ret copied, w1) →
       merge_videos_with_srt E
         (Path.join output_folder
            (Path.splitext (Path.basename (Path.join input_path filename))).1)
         w1 = (m, w2) →
       (∀ out, m ≠ Ret (Some out)) →
       for_each (filename :: rest)
         (process_listed E input_path output_folder top_n) total w
       = for_each rest (process_listed E input_path output_folder top_n)
           (total + length copied) (add_log (ERROR, MergeFailedKept) w2)).
Proof.
  split.
  - vm_compute. repeat split; reflexivity.
  - intros H.
    set (E := Demo.env_corrupt ["out/clip0/clip0.mp3"]).
    set (w := set_files
             (<["in/clip0.txt" := File "a"]>
                (<["in/clip0.mp3" := File "junk"]>
                   (<["in/clip0.srt" := File "subs"]>
                      (<["lib/a.mp4" := File "a"]>
                         (files (Demo.scenario Demo.two_lines ".mp3"))))))
             (Demo.scenario Demo.two_lines ".mp3")).
    set (w0 := add_log (INFO, ProcessingFile "in/clip0.txt") w).
    set (s := select_and_stage E "in/clip0.txt" "out" 1 w0).
    set (g := merge_videos_with_srt E "out/clip0" s.2).
    assert (s = (Ret ["out/clip0/1_a.mp4"], s.2)) as Hs
      by (vm_compute; reflexivity).
    assert (g = (Raise ValueError, g.2)) as Hg by (vm_compute; reflexivity).
    pose proof (H E "in" "out" 1%Z 0 "clip0.txt" ["clip1.txt"] w
                  ["out/clip0/1_a.mp4"] s.2 (Raise ValueError) g.2
                  eq_refl Hs Hg (λ out, ltac:(done))) as Heq.
    apply (f_equal fst) in Heq. vm_compute in Heq. discriminate Heq.
Qed.
